(** * tus-demo: the upload component and the proxy it talks to

    A shallow embedding of [frontend/src/App.tsx] (the React component
    [App] with its handlers and the callbacks it hands to [tus.Upload])
    and of the Express proxy written out next to it ([tusProxy] and the
    two [app.use] lines), followed by the properties the specification
    states about them.

    Conventions.
    - A JavaScript string is modelled by the UTF-8 bytes of its text
      (Rocq's [string]); the text is well formed, so [encodeURIComponent]
      never throws.
    - A JavaScript number is an IEEE 754 binary64 value.  Only
      non-negative ones arise in the component (byte counts, their
      quotients and products), so [Number] has no sign.  Finite values
      are kept as a mantissa and a binary exponent, and every arithmetic
      operation rounds to nearest, ties to even, as the hardware does.
    - A handler is a function from the state it closes over to the list
      of things it does, in program order: state setters, console
      calls, calls into tus-js-client and [fetch]. *)

From Stdlib Require Import ZArith NArith QArith Lia Bool List Ascii String.
From Stdlib Require Import DecimalString DecimalN.
From Stdlib Require PrimFloat FloatOps SpecFloat Uint63.
From stdpp Require Import base list.
Import ListNotations.

Local Open Scope string_scope.
Local Open Scope Z_scope.

(** ** JavaScript numbers *)

Module JS.

Inductive Number : Type :=
| NaN
| Infinity
| Fin (m : N) (e : Z).   (* the value [m * 2^e] *)

(** [scale a b e] is the fraction [a / (b * 2^e)], numerator and
    denominator kept integral. *)
Definition scale (a b e : Z) : Z * Z :=
  if 0 <=? e then (a, b * 2 ^ e) else (a * 2 ^ (- e), b).

(** [ilog2 a b = floor (log2 (a / b))] for positive [a] and [b]. *)
Definition ilog2 (a b : Z) : Z :=
  let l := Z.log2 a - Z.log2 b in
  let '(n, d) := scale a b l in
  if n <? d then l - 1 else l.

(** Nearest integer to [n / d], ties to the even one. *)
Definition rne (n d : Z) : Z :=
  let q := n / d in
  let r := n mod d in
  if 2 * r <? d then q
  else if d <? 2 * r then q + 1
  else if Z.even q then q else q + 1.

(** The binary64 value nearest to the non-negative rational [a / b]:
    53 bits of mantissa, exponents from [-1074] (subnormals) up, and
    overflow to [Infinity] from [2^1024] on.  A mantissa that rounds up
    to [2^53] is renormalised and zero is [Fin 0 0], so each value has
    one representation. *)
Definition round64 (a b : Z) : Number :=
  if a <=? 0 then Fin 0 0
  else
    let e := Z.max (ilog2 a b - 52) (-1074) in
    let '(n, d) := scale a b e in
    let m := rne n d in
    let '(m, e) :=
      if m =? 2 ^ 53 then (2 ^ 52, e + 1)
      else if m =? 0 then (0, 0) else (m, e) in
    if 971 <? e then Infinity else Fin (Z.to_N m) e.

Definition of_N (n : N) : Number := round64 (Z.of_N n) 1.

Definition is_zero (x : Number) : bool :=
  match x with Fin 0 _ => true | _ => false end.

(** [x / y] *)
Definition div (x y : Number) : Number :=
  match x, y with
  | NaN, _ | _, NaN => NaN
  | Infinity, Infinity => NaN
  | Infinity, Fin _ _ => Infinity
  | Fin _ _, Infinity => Fin 0 0
  | Fin m1 e1, Fin m2 e2 =>
      if (m2 =? 0)%N then (if (m1 =? 0)%N then NaN else Infinity)
      else let '(a, b) := scale (Z.of_N m1) (Z.of_N m2) (e2 - e1) in round64 a b
  end.

(** [x * y] *)
Definition mul (x y : Number) : Number :=
  match x, y with
  | NaN, _ | _, NaN => NaN
  | Infinity, z | z, Infinity => if is_zero z then NaN else Infinity
  | Fin m1 e1, Fin m2 e2 =>
      let '(a, b) := scale (Z.of_N m1 * Z.of_N m2) 1 (- (e1 + e2)) in round64 a b
  end.

(** [x < y]; false as soon as one side is [NaN]. *)
Definition ltb (x y : Number) : bool :=
  match x, y with
  | NaN, _ | _, NaN => false
  | _, Infinity => match x with Infinity => false | _ => true end
  | Infinity, Fin _ _ => false
  | Fin m1 e1, Fin m2 e2 =>
      let '(a, b) := scale (Z.of_N m1) (Z.of_N m2) (e2 - e1) in a <? b
  end.

(** Sameness of representation, which [round64] makes sameness of
    value. *)
Definition eqb (x y : Number) : bool :=
  match x, y with
  | NaN, NaN => true
  | Infinity, Infinity => true
  | Fin m1 e1, Fin m2 e2 => (m1 =? m2)%N && (e1 =? e2)
  | _, _ => false
  end.

(** The exact value of a finite number. *)
Definition value (x : Number) : option Q :=
  match x with
  | Fin m e =>
      Some (if 0 <=? e then inject_Z (Z.of_N m * 2 ^ e)
            else Qmake (Z.of_N m) (Z.to_pos (2 ^ (- e))))
  | _ => None
  end.

(** *** Decimal text *)

(** The decimal digits of a natural number, as template literals and
    [ToString] print an integer. *)
Definition dec (n : N) : string := NilEmpty.string_of_uint (N.to_uint n).

(** Before and after the first occurrence of [c]; no second part when
    [c] does not occur. *)
Fixpoint split_at (c : ascii) (s : string) : string * option string :=
  match s with
  | EmptyString => (EmptyString, None)
  | String a rest =>
      if Ascii.eqb a c then (EmptyString, Some rest)
      else let '(l, r) := split_at c rest in (String a l, r)
  end.

Definition pad2 (r : N) : string :=
  if (r <? 10)%N then "0" ++ dec r else dec r.

(** The integer value of a finite number with a non-negative exponent. *)
Definition integral (x : Number) : Z :=
  match x with Fin m e => Z.of_N m * 2 ^ e | _ => 0 end.

(** One attempt of [Number::toString] step 5: digits [s], [k] of them,
    with [s * 10^(n-k)] rounding to [x]. *)
Definition digits_try (x : Number) (k n : Z) : option Z :=
  let p := 10 ^ (n - k) in
  let s := (2 * integral x + p) / (2 * p) in
  if (10 ^ (k - 1) <=? s) && (s <? 10 ^ k) && eqb (round64 (s * p) 1) x
  then Some s else None.

Fixpoint digits_search (x : Number) (d : Z) (k : Z) (fuel : nat) : Z * Z * Z :=
  match fuel with
  | O => (integral x, d, d)
  | S fuel' =>
      match digits_try x k d, digits_try x k (d + 1) with
      | Some s, _ => (s, k, d)
      | None, Some s => (s, k, d + 1)
      | None, None => digits_search x d (k + 1) fuel'
      end
  end.

(** [Number::toString] on a finite [x >= 10^21]: the shortest digit
    string that reads back as [x], in exponent notation. *)
Definition toString_exp (x : Number) : string :=
  let d := Z.of_nat (String.length (dec (Z.to_N (integral x)))) in
  let '(s, k, n) := digits_search x d 1 17 in
  let ds := dec (Z.to_N s) in
  match ds with
  | String a EmptyString => String a "e+" ++ dec (Z.to_N (n - 1))
  | String a rest => String a ("." ++ rest) ++ "e+" ++ dec (Z.to_N (n - 1))
  | EmptyString => EmptyString
  end.

(** Hundredths nearest to a finite [x], the larger of two equally near:
    [floor (100 x + 1/2)]. *)
Definition hundredths (x : Number) : Z :=
  match x with
  | Fin m e =>
      let '(a, b) := scale (200 * Z.of_N m) 2 (- e) in (a + b / 2) / b
  | _ => 0
  end.

(** [x.toFixed(2)] *)
Definition toFixed2 (x : Number) : string :=
  match x with
  | NaN => "NaN"
  | Infinity => "Infinity"
  | Fin _ _ =>
      if ltb x (round64 (10 ^ 21) 1) then
        let n := Z.to_N (hundredths x) in
        dec (n / 100) ++ "." ++ pad2 (n mod 100)
      else toString_exp x
  end.

Definition digits_value (s : string) : option N :=
  option_map N.of_uint (NilEmpty.uint_of_string s).

(** [Number(s)] for the texts a non-negative number prints as: an
    unsigned decimal literal with optional fraction and exponent, the
    empty string (zero) and ["Infinity"].  Every other text this model
    reads as [NaN]. *)
Definition Number_of_string (s : string) : Number :=
  if String.eqb s "" then Fin 0 0
  else if String.eqb s "Infinity" then Infinity
  else
    let '(mant, ex) := split_at "e" s in
    let '(ip, fr) := split_at "." mant in
    let fr := match fr with Some f => f | None => EmptyString end in
    let ex :=
      match ex with
      | None => Some 0
      | Some (String "+" ds) =>
          if String.eqb ds "" then None else option_map Z.of_N (digits_value ds)
      | Some (String "-" ds) =>
          if String.eqb ds "" then None
          else option_map (fun v => - Z.of_N v) (digits_value ds)
      | Some ds =>
          if String.eqb ds "" then None else option_map Z.of_N (digits_value ds)
      end in
    if String.eqb ip "" && String.eqb fr "" then NaN
    else
      match digits_value ip, digits_value fr, ex with
      | Some i, Some f, Some x =>
          let w := 10 ^ Z.of_nat (String.length fr) in
          let a := Z.of_N i * w + Z.of_N f in
          if 0 <=? x then round64 (a * 10 ^ x) w else round64 a (w * 10 ^ (- x))
      | _, _, _ => NaN
      end.

End JS.

(** ** URI components *)

Module URI.

(** The characters [encodeURIComponent] leaves alone: ASCII letters and
    digits and [- _ . ! ~ * ' ( )]. *)
Definition unreserved (c : ascii) : bool :=
  let n := N_of_ascii c in
  ((65 <=? n) && (n <=? 90) || (97 <=? n) && (n <=? 122)
   || (48 <=? n) && (n <=? 57))%N
  || existsb (Ascii.eqb c)
       ["-"; "_"; "."; "!"; "~"; "*"; "'"; "("; ")"]%char.

Definition hexdigit (d : N) : ascii :=
  ascii_of_N (if (d <? 10)%N then 48 + d else 55 + d).

Definition hexval (c : ascii) : option N :=
  let n := N_of_ascii c in
  if ((48 <=? n) && (n <=? 57))%N then Some (n - 48)%N
  else if ((65 <=? n) && (n <=? 70))%N then Some (n - 55)%N
  else if ((97 <=? n) && (n <=? 102))%N then Some (n - 87)%N
  else None.

Definition escape (c : ascii) : string :=
  let n := N_of_ascii c in
  String "%" (String (hexdigit (n / 16)) (String (hexdigit (n mod 16)) "")).

(** [encodeURIComponent(s)]: each byte of the UTF-8 text is kept when
    unreserved and written [%XX] otherwise. *)
Fixpoint encodeURIComponent (s : string) : string :=
  match s with
  | EmptyString => EmptyString
  | String c rest =>
      if unreserved c then String c (encodeURIComponent rest)
      else escape c ++ encodeURIComponent rest
  end.

(** Percent-decoding, as the receiver of a query string applies it;
    [None] on a [%] that two hexadecimal digits do not follow. *)
Fixpoint percent_decode (s : string) : option string :=
  match s with
  | EmptyString => Some EmptyString
  | String "%" (String h (String l rest)) =>
      match hexval h, hexval l, percent_decode rest with
      | Some a, Some b, Some r => Some (String (ascii_of_N (16 * a + b)) r)
      | _, _, _ => None
      end
  | String "%" _ => None
  | String c rest => option_map (String c) (percent_decode rest)
  end.

End URI.

(** ** Values *)

#[local] Set Warnings "-register-all".

(** What [response.json()] can resolve to, and [undefined], which a
    missing property reads as. *)
Inductive Value : Type :=
| VUndefined
| VNull
| VBool (b : bool)
| VNumber (negative : bool) (magnitude : JS.Number)
| VString (s : string)
| VArray (items : list Value)
| VObject (props : list (string * Value)).

Definition truthy (v : Value) : bool :=
  match v with
  | VUndefined | VNull => false
  | VBool b => b
  | VNumber _ JS.NaN => false
  | VNumber _ x => negb (JS.is_zero x)
  | VString s => negb (String.eqb s "")
  | VArray _ | VObject _ => true
  end.

(** [a || b] *)
Definition or_else (a b : Value) : Value := if truthy a then a else b.

(** The property [k] of an object given by its own properties. *)
Fixpoint get_property {A : Type} (k : string) (props : list (string * A)) : option A :=
  match props with
  | [] => None
  | (k', v) :: rest => if String.eqb k k' then Some v else get_property k rest
  end.

(** [data.mediaId]: [None] stands for the [TypeError] that reading a
    property of [null] or [undefined] throws; a primitive or an array
    has no such property. *)
Definition get_mediaId (data : Value) : option Value :=
  match data with
  | VUndefined | VNull => None
  | VObject props =>
      Some (match get_property "mediaId" props with Some v => v | None => VUndefined end)
  | _ => Some VUndefined
  end.

(** What React takes as a child: text and numbers, booleans, [null]
    and [undefined] (which leave nothing), and arrays of children.  An
    object is refused: rendering it throws. *)
Fixpoint valid_child (v : Value) : bool :=
  match v with
  | VObject _ => false
  | VArray items => forallb valid_child items
  | _ => true
  end.

(** ** The component *)

Record File : Type := mkFile { name : string; type : string; size : N }.

Record Date : Type := mkDate {
  getFullYear : Z;
  getMonth : N;
  getDate : N;
  getHours : N;
  getMinutes : N;
  getSeconds : N }.

(** The options object given to [new tus.Upload]; the three callbacks
    are the functions [onError], [onProgress] and [onSuccess] below,
    closed over the file the instance was created for.  [headers] is
    the option the component leaves out, at the library's default. *)
Record UploadOptions : Type := mkOptions {
  endpoint : string;
  retryDelays : list N;
  chunkSize : N;
  metadata : list (string * string);
  headers : list (string * string) }.

(** A [tus.Upload] instance, known by the order of its creation. *)
Record Upload : Type := mkUpload { up_file : File; up_options : UploadOptions }.

(** What a handler does, in program order. *)
Inductive Action : Type :=
| SetFile (f : File)
| SetProgress (p : JS.Number)
| SetUploadStatus (s : string)
| SetMediaId (v : Value)
| SetUpload (id : nat)
| ConsoleLog (args : list string)
| ConsoleError (args : list string)
| TusNew (id : nat) (f : File) (o : UploadOptions)
| TusStart (id : nat)
| TusAbort (id : nat)
| Fetch (url : string).

(** The five [useState] cells. *)
Record State : Type := mkState {
  file : option File;
  progress : JS.Number;
  uploadStatus : string;
  mediaId : Value;
  upload : option nat }.

Definition initial : State :=
  {| file := None; progress := JS.of_N 0; uploadStatus := "";
     mediaId := VString ""; upload := None |}.

(** How a [fetch] promise settles: the request fails, or a response
    arrives whose body [response.json()] parses or rejects. *)
Inductive Settlement : Type :=
| NetworkError
| Body (parsed : option Value).

Definition print_Z (z : Z) : string :=
  match z with
  | Z.neg p => "-" ++ JS.dec (Npos p)
  | _ => JS.dec (Z.to_N z)
  end.

Section Component.

(** [new Date()] as read when the module is loaded. *)
Variable date : Date.

Definition timestamp : string :=
  print_Z (getFullYear date) ++ "-" ++ JS.dec (getMonth date + 1) ++ "-"
  ++ JS.dec (getDate date) ++ "_" ++ JS.dec (getHours date) ++ "-"
  ++ JS.dec (getMinutes date) ++ "-" ++ JS.dec (getSeconds date).

Definition handleFileChange (files : option (list File)) : list Action :=
  match files with
  | Some (f :: _) => [SetFile f; SetUploadStatus "File selected"; SetProgress (JS.of_N 0)]
  | _ => []
  end.

Definition onError (message : string) : list Action :=
  [ConsoleError ["Upload error:"; message];
   SetUploadStatus ("Upload failed: " ++ message)].

Definition onProgress (bytesUploaded bytesTotal : N) : list Action :=
  let percentage :=
    JS.toFixed2 (JS.mul (JS.div (JS.of_N bytesUploaded) (JS.of_N bytesTotal))
                        (JS.of_N 100)) in
  [ConsoleLog ["percentage: "; percentage];
   SetProgress (JS.Number_of_string percentage);
   SetUploadStatus ("Uploading: " ++ percentage ++ "%")].

Definition onSuccess (f : File) : list Action :=
  [SetUploadStatus "Upload complete! Video is now processing.";
   Fetch ("/api/upload/status?filename="
          ++ URI.encodeURIComponent (timestamp ++ " - " ++ name f))].

(** The [then]/[then]/[catch] chain hung on the [fetch] of [onSuccess]. *)
Definition onSettled (o : Settlement) : list Action :=
  match o with
  | Body (Some data) =>
      match get_mediaId data with
      | Some v => [SetMediaId (or_else v (VString ""))]
      | None => [ConsoleError ["Error fetching media ID:"]]
      end
  | _ => [ConsoleError ["Error fetching media ID:"]]
  end.

Definition options (f : File) : UploadOptions :=
  {| endpoint := "http://localhost:3001/api/upload";
     retryDelays := [0; 3000; 5000; 10000; 20000]%N;
     chunkSize := (50 * 1024 * 1024)%N;
     metadata := [("name", timestamp ++ " - " ++ name f);
                  ("type", type f);
                  ("allowedorigins", "102.223.38.190")];
     headers := [] |}.

(** [handleUpload], closed over the state of the render it belongs to;
    [fresh] is the identity the new instance gets. *)
Definition handleUpload (st : State) (fresh : nat) : list Action :=
  match file st with
  | None => [SetUploadStatus "Please select a file first"]
  | Some f =>
      [ConsoleLog [name f; "FILENAME >>>>>>>>>>>>"];
       SetUploadStatus "Starting upload...";
       TusNew fresh f (options f);
       SetUpload fresh;
       TusStart fresh]
  end.

Definition handleCancel (st : State) : list Action :=
  match upload st with
  | Some id => [TusAbort id; SetUploadStatus "Upload cancelled"]
  | None => []
  end.

(** The function the effect returns, closed over [upload]. *)
Definition cleanup (st : State) : list Action :=
  match upload st with
  | Some id => [TusAbort id]
  | None => []
  end.

(** *** What is rendered *)

(** [View] is the tree the function [App] returns for a state; whether
    React can put it on the page is the matter of [shown] below. *)

Record View : Type := mkView {
  upload_disabled : bool;                        (* [disabled] of "Upload Video" *)
  cancel_button : bool;                          (* "Cancel" is in the tree *)
  file_info : option (string * string * string); (* name, size in MB, type *)
  progress_container : option JS.Number;         (* the bar and its text *)
  status_message : string;
  media_info : option Value }.

Definition mid_progress (st : State) : bool :=
  JS.ltb (JS.of_N 0) (progress st) && JS.ltb (progress st) (JS.of_N 100).

Definition render (st : State) : View :=
  {| upload_disabled :=
       match file st with None => true | Some _ => false end || mid_progress st;
     cancel_button := mid_progress st;
     file_info :=
       match file st with
       | Some f =>
           Some (name f,
                 JS.toFixed2 (JS.div (JS.of_N (size f)) (JS.of_N (1024 * 1024))),
                 type f)
       | None => None
       end;
     progress_container :=
       if JS.ltb (JS.of_N 0) (progress st) then Some (progress st) else None;
     status_message := uploadStatus st;
     media_info := if truthy (mediaId st) then Some (mediaId st) else None |}.

(** *** The component among its surroundings *)

(** The state cells, the [tus.Upload] instances created so far, the
    [fetch] promises issued so far (with whether each is still
    pending), and whether the component is still mounted. *)
Record World : Type := mkWorld {
  cells : State;
  instances : list Upload;
  fetches : list (string * bool);
  mounted : bool }.

Definition start : World :=
  {| cells := initial; instances := []; fetches := []; mounted := true |}.

(** What is on the page: the tree [render] returns, while the component
    is mounted and React can commit that tree.  The one child of the
    tree that is not text or a number of the component's own making is
    [{mediaId}]. *)
Definition shown (w : World) : option View :=
  if mounted w && valid_child (mediaId (cells w)) then Some (render (cells w))
  else None.

Definition set (st : State) (a : Action) : State :=
  match a with
  | SetFile f => mkState (Some f) (progress st) (uploadStatus st) (mediaId st) (upload st)
  | SetProgress p => mkState (file st) p (uploadStatus st) (mediaId st) (upload st)
  | SetUploadStatus s => mkState (file st) (progress st) s (mediaId st) (upload st)
  | SetMediaId v => mkState (file st) (progress st) (uploadStatus st) v (upload st)
  | SetUpload id => mkState (file st) (progress st) (uploadStatus st) (mediaId st) (Some id)
  | _ => st
  end.

(** One action's mark on the world.  A setter of an unmounted component
    changes nothing. *)
Definition perform (w : World) (a : Action) : World :=
  match a with
  | TusNew _ f o => mkWorld (cells w) (instances w ++ [mkUpload f o]) (fetches w) (mounted w)
  | Fetch url => mkWorld (cells w) (instances w) (fetches w ++ [(url, true)]) (mounted w)
  | _ =>
      if mounted w then mkWorld (set (cells w) a) (instances w) (fetches w) (mounted w)
      else w
  end.

Definition perform_all (w : World) (acts : list Action) : World :=
  fold_left perform acts w.

Inductive Event : Type :=
| FileChange (files : option (list File))   (* [onChange] of the file input *)
| UploadClick                               (* [onClick] of "Upload Video" *)
| CancelClick                               (* [onClick] of "Cancel" *)
| OnError (id : nat) (message : string)     (* callbacks of instance [id] *)
| OnProgress (id : nat) (bytesUploaded bytesTotal : N)
| OnSuccess (id : nat)
| Settled (k : nat) (o : Settlement)        (* the [k]-th fetch settles *)
| Unmount.

(** The re-render after [acts] throws when the media id it is to show is
    no valid child.  No error boundary is around [App], so React takes
    the tree down, and the effect's [cleanup] runs as at any unmount. *)
Definition render_error (w : World) (acts : list Action) : list Action :=
  if mounted w && negb (valid_child (mediaId (cells (perform_all w acts))))
  then cleanup (cells w) else [].

(** What the component does on an event.  A callback belongs to an
    instance that exists, a settlement to a promise still pending, and a
    DOM event to a mounted component; [None] otherwise.  After
    [handleUpload] has stored another instance, the re-render runs the
    previous effect's [cleanup]; the media id is new only after a
    settlement, which is where a render can fail. *)
Definition handle (w : World) (e : Event) : option (list Action) :=
  match e with
  | FileChange files =>
      if mounted w then Some (handleFileChange files) else None
  | UploadClick =>
      if mounted w then
        let acts := handleUpload (cells w) (length (instances w)) in
        Some (acts ++
              match file (cells w) with
              | Some _ => cleanup (cells w)
              | None => []
              end)%list
      else None
  | CancelClick =>
      if mounted w then Some (handleCancel (cells w)) else None
  | OnError id message =>
      match instances w !! id with
      | Some _ => Some (onError message)
      | None => None
      end
  | OnProgress id u t =>
      match instances w !! id with
      | Some _ => Some (onProgress u t)
      | None => None
      end
  | OnSuccess id =>
      match instances w !! id with
      | Some u => Some (onSuccess (up_file u))
      | None => None
      end
  | Settled k o =>
      match fetches w !! k with
      | Some (_, true) => Some (onSettled o ++ render_error w (onSettled o))%list
      | _ => None
      end
  | Unmount =>
      if mounted w then Some (cleanup (cells w)) else None
  end.

Definition settle (w : World) (e : Event) : World :=
  match e with
  | Settled k _ =>
      match fetches w !! k with
      | Some (url, _) =>
          mkWorld (cells w) (instances w) (<[k := (url, false)]> (fetches w))
                  (mounted w && valid_child (mediaId (cells w)))
      | None => w
      end
  | Unmount => mkWorld (cells w) (instances w) (fetches w) false
  | _ => w
  end.

Definition step (w : World) (e : Event) : option (World * list Action) :=
  match handle w e with
  | Some acts => Some (settle (perform_all w acts) e, acts)
  | None => None
  end.

(** A run: the world it ends in and everything done on the way. *)
Fixpoint run (w : World) (evs : list Event) : option (World * list Action) :=
  match evs with
  | [] => Some (w, [])
  | e :: rest =>
      match step w e with
      | Some (w', acts) =>
          match run w' rest with
          | Some (w'', acts') => Some (w'', (acts ++ acts')%list)
          | None => None
          end
      | None => None
      end
  end.

(** A click reaches its handler only when the button is in the tree of
    a mounted component and not disabled. *)
Definition offered (w : World) (e : Event) : bool :=
  match e with
  | UploadClick => mounted w && negb (upload_disabled (render (cells w)))
  | CancelClick => mounted w && cancel_button (render (cells w))
  | _ => true
  end.

Fixpoint user_run (w : World) (evs : list Event) : option (World * list Action) :=
  match evs with
  | [] => Some (w, [])
  | e :: rest =>
      if offered w e then
        match step w e with
        | Some (w', acts) =>
            match user_run w' rest with
            | Some (w'', acts') => Some (w'', (acts ++ acts')%list)
            | None => None
            end
        | None => None
        end
      else None
  end.

End Component.

(** ** The proxy server *)

Module Proxy.

(** A request as the server has it.  [url] is [req.originalUrl], a
    request target in origin form: a path and maybe a query, in the
    printable ASCII of a URI.  On such a target Node's
    [url.parse(...).path] and [parseurl(...).pathname], which the
    libraries go through, give back the target and what is before its
    first [?]. *)
Record Request : Type := mkRequest {
  method : string;
  url : string;
  headers : list (string * string);
  body : string }.

(** The two values the listing leaves to be filled in; [placeholders]
    is the listing as it stands. *)
Record Secrets : Type := mkSecrets { ACCOUNT_ID : string; API_TOKEN : string }.

Definition placeholders : Secrets :=
  {| ACCOUNT_ID := "<ACCOUNT_ID>"; API_TOKEN := "<API_TOKEN>" |}.

Inductive Outcome : Type :=
| Answered (status : N)                       (* the response ends here *)
| Forwarded (target : string) (r : Request)   (* sent on to [target] *)
| Unhandled.                                  (* no middleware took it *)

Definition lower (c : ascii) : ascii :=
  let n := N_of_ascii c in
  if ((65 <=? n) && (n <=? 90))%N then ascii_of_N (n + 32) else c.

Fixpoint lowercase (s : string) : string :=
  match s with
  | EmptyString => EmptyString
  | String c rest => String (lower c) (lowercase rest)
  end.

(** What is left of [s] after [pre], when [s] starts with it. *)
Fixpoint strip_prefix (pre s : string) : option string :=
  match pre, s with
  | EmptyString, _ => Some s
  | String a pre', String b s' =>
      if Ascii.eqb a b then strip_prefix pre' s' else None
  | _, _ => None
  end.

Definition same_header (a b : string) : bool :=
  String.eqb (lowercase a) (lowercase b).

(** Header names do not tell upper from lower case; setting one
    replaces what was there under that name. *)
Definition setHeader (k v : string) (hs : list (string * string))
  : list (string * string) :=
  (k, v) :: List.filter (fun h => negb (same_header k (fst h))) hs.

Fixpoint getHeader (k : string) (hs : list (string * string)) : option string :=
  match hs with
  | [] => None
  | (k', v) :: rest => if same_header k k' then Some v else getHeader k rest
  end.

Definition removeHeader (k : string) (hs : list (string * string))
  : list (string * string) :=
  List.filter (fun h => negb (same_header k (fst h))) hs.

Definition pathname (u : string) : string := fst (JS.split_at "?" u).

(** *** What http-proxy does to a request on its way *)

(** The white space of [\s] that one byte can hold. *)
Definition is_space (c : ascii) : bool :=
  existsb (N.eqb (N_of_ascii c)) [9; 10; 11; 12; 13; 32; 160]%N.

Fixpoint trim_left (s : string) : string :=
  match s with
  | String c rest => if is_space c then trim_left rest else s
  | EmptyString => EmptyString
  end.

Fixpoint trim_right (s : string) : string :=
  match s with
  | EmptyString => EmptyString
  | String c rest =>
      match trim_right rest with
      | EmptyString => if is_space c then EmptyString else String c EmptyString
      | kept => String c kept
      end
  end.

(** [s.split(c)] *)
Fixpoint split_all (c : ascii) (s : string) : list string :=
  match s with
  | EmptyString => [EmptyString]
  | String a rest =>
      if Ascii.eqb a c then EmptyString :: split_all c rest
      else match split_all c rest with
           | h :: t => String a h :: t
           | [] => [String a EmptyString]
           end
  end.

(** The pattern [/(^|,)\s*upgrade\s*($|,)/i] of http-proxy: one of the
    comma-separated tokens is [upgrade]. *)
Definition upgradeHeader (v : string) : bool :=
  existsb (fun token => String.eqb (lowercase (trim_left (trim_right token))) "upgrade")
          (split_all "," v).

(** Without an agent the outgoing request closes its connection, unless
    the incoming one asks for an upgrade. *)
Definition setConnection (hs : list (string * string)) : list (string * string) :=
  match getHeader "connection" hs with
  | Some v => if upgradeHeader v then hs else setHeader "connection" "close" hs
  | None => setHeader "connection" "close" hs
  end.

(** The pass [deleteLength]: a [DELETE] or [OPTIONS] without a length
    gets the length 0 and loses its transfer encoding. *)
Definition deleteLength (m : string) (hs : list (string * string))
  : list (string * string) :=
  if (String.eqb m "DELETE" || String.eqb m "OPTIONS")
     && match getHeader "content-length" hs with
        | Some v => String.eqb v ""
        | None => true
        end
  then setHeader "content-length" "0" (removeHeader "transfer-encoding" hs)
  else hs.

(** [s.replace(/\/+/g, '/')] *)
Fixpoint collapse_slashes (s : string) : string :=
  match s with
  | String "/" (String "/" _ as rest) => collapse_slashes rest
  | String c rest => String c (collapse_slashes rest)
  | EmptyString => EmptyString
  end.

(** [s.replace(pat, rep)] for a pattern and a replacement that are
    plain text: the first occurrence goes. *)
Fixpoint replace_first (pat rep s : string) : string :=
  match strip_prefix pat s with
  | Some rest => rep ++ rest
  | None =>
      match s with
      | EmptyString => EmptyString
      | String c rest => String c (replace_first pat rep rest)
      end
  end.

Definition join_paths (a b : string) : string :=
  match a, b with
  | EmptyString, _ => b
  | _, EmptyString => a
  | _, _ => a ++ "/" ++ b
  end.

(** [.replace('http:/', 'http://').replace('https:/', 'https://')] *)
Definition restore_scheme (s : string) : string :=
  replace_first "https:/" "https://" (replace_first "http:/" "http://" s).

(** [common.urlJoin(a, last)] of http-proxy: the paths are joined with a
    [/], runs of slashes become one, the two slashes of a scheme are
    put back, and the query of [last] is carried over as it is. *)
Definition urlJoin (a last : string) : string :=
  let '(path, query) := JS.split_at "?" last in
  restore_scheme (collapse_slashes (join_paths a path))
  ++ match query with
     | Some q => String "?" q
     | None => EmptyString
     end.

(** [GetSubstitution] of [String.prototype.replace] for a match at the
    start of the text and a pattern without groups: [$$] is a dollar,
    [$&] the match, [$'] what follows it, and the backtick form, what
    precedes it, is empty; any other dollar stays. *)
Fixpoint GetSubstitution (matched after replacement : string) : string :=
  match replacement with
  | String "$" (String "$" rest) => String "$" (GetSubstitution matched after rest)
  | String "$" (String "&" rest) => matched ++ GetSubstitution matched after rest
  | String "$" (String "`" rest) => GetSubstitution matched after rest
  | String "$" (String "'" rest) => after ++ GetSubstitution matched after rest
  | String c rest => String c (GetSubstitution matched after rest)
  | EmptyString => EmptyString
  end.

(** [app.use(mount, ...)]: Express hands a request to the middleware
    when its path, case ignored, is [mount] or continues it with a
    [/]. *)
Definition mounted_at (mount path : string) : bool :=
  match strip_prefix mount (lowercase path) with
  | Some EmptyString => true
  | Some (String "/" _) => true
  | _ => false
  end.

Section Server.

Variable secrets : Secrets.

(** The replacement text of the rule, with the account filled in. *)
Definition replacement : string :=
  "/client/v4/accounts/" ++ ACCOUNT_ID secrets ++ "/stream".

(** [pathRewrite]: [path.replace(/^\/api\/upload/, replacement)]. *)
Definition pathRewrite (u : string) : string :=
  match strip_prefix "/api/upload" u with
  | Some rest => GetSubstitution "/api/upload" rest replacement ++ rest
  | None => u
  end.

Definition target : string := "https://api.cloudflare.com".

(** [onProxyReq] *)
Definition onProxyReq (hs : list (string * string)) : list (string * string) :=
  setHeader "Authorization" ("Bearer " ++ API_TOKEN secrets) hs.

(** [onProxyRes]: the upstream response's media-id header, when it has
    one, is set on the response to the client; [up] are the headers of
    [proxyRes] and [down] those of [res]. *)
Definition onProxyRes (up down : list (string * string)) : list (string * string) :=
  match getHeader "stream-media-id" up with
  | Some mediaIdHeader =>
      if String.eqb mediaIdHeader "" then down
      else setHeader "stream-media-id" mediaIdHeader down
  | None => down
  end.

(** The middleware [createProxyMiddleware] returns for these options.
    The path is rewritten; http-proxy then runs [deleteLength], copies
    the headers, sets [Connection], joins the target's path [/] with
    the rewritten one and, for [changeOrigin], sets [Host] to the
    target's; [onProxyReq] comes last, on the outgoing request. *)
Definition tusProxy (req : Request) : Outcome :=
  Forwarded target
    {| method := method req;
       url := urlJoin "/" (pathRewrite (url req));
       headers :=
         onProxyReq
           (setHeader "host" "api.cloudflare.com"
              (setConnection (deleteLength (method req) (headers req))));
       body := body req |}.

(** [cors()] with its defaults answers a preflight itself and lets
    every other request through. *)
Definition cors (req : Request) (next : Request -> Outcome) : Outcome :=
  if String.eqb (method req) "OPTIONS" then Answered 204 else next req.

(** [app.use(cors()); app.use('/api/upload', tusProxy);] *)
Definition app (req : Request) : Outcome :=
  cors req (fun r =>
    if mounted_at "/api/upload" (pathname (url r)) then tusProxy r
    else Unhandled).

End Server.

End Proxy.

(** ** Vocabulary of the properties *)

Fixpoint all_chars (p : ascii -> bool) (s : string) : bool :=
  match s with
  | EmptyString => true
  | String c r => p c && all_chars p r
  end.

Definition is_digit (c : ascii) : bool :=
  let n := N_of_ascii c in ((48 <=? n) && (n <=? 57))%N.

Definition pad2_ok (r : N) : bool :=
  match JS.digits_value (JS.pad2 r) with
  | Some v => (v =? r)%N
  | None => false
  end
  && (String.length (JS.pad2 r) =? 2)%nat
  && all_chars is_digit (JS.pad2 r).

(** A finite number of value at most the integer [K]. *)
Definition below (K : Z) (x : JS.Number) : Prop :=
  exists m e, x = JS.Fin m e /\ e <= 0 /\ Z.of_N m <= K * 2 ^ (- e).

(** A finite number of value at most [2^k]. *)
Definition below_pow2 (k : Z) (x : JS.Number) : Prop :=
  exists m e, x = JS.Fin m e /\ e <= k - 52 /\ Z.of_N m <= 2 ^ (k - e).

(** *** The kernel's binary64, to compare [JS.Number] with *)

Definition to_spec (x : JS.Number) : SpecFloat.spec_float :=
  match x with
  | JS.NaN => SpecFloat.S754_nan
  | JS.Infinity => SpecFloat.S754_infinity false
  | JS.Fin 0 _ => SpecFloat.S754_zero false
  | JS.Fin (Npos m) e => SpecFloat.S754_finite false m e
  end.

Definition spec_eqb (a b : SpecFloat.spec_float) : bool :=
  match a, b with
  | SpecFloat.S754_nan, SpecFloat.S754_nan => true
  | SpecFloat.S754_infinity s1, SpecFloat.S754_infinity s2 => Bool.eqb s1 s2
  | SpecFloat.S754_zero s1, SpecFloat.S754_zero s2 => Bool.eqb s1 s2
  | SpecFloat.S754_finite s1 m1 e1, SpecFloat.S754_finite s2 m2 e2 =>
      Bool.eqb s1 s2 && Pos.eqb m1 m2 && Z.eqb e1 e2
  | _, _ => false
  end.

Definition hardware (n : N) : PrimFloat.float :=
  PrimFloat.of_uint63 (Uint63.of_Z (Z.of_N n)).

(** [(u / t) * 100] computed by the processor and by [JS] agree. *)
Definition agrees (u t : N) : bool :=
  spec_eqb
    (FloatOps.Prim2SF
       (PrimFloat.mul (PrimFloat.div (hardware u) (hardware t)) (hardware 100)))
    (to_spec (JS.mul (JS.div (JS.of_N u) (JS.of_N t)) (JS.of_N 100))).

Definition agreement_grid : list (N * N) :=
  flat_map (fun u => map (fun t => (N.of_nat u, N.of_nat t)) (seq 0 48)) (seq 0 48)
  ++ [(367001600, 734003200); (9007199254740991, 1); (1, 9007199254740991);
      (123456789, 987654321); (4611686018427387903, 7);
      (9007199254740993, 9007199254740995); (1005, 100000)]%N.

(** The phases of an upload as the status line tells them. *)
Inductive Phase : Type := Idle | Uploading | Done | Cancelled | Failed.

Definition starts_with (pre s : string) : bool :=
  match Proxy.strip_prefix pre s with Some _ => true | None => false end.

Definition phase_of_status (s : string) : option Phase :=
  if String.eqb s "File selected" || String.eqb s "Please select a file first"
     || String.eqb s "Starting upload..." then Some Idle
  else if starts_with "Uploading: " s then Some Uploading
  else if String.eqb s "Upload complete! Video is now processing." then Some Done
  else if String.eqb s "Upload cancelled" then Some Cancelled
  else if starts_with "Upload failed: " s then Some Failed
  else None.

(** The phase an event can move the status line to. *)
Definition phase_driven_by (e : Event) : option Phase :=
  match e with
  | FileChange _ | UploadClick => Some Idle
  | OnProgress _ _ _ => Some Uploading
  | OnSuccess _ => Some Done
  | CancelClick => Some Cancelled
  | OnError _ _ => Some Failed
  | Settled _ _ | Unmount => None
  end.

(** The request [fetch(url)] sends when given nothing but the URL. *)
Definition fetch_request (u : string) : Proxy.Request :=
  {| Proxy.method := "GET"; Proxy.url := u; Proxy.headers := []; Proxy.body := "" |}.

(** The requests the component sends itself. *)
Fixpoint own_requests (acts : list Action) : list Proxy.Request :=
  match acts with
  | [] => []
  | Fetch u :: rest => fetch_request u :: own_requests rest
  | _ :: rest => own_requests rest
  end.

(** Where the component directs traffic, and the headers it asks for:
    the endpoint and headers it configures the library with, and the
    requests it sends itself. *)
Fixpoint addressed (acts : list Action) : list (string * list (string * string)) :=
  match acts with
  | [] => []
  | TusNew _ _ o :: rest => (endpoint o, headers o) :: addressed rest
  | Fetch u :: rest => (u, []) :: addressed rest
  | _ :: rest => addressed rest
  end.

(** A tus request carries the protocol's version header. *)
Definition is_tus_request (r : Proxy.Request) : bool :=
  match Proxy.getHeader "Tus-Resumable" (Proxy.headers r) with
  | Some _ => true
  | None => false
  end.

(** Everything the component hands to the network: the file and the
    options it gives tus-js-client, and the requests it sends itself. *)
Inductive Outgoing : Type :=
| ToLibrary (f : File) (o : UploadOptions)
| Sent (r : Proxy.Request).

Fixpoint constructed (acts : list Action) : list Outgoing :=
  match acts with
  | [] => []
  | TusNew _ f o :: rest => ToLibrary f o :: constructed rest
  | Fetch u :: rest => Sent (fetch_request u) :: constructed rest
  | _ :: rest => constructed rest
  end.

(** The two halves of a deployment: what the browser side addresses
    and what it hands to the network over a run of events, and the
    server.  The browser side is [App.tsx], in which no token occurs;
    the token is the server's. *)
Record Deployment : Type := mkDeployment {
  client : list Event -> option (list (string * list (string * string)));
  outgoing : list Event -> option (list Outgoing);
  server : Proxy.Request -> Proxy.Outcome }.

Definition deploy (date : Date) (secrets : Proxy.Secrets) : Deployment :=
  {| client := fun evs => option_map (fun r => addressed (snd r)) (run date start evs);
     outgoing := fun evs => option_map (fun r => constructed (snd r)) (run date start evs);
     server := Proxy.app secrets |}.

(** The instances some actions create. *)
Fixpoint created (acts : list Action) : list Upload :=
  match acts with
  | [] => []
  | TusNew _ f o :: rest => mkUpload f o :: created rest
  | _ :: rest => created rest
  end.

(** An upload was started before anything tells of one: a stored
    instance exists, and so does one when the status has left the idle
    phase. *)
Definition started_first (w : World) : Prop :=
  (upload (cells w) = None \/ instances w <> [])
  /\ (uploadStatus (cells w) = ""
      \/ phase_of_status (uploadStatus (cells w)) = Some Idle
      \/ instances w <> []).

(** Every instance still has the options [handleUpload] gave it. *)
Definition options_kept (date : Date) (w : World) : Prop :=
  Forall (fun u => up_options u = options date (up_file u)) (instances w).

(** The media id a settlement carries, if it carries one. *)
Definition carried_mediaId (o : Settlement) : option Value :=
  match o with
  | Body (Some data) =>
      match get_mediaId data with
      | Some v => if truthy v then Some v else None
      | None => None
      end
  | _ => None
  end.

(** *** Samples *)

(** A date (14 March 2025, 09:30:05) and a file. *)
Definition sample_date : Date :=
  {| getFullYear := 2025; getMonth := 2; getDate := 14;
     getHours := 9; getMinutes := 30; getSeconds := 5 |}.

Definition sample_file : File :=
  {| name := "holiday clip.mp4"; type := "video/mp4"; size := 734003200 |}.

(** A sample session: a file is chosen and uploaded, half of it is
    reported, the upload succeeds and the lookup answers with an id. *)
Definition sample_events : list Event :=
  [FileChange (Some [sample_file]);
   UploadClick;
   OnProgress 0 367001600 734003200;
   OnSuccess 0;
   Settled 0 (Body (Some (VObject [("mediaId", VString "abc123")])))].

(** The world after the first [n] events of the sample session. *)
Definition sample_world (n : nat) : World :=
  match run sample_date start (firstn n sample_events) with
  | Some (w, _) => w
  | None => start
  end.

(** Everything done over the sample session. *)
Definition sample_log : list Action :=
  match run sample_date start sample_events with
  | Some (_, acts) => acts
  | None => []
  end.

Definition sample_status_url : string :=
  "/api/upload/status?filename=2025-3-14_9-30-5%20-%20holiday%20clip.mp4".

Definition sample_request : Proxy.Request :=
  {| Proxy.method := "PATCH";
     Proxy.url := "/api/upload/4f2a?resume=1";
     Proxy.headers := [("host", "localhost:3001"); ("tus-resumable", "1.0.0");
                       ("upload-offset", "0"); ("authorization", "Bearer guess")];
     Proxy.body := "chunk" |}.

(** ** Further vocabulary *)

(** The characters of a request target this development reads: the
    printable ASCII of a URI, without [#], [@] and the backslash, on
    which Node's URL parsing is the identity. *)
Definition target_char (c : ascii) : bool :=
  let n := N_of_ascii c in
  ((33 <=? n) && (n <=? 126) && negb (n =? 92))%N
  && negb (existsb (Ascii.eqb c) ["#"; "@"]%char).

Definition plain_target (u : string) : bool := all_chars target_char u.

(** An account id that is one path segment and no pattern of a
    replacement text: not empty, and without [$ / ? :]. *)
Definition id_char (c : ascii) : bool :=
  target_char c && negb (existsb (Ascii.eqb c) ["$"; "/"; "?"; ":"]%char).

Definition plain_id (s : string) : bool :=
  negb (String.eqb s "") && all_chars id_char s.

Definition is_not (c : ascii) (a : ascii) : bool := negb (Ascii.eqb a c).

(** No two slashes in a row. *)
Fixpoint tidy (s : string) : bool :=
  match s with
  | String "/" (String "/" _) => false
  | String _ rest => tidy rest
  | EmptyString => true
  end.

(** The status lookup for a file. *)
Definition status_lookup (date : Date) (f : File) : Proxy.Request :=
  fetch_request ("/api/upload/status?filename="
                 ++ URI.encodeURIComponent (timestamp date ++ " - " ++ name f)).

(** The lookups that the successes among some events send, [us] being
    the instances. *)
Definition lookups_of (date : Date) (us : list Upload) (evs : list Event)
  : list Proxy.Request :=
  flat_map (fun e =>
              match e with
              | OnSuccess id =>
                  match us !! id with
                  | Some u => [status_lookup date (up_file u)]
                  | None => []
                  end
              | _ => []
              end) evs.

(** The header names http-proxy and [onProxyReq] write. *)
Definition written_header (h : string) : bool :=
  existsb (Proxy.same_header h)
    ["authorization"; "host"; "connection"; "content-length"; "transfer-encoding"].

(** The status lines some actions set, in order. *)
Fixpoint statuses (acts : list Action) : list string :=
  match acts with
  | [] => []
  | SetUploadStatus s :: rest => s :: statuses rest
  | _ :: rest => statuses rest
  end.

(** The calls into tus-js-client among some actions. *)
Definition is_library_call (a : Action) : bool :=
  match a with
  | TusNew _ _ _ | TusStart _ | TusAbort _ => true
  | _ => false
  end.

Definition library_calls (acts : list Action) : list Action :=
  List.filter is_library_call acts.


(** The instance created last. *)
Definition latest (us : list Upload) : option nat :=
  match length us with O => None | S n => Some n end.

(** The [upload] cell holds the instance created last; [abort] has been
    called on every instance created before it and, once the component
    is unmounted, on that one too; and without an instance there is no
    progress. *)
Definition superseded_aborted (w : World) (log : list Action) : Prop :=
  upload (cells w) = latest (instances w)
  /\ (forall id, (S id < length (instances w))%nat -> In (TusAbort id) log)
  /\ (mounted w = false ->
      forall id, (id < length (instances w))%nat -> In (TusAbort id) log)
  /\ (instances w = [] -> progress (cells w) = JS.of_N 0).

(** The percentage text and what the buttons make of the number it
    reads as, for every count of hundredths up to a hundred percent. *)
Definition text_decides_cancel (n : N) : bool :=
  let pct := JS.dec (n / 100) ++ "." ++ JS.pad2 (n mod 100) in
  let shown := JS.round64 (Z.of_N n) 100 in
  Bool.eqb (JS.ltb (JS.of_N 0) shown && JS.ltb shown (JS.of_N 100))
           (negb (String.eqb pct "0.00") && negb (String.eqb pct "100.00")).

(** A second session: an upload is started, another file is chosen and
    uploaded while the first is on its way, and the page is left. *)
Definition second_file : File :=
  {| name := "talk.mov"; type := "video/quicktime"; size := 1048576 |}.

Definition replacing_events : list Event :=
  [FileChange (Some [sample_file]);
   UploadClick;
   OnProgress 0 1 4;
   FileChange (Some [second_file]);
   UploadClick;
   OnProgress 1 1 2;
   Unmount].

(** An upload that fails before any progress is reported. *)
Definition failing_events : list Event :=
  [FileChange (Some [sample_file]); UploadClick; OnError 0 "connection refused"].

(** The sample session goes on: another file is uploaded with success,
    and its lookup gets no answer. *)
Definition stale_events : list Event :=
  (sample_events
   ++ [FileChange (Some [second_file]); UploadClick; OnSuccess 1;
       Settled 1 NetworkError])%list.

(** Where a session ends and what was done over it. *)
Definition outcome (evs : list Event) : World * list Action :=
  match run sample_date start evs with
  | Some r => r
  | None => (start, [])
  end.

(** The characters an encoded URI component is written in. *)
Definition component_char (c : ascii) : bool :=
  URI.unreserved c || Ascii.eqb c "%".

(** The forwarded request of an outcome. *)
Definition forwarded (o : Proxy.Outcome) : option Proxy.Request :=
  match o with
  | Proxy.Forwarded _ r => Some r
  | _ => None
  end.

Definition shouting_request : Proxy.Request :=
  {| Proxy.method := "POST";
     Proxy.url := "/API/Upload/4f2a?resume=1";
     Proxy.headers := [("Authorization", "Bearer guess"); ("Tus-Resumable", "1.0.0")];
     Proxy.body := "" |}.

(** ** The component of the listing *)

(** [VideoUploader] of the listing, as far as the media id goes: it
    gets the id from the [stream-media-id] header of the upload's
    responses instead of a lookup. *)
Module VideoUploader.

(** The cells [handleUpload] and its callbacks read. *)
Record Cells : Type := mkCells { file : option File; mediaId : string }.

Definition initial : Cells := {| file := None; mediaId := "" |}.

Definition options (f : File) : UploadOptions :=
  {| endpoint := "/api/upload";
     retryDelays := [0; 3000; 5000; 10000; 20000]%N;
     chunkSize := (50 * 1024 * 1024)%N;
     metadata := [("filename", name f); ("filetype", type f)];
     headers := [] |}.

(** [onSuccess], a closure of the render [st] whose [handleUpload]
    created the upload. *)
Definition onSuccess (st : Cells) : list Action :=
  [SetUploadStatus "Upload complete!";
   ConsoleLog ["Upload finished"; mediaId st]].

(** [onAfterResponse], given the headers of the response; the promise
    it returns resolves at once. *)
Definition onAfterResponse (res : list (string * string)) : list Action :=
  match Proxy.getHeader "stream-media-id" res with
  | Some mediaIdHeader =>
      if String.eqb mediaIdHeader "" then [] else [SetMediaId (VString mediaIdHeader)]
  | None => []
  end.

Definition handleUpload (st : Cells) (fresh : nat) : list Action :=
  match file st with
  | None => [SetUploadStatus "Please select a file first"]
  | Some f =>
      [SetUploadStatus "Starting upload...";
       TusNew fresh f (options f);
       SetUpload fresh;
       TusStart fresh]
  end.

(** The cells and, for each upload created, the render it was created
    in. *)
Record World : Type := mkWorld { cells : Cells; closures : list Cells }.

Definition start : World := {| cells := initial; closures := [] |}.

Inductive Event : Type :=
| FileChange (f : File)
| UploadClick
| AfterResponse (id : nat) (res : list (string * string))
| OnSuccess (id : nat).

Definition set (st : Cells) (a : Action) : Cells :=
  match a with
  | SetFile f => mkCells (Some f) (mediaId st)
  | SetMediaId (VString v) => mkCells (file st) v
  | _ => st
  end.

Definition step (w : World) (e : Event) : option (World * list Action) :=
  match e with
  | FileChange f =>
      let acts := [SetFile f; SetUploadStatus "File selected"; SetProgress (JS.of_N 0)] in
      Some (mkWorld (fold_left set acts (cells w)) (closures w), acts)
  | UploadClick =>
      let acts := handleUpload (cells w) (length (closures w)) in
      Some (mkWorld (cells w)
                    (match file (cells w) with
                     | Some _ => closures w ++ [cells w]
                     | None => closures w
                     end)%list,
            acts)
  | AfterResponse id res =>
      match closures w !! id with
      | Some _ =>
          let acts := onAfterResponse res in
          Some (mkWorld (fold_left set acts (cells w)) (closures w), acts)
      | None => None
      end
  | OnSuccess id =>
      match closures w !! id with
      | Some st => Some (w, onSuccess st)
      | None => None
      end
  end.

Fixpoint run (w : World) (evs : list Event) : option (World * list Action) :=
  match evs with
  | [] => Some (w, [])
  | e :: rest =>
      match step w e with
      | Some (w', acts) =>
          match run w' rest with
          | Some (w'', acts') => Some (w'', (acts ++ acts')%list)
          | None => None
          end
      | None => None
      end
  end.

End VideoUploader.

(** Until an upload exists the media id is empty, and the first upload
    is created in a render with an empty one. *)
Definition first_closure_empty (w : VideoUploader.World) : Prop :=
  match VideoUploader.closures w with
  | [] => VideoUploader.mediaId (VideoUploader.cells w) = ""
  | st :: _ => VideoUploader.mediaId st = ""
  end.

(** An upload in the listing's component whose responses carry an id. *)
Definition listing_events : list VideoUploader.Event :=
  [VideoUploader.FileChange sample_file;
   VideoUploader.UploadClick;
   VideoUploader.AfterResponse 0 [("Stream-Media-Id", "abc123"); ("Upload-Offset", "0")]].

Definition listing_world : VideoUploader.World :=
  match VideoUploader.run VideoUploader.start listing_events with
  | Some (w, _) => w
  | None => VideoUploader.start
  end.

Definition listing_log : list Action :=
  match VideoUploader.run VideoUploader.start listing_events with
  | Some (_, acts) => acts
  | None => []
  end.

(** The sample session goes on: another file is chosen and its upload
    fails. *)
Definition next_upload_events : list Event :=
  [FileChange (Some [second_file]); UploadClick; OnError 1 "timeout"].

(** Where some events lead from a world, and what is done on the way. *)
Definition outcome_from (w : World) (evs : list Event) : World * list Action :=
  match run sample_date w evs with
  | Some r => r
  | None => (w, [])
  end.

(** * Properties *)

(** ** Rounding to binary64 *)

Lemma rne_le n d K : 0 < d -> n <= K * d -> JS.rne n d <= K.
Proof.
  intros Hd Hn. unfold JS.rne.
  pose proof (Z.div_mod n d ltac:(lia)) as E.
  pose proof (Z.mod_pos_bound n d Hd) as B.
  destruct (2 * (n mod d) <? d) eqn:C1; [nia|].
  apply Z.ltb_ge in C1.
  destruct (d <? 2 * (n mod d)) eqn:C2; [nia|].
  destruct (Z.even (n / d)); nia.
Qed.

Lemma rne_nonneg n d : 0 < d -> 0 <= n -> 0 <= JS.rne n d.
Proof.
  intros Hd Hn. unfold JS.rne.
  pose proof (Z.div_pos n d Hn Hd).
  repeat match goal with |- context [if ?c then _ else _] => destruct c end; lia.
Qed.

Lemma rne_exact n : JS.rne n 1 = n.
Proof.
  unfold JS.rne. rewrite Z.mod_1_r, Z.div_1_r. reflexivity.
Qed.

Lemma ilog2_upper a b k :
  0 < a -> 0 < b -> 0 <= k -> a < 2 ^ k * b -> JS.ilog2 a b < k.
Proof.
  intros Ha Hb Hk H. unfold JS.ilog2, JS.scale.
  pose proof (Z.log2_spec a Ha) as [La _].
  pose proof (Z.log2_spec b Hb) as [_ Lb].
  pose proof (Z.log2_nonneg a) as Na. pose proof (Z.log2_nonneg b) as Nb.
  set (l := Z.log2 a - Z.log2 b) in *.
  assert (Hl : l <= k).
  { destruct (Z.le_gt_cases l k) as [C|C]; [exact C|exfalso].
    assert (E : Z.log2 a = Z.log2 b + 1 + k + (l - k - 1)) by lia.
    rewrite E in La.
    rewrite !Z.pow_add_r in La by lia.
    rewrite Z.pow_succ_r in Lb by lia.
    assert (1 <= 2 ^ (l - k - 1)) by (apply (Z.pow_le_mono_r 2 0); lia).
    assert (0 < 2 ^ k) by (apply Z.pow_pos_nonneg; lia).
    assert (0 < 2 ^ Z.log2 b) by (apply Z.pow_pos_nonneg; lia).
    change (2 ^ 1) with 2 in La.
    assert (b * 2 ^ k < 2 * 2 ^ Z.log2 b * 2 ^ k) by (apply Z.mul_lt_mono_pos_r; lia).
    assert (2 ^ Z.log2 b * 2 * 2 ^ k * 1 <= 2 ^ Z.log2 b * 2 * 2 ^ k * 2 ^ (l - k - 1))
      by (apply Z.mul_le_mono_nonneg_l; lia).
    lia. }
  destruct (0 <=? l) eqn:Cl.
  - destruct (a <? b * 2 ^ l) eqn:C; [lia|].
    apply Z.ltb_ge in C.
    destruct (Z.eq_dec l k) as [->|]; [exfalso; lia|lia].
  - apply Z.leb_gt in Cl. destruct (_ <? b); lia.
Qed.

Lemma pow2_pos k : 0 <= k -> 0 < 2 ^ k.
Proof. intros; apply Z.pow_pos_nonneg; lia. Qed.

(** [round64] below an integer bound that 53 bits hold. *)
Lemma round64_le a b K :
  0 < a -> 0 < b -> a <= K * b -> K < 2 ^ 53 ->
  exists m e, JS.round64 a b = JS.Fin m e /\ e <= 0 /\ Z.of_N m <= K * 2 ^ (- e).
Proof.
  intros Ha Hb H HK.
  assert (Hlog : JS.ilog2 a b < 53) by (apply ilog2_upper; nia).
  unfold JS.round64.
  destruct (a <=? 0) eqn:C0; [apply Z.leb_le in C0; lia|].
  set (e0 := Z.max (JS.ilog2 a b - 52) (-1074)).
  assert (He0 : e0 <= 0) by (unfold e0; lia).
  assert (He0' : -1074 <= e0) by (unfold e0; lia).
  pose proof (pow2_pos (- e0) ltac:(lia)) as P.
  assert (Hs : exists n d, JS.scale a b e0 = (n, d) /\ 0 < d /\ 0 <= n /\ n <= K * 2 ^ (- e0) * d).
  { unfold JS.scale. destruct (0 <=? e0) eqn:C.
    - apply Z.leb_le in C. assert (e0 = 0) as -> by lia. simpl.
      exists a, (b * 1). repeat split; lia.
    - exists (a * 2 ^ (- e0)), b. repeat split; nia. }
  destruct Hs as (n & d & -> & Hd & Hn & Hnd).
  pose proof (rne_le n d _ Hd Hnd) as Hm.
  pose proof (rne_nonneg n d Hd Hn) as Hm0.
  set (m0 := JS.rne n d) in *.
  destruct (m0 =? 2 ^ 53) eqn:C1.
  - apply Z.eqb_eq in C1.
    assert (e0 < 0).
    { destruct (Z.eq_dec e0 0) as [E|]; [|lia]. rewrite E in Hm. simpl in Hm. lia. }
    replace (971 <? e0 + 1) with false by (symmetry; apply Z.ltb_ge; lia).
    exists (Z.to_N (2 ^ 52)), (e0 + 1). split; [reflexivity|]. split; [lia|].
    rewrite Z2N.id by lia.
    replace (- e0) with (1 + - (e0 + 1)) in Hm by lia.
    rewrite Z.pow_add_r in Hm by lia.
    change (2 ^ 53) with (2 * 2 ^ 52) in C1. change (2 ^ 1) with 2 in Hm. lia.
  - destruct (m0 =? 0) eqn:C2.
    + exists 0%N, 0. split; [reflexivity|]. simpl. lia.
    + replace (971 <? e0) with false by (symmetry; apply Z.ltb_ge; lia).
      exists (Z.to_N m0), e0. split; [reflexivity|]. rewrite Z2N.id by lia. lia.
Qed.

(** [round64] below a power of two. *)
Lemma round64_le_pow2 a b k :
  0 < a -> 0 < b -> a <= 2 ^ k * b -> 52 <= k <= 900 ->
  exists m e, JS.round64 a b = JS.Fin m e /\ e <= k - 52 /\ Z.of_N m <= 2 ^ (k - e).
Proof.
  intros Ha Hb H Hk.
  assert (Hlog : JS.ilog2 a b < k + 1).
  { apply ilog2_upper; try lia. rewrite Z.pow_add_r by lia.
    pose proof (pow2_pos k ltac:(lia)). change (2 ^ 1) with 2. nia. }
  unfold JS.round64.
  destruct (a <=? 0) eqn:C0; [apply Z.leb_le in C0; lia|].
  set (e0 := Z.max (JS.ilog2 a b - 52) (-1074)).
  assert (He0 : e0 <= k - 52) by (unfold e0; lia).
  assert (He0' : -1074 <= e0) by (unfold e0; lia).
  assert (Hs : exists n d, JS.scale a b e0 = (n, d) /\ 0 < d /\ 0 <= n /\ n <= 2 ^ (k - e0) * d).
  { unfold JS.scale. destruct (0 <=? e0) eqn:C.
    - apply Z.leb_le in C.
      pose proof (pow2_pos e0 C). pose proof (pow2_pos (k - e0) ltac:(lia)).
      exists a, (b * 2 ^ e0). repeat split; try nia.
      replace k with ((k - e0) + e0) in H at 1 by lia.
      rewrite Z.pow_add_r in H by lia. lia.
    - apply Z.leb_gt in C.
      pose proof (pow2_pos (- e0) ltac:(lia)).
      exists (a * 2 ^ (- e0)), b. repeat split; try nia.
      replace (k - e0) with (k + - e0) by lia.
      rewrite Z.pow_add_r by lia. nia. }
  destruct Hs as (n & d & -> & Hd & Hn & Hnd).
  pose proof (rne_le n d _ Hd Hnd) as Hm.
  pose proof (rne_nonneg n d Hd Hn) as Hm0.
  set (m0 := JS.rne n d) in *.
  destruct (m0 =? 2 ^ 53) eqn:C1.
  - apply Z.eqb_eq in C1.
    assert (53 <= k - e0).
    { destruct (Z.le_gt_cases 53 (k - e0)) as [|C]; [assumption|exfalso].
      assert (2 ^ (k - e0) <= 2 ^ 52) by (apply Z.pow_le_mono_r; lia).
      change (2 ^ 53) with (2 * 2 ^ 52) in C1. lia. }
    replace (971 <? e0 + 1) with false by (symmetry; apply Z.ltb_ge; lia).
    exists (Z.to_N (2 ^ 52)), (e0 + 1). split; [reflexivity|]. split; [lia|].
    rewrite Z2N.id by lia. apply Z.pow_le_mono_r; lia.
  - destruct (m0 =? 0) eqn:C2.
    + exists 0%N, 0. split; [reflexivity|]. split; [lia|].
      change (Z.of_N 0) with 0. apply Z.lt_le_incl, pow2_pos; lia.
    + replace (971 <? e0) with false by (symmetry; apply Z.ltb_ge; lia).
      exists (Z.to_N m0), e0. split; [reflexivity|]. rewrite Z2N.id by lia. lia.
Qed.

(** A safe integer is its own binary64 value. *)
Lemma of_N_exact (n : N) :
  (n < 2 ^ 53)%N ->
  exists m e, JS.of_N n = JS.Fin m e /\ e <= 0 /\ Z.of_N m = Z.of_N n * 2 ^ (- e).
Proof.
  intros Hn. unfold JS.of_N.
  assert (Hz : Z.of_N n < 2 ^ 53) by (change (2 ^ 53) with (Z.of_N (2 ^ 53)); lia).
  set (a := Z.of_N n) in *.
  assert (0 <= a) by (unfold a; lia).
  unfold JS.round64.
  destruct (a <=? 0) eqn:C0.
  { apply Z.leb_le in C0. exists 0%N, 0. split; [reflexivity|]. simpl. lia. }
  apply Z.leb_gt in C0.
  assert (Hlog : JS.ilog2 a 1 < 53) by (apply ilog2_upper; lia).
  set (e0 := Z.max (JS.ilog2 a 1 - 52) (-1074)).
  assert (He0 : e0 <= 0) by (unfold e0; lia).
  assert (He0' : -1074 <= e0) by (unfold e0; lia).
  pose proof (pow2_pos (- e0) ltac:(lia)) as P.
  assert (Hs : exists x, JS.scale a 1 e0 = (x, 1) /\ x = a * 2 ^ (- e0)).
  { unfold JS.scale. destruct (0 <=? e0) eqn:C.
    - apply Z.leb_le in C. assert (e0 = 0) as -> by lia. simpl.
      exists a. split; [reflexivity|lia].
    - eexists; split; reflexivity. }
  destruct Hs as (x & -> & Hx). rewrite rne_exact.
  destruct (x =? 2 ^ 53) eqn:C1.
  - apply Z.eqb_eq in C1.
    assert (e0 < 0).
    { destruct (Z.eq_dec e0 0) as [E|]; [|lia]. rewrite E in Hx. simpl in Hx. lia. }
    replace (971 <? e0 + 1) with false by (symmetry; apply Z.ltb_ge; lia).
    exists (Z.to_N (2 ^ 52)), (e0 + 1). split; [reflexivity|]. split; [lia|].
    rewrite Z2N.id by lia.
    replace (- e0) with (1 + - (e0 + 1)) in Hx by lia.
    rewrite Z.pow_add_r in Hx by lia.
    change (2 ^ 53) with (2 * 2 ^ 52) in C1. change (2 ^ 1) with 2 in Hx. lia.
  - destruct (x =? 0) eqn:C2.
    + apply Z.eqb_eq in C2. nia.
    + replace (971 <? e0) with false by (symmetry; apply Z.ltb_ge; lia).
      exists (Z.to_N x), e0. split; [reflexivity|]. rewrite Z2N.id by nia. lia.
Qed.

Lemma round64_below a b K :
  0 <= a -> 0 < b -> a <= K * b -> 0 <= K < 2 ^ 53 -> below K (JS.round64 a b).
Proof.
  intros Ha Hb H HK.
  destruct (Z.eq_dec a 0) as [->|Hne].
  - exists 0%N, 0. split; [reflexivity|]. simpl. lia.
  - apply round64_le; lia.
Qed.

Lemma scale_ratio m1 m2 e1 e2 u t K :
  e1 <= 0 -> e2 <= 0 -> 0 < t ->
  m1 = u * 2 ^ (- e1) -> m2 = t * 2 ^ (- e2) -> u <= K * t ->
  exists a b, JS.scale m1 m2 (e2 - e1) = (a, b) /\ 0 < b /\ a <= K * b /\ (0 <= u -> 0 <= a).
Proof.
  intros H1 H2 Ht E1 E2 Hu.
  pose proof (pow2_pos (- e1) ltac:(lia)) as P1.
  pose proof (pow2_pos (- e2) ltac:(lia)) as P2.
  unfold JS.scale. destruct (0 <=? e2 - e1) eqn:C.
  - apply Z.leb_le in C.
    pose proof (pow2_pos (e2 - e1) C) as P3.
    exists m1, (m2 * 2 ^ (e2 - e1)). split; [reflexivity|].
    assert (E : 2 ^ (- e1) = 2 ^ (- e2) * 2 ^ (e2 - e1)).
    { rewrite <- Z.pow_add_r by lia. f_equal. lia. }
    subst m1 m2. rewrite E. repeat split; try nia.
  - apply Z.leb_gt in C.
    pose proof (pow2_pos (- (e2 - e1)) ltac:(lia)) as P3.
    exists (m1 * 2 ^ (- (e2 - e1))), m2. split; [reflexivity|].
    assert (E : 2 ^ (- e2) = 2 ^ (- e1) * 2 ^ (- (e2 - e1))).
    { rewrite <- Z.pow_add_r by lia. f_equal. lia. }
    subst m1 m2. rewrite E. repeat split; try nia.
Qed.

Lemma div_below (u t : N) K :
  (u < 2 ^ 53)%N -> (t < 2 ^ 53)%N -> (0 < t)%N ->
  Z.of_N u <= K * Z.of_N t -> 0 <= K < 2 ^ 53 ->
  below K (JS.div (JS.of_N u) (JS.of_N t)).
Proof.
  intros Hu Ht Ht0 H HK.
  destruct (of_N_exact u Hu) as (mu & eu & -> & Heu & Emu).
  destruct (of_N_exact t Ht) as (mt & et & -> & Het & Emt).
  pose proof (pow2_pos (- et) ltac:(lia)) as Pt.
  unfold JS.div.
  destruct (mt =? 0)%N eqn:C; [apply N.eqb_eq in C; subst mt; simpl in Emt; nia|].
  assert (Ht' : 0 < Z.of_N t) by lia.
  destruct (scale_ratio _ _ _ _ _ _ K Heu Het Ht' Emu Emt H)
    as (a & b & -> & Hb & Hab & Ha).
  apply round64_below; lia.
Qed.

Lemma of_N_100 : JS.of_N 100 = JS.Fin 7036874417766400 (-46).
Proof. vm_compute. reflexivity. Qed.

Lemma mul_100_below x K :
  below K x -> 0 <= K -> 100 * K < 2 ^ 53 ->
  below (100 * K) (JS.mul x (JS.of_N 100)).
Proof.
  intros (m & e & -> & He & Hm) HK HK'. rewrite of_N_100. unfold JS.mul.
  pose proof (pow2_pos (- e) ltac:(lia)) as P.
  assert (Hs : JS.scale (Z.of_N m * Z.of_N 7036874417766400) 1 (- (e + -46))
               = (Z.of_N m * 7036874417766400, 1 * 2 ^ (46 - e))).
  { unfold JS.scale. replace (- (e + -46)) with (46 - e) by lia.
    replace (0 <=? 46 - e) with true by (symmetry; apply Z.leb_le; lia).
    reflexivity. }
  rewrite Hs.
  pose proof (pow2_pos (46 - e) ltac:(lia)) as P2.
  apply round64_below; try lia.
  replace (46 - e) with (46 + - e) by lia. rewrite Z.pow_add_r by lia.
  change (2 ^ 46) with 70368744177664. nia.
Qed.

(** ** The model against the processor *)

(** On a grid of byte counts, zero totals and integers past [2^53]
    among them, [JS] computes the very bits the kernel's binary64
    arithmetic does. *)
Example binary64_agreement :
  forallb (fun p => agrees (fst p) (snd p)) agreement_grid = true.
Proof. vm_compute. reflexivity. Qed.

(** [toFixed(2)], [Number::toString] for large values and [Number()] at
    values worked out by hand or taken from a JavaScript console. *)
Example toFixed2_samples :
  map JS.toFixed2
    [JS.mul (JS.div (JS.of_N 1) (JS.of_N 800)) (JS.of_N 100);
     JS.mul (JS.div (JS.of_N 1005) (JS.of_N 100000)) (JS.of_N 100);
     JS.mul (JS.div (JS.of_N 2) (JS.of_N 3)) (JS.of_N 100);
     JS.div (JS.of_N 1) (JS.of_N 0);
     JS.div (JS.of_N 0) (JS.of_N 0);
     JS.of_N (10 ^ 21);
     JS.of_N (10 ^ 23);
     JS.of_N (2 ^ 70);
     JS.of_N (10 ^ 20)]
  = ["0.13"; "1.00"; "66.67"; "Infinity"; "NaN"; "1e+21"; "1e+23";
     "1.1805916207174113e+21"; "100000000000000000000.00"].
Proof. vm_compute. reflexivity. Qed.

Example Number_of_string_samples :
  map JS.Number_of_string ["66.67"; "1e+23"; "Infinity"; "NaN"; ""; "."; "5."; ".5"]
  = [JS.round64 6667 100; JS.of_N (10 ^ 23); JS.Infinity; JS.NaN; JS.Fin 0 0;
     JS.NaN; JS.of_N 5; JS.round64 1 2].
Proof. vm_compute. reflexivity. Qed.

(** ** Decimal text read back *)

Lemma string_of_uint_digits d : all_chars is_digit (NilEmpty.string_of_uint d) = true.
Proof. induction d; simpl; auto. Qed.

Lemma dec_digits n : all_chars is_digit (JS.dec n) = true.
Proof. apply string_of_uint_digits. Qed.

Lemma all_chars_app p a b :
  all_chars p (a ++ b) = all_chars p a && all_chars p b.
Proof. induction a; simpl; [reflexivity|]. rewrite IHa. apply andb_assoc. Qed.

Lemma split_at_absent c s :
  all_chars (fun a => negb (Ascii.eqb a c)) s = true -> JS.split_at c s = (s, None).
Proof.
  induction s as [|a s IH]; simpl; [reflexivity|].
  intros H. apply andb_prop in H as [Ha Hs].
  destruct (Ascii.eqb a c); [discriminate|]. rewrite (IH Hs). reflexivity.
Qed.

Lemma split_at_first c a b :
  all_chars (fun x => negb (Ascii.eqb x c)) a = true ->
  JS.split_at c (a ++ String c b) = (a, Some b).
Proof.
  induction a as [|x a IH]; simpl.
  - intros _. rewrite Ascii.eqb_refl. reflexivity.
  - intros H. apply andb_prop in H as [Hx Ha].
    destruct (Ascii.eqb x c); [discriminate|]. rewrite (IH Ha). reflexivity.
Qed.

Lemma all_chars_impl (p q : ascii -> bool) s :
  (forall c, p c = true -> q c = true) -> all_chars p s = true -> all_chars q s = true.
Proof.
  intros Hpq. induction s as [|a s IH]; simpl; [reflexivity|].
  intros H. apply andb_prop in H as [Ha Hs]. rewrite (Hpq _ Ha), (IH Hs). reflexivity.
Qed.

Lemma digit_not c x : is_digit x = true -> is_digit c = false -> negb (Ascii.eqb x c) = true.
Proof.
  intros Hx Hc. destruct (Ascii.eqb x c) eqn:E; [|reflexivity].
  apply Ascii.eqb_eq in E. congruence.
Qed.

Lemma digits_value_dec n : JS.digits_value (JS.dec n) = Some n.
Proof.
  unfold JS.digits_value, JS.dec. rewrite NilEmpty.usu. simpl.
  rewrite DecimalN.Unsigned.of_to. reflexivity.
Qed.

Lemma pad2_ok_all : forallb pad2_ok (map N.of_nat (seq 0 100)) = true.
Proof. vm_compute. reflexivity. Qed.

Lemma pad2_spec r :
  (r < 100)%N ->
  JS.digits_value (JS.pad2 r) = Some r /\ String.length (JS.pad2 r) = 2%nat
  /\ all_chars is_digit (JS.pad2 r) = true.
Proof.
  intros Hr. pose proof pad2_ok_all as H. rewrite forallb_forall in H.
  specialize (H r). unfold pad2_ok in H.
  assert (Hin : In r (map N.of_nat (seq 0 100))).
  { apply in_map_iff. exists (N.to_nat r). split; [lia|]. apply in_seq. lia. }
  specialize (H Hin). apply andb_prop in H as [H H3]. apply andb_prop in H as [H1 H2].
  destruct (JS.digits_value (JS.pad2 r)) as [v|]; [|discriminate].
  apply N.eqb_eq in H1. apply Nat.eqb_eq in H2. subst. auto.
Qed.

(** Reading back what [toFixed(2)] printed. *)
Lemma Number_of_fixed (q r : N) :
  (r < 100)%N ->
  JS.Number_of_string (JS.dec q ++ "." ++ JS.pad2 r)
  = JS.round64 (Z.of_N (q * 100 + r)) 100.
Proof.
  intros Hr. destruct (pad2_spec r Hr) as (Hv & Hlen & Hd).
  pose proof (dec_digits q) as Hq.
  unfold JS.Number_of_string.
  set (s := JS.dec q ++ "." ++ JS.pad2 r).
  assert (Hne : String.eqb s "" = false).
  { apply String.eqb_neq. unfold s. destruct (JS.dec q); discriminate. }
  assert (Hinf : String.eqb s "Infinity" = false).
  { apply String.eqb_neq. unfold s. intros E.
    destruct (JS.dec q) as [|c rest]; [discriminate|].
    simpl in Hq. apply andb_prop in Hq as [Hc _].
    injection E as E _. subst c. discriminate. }
  rewrite Hne, Hinf.
  assert (He : JS.split_at "e" s = (s, None)).
  { apply split_at_absent. unfold s. rewrite all_chars_app. simpl.
    rewrite (all_chars_impl is_digit _ _ (fun x Hx => digit_not "e" x Hx eq_refl) Hq).
    rewrite (all_chars_impl is_digit _ _ (fun x Hx => digit_not "e" x Hx eq_refl) Hd).
    reflexivity. }
  rewrite He.
  assert (Hdot : JS.split_at "." s = (JS.dec q, Some (JS.pad2 r))).
  { apply split_at_first.
    apply (all_chars_impl is_digit _ _ (fun x Hx => digit_not "." x Hx eq_refl) Hq). }
  rewrite Hdot.
  assert (Hfr : String.eqb (JS.pad2 r) "" = false).
  { apply String.eqb_neq. intros E. rewrite E in Hlen. discriminate. }
  rewrite Hfr, andb_false_r, digits_value_dec, Hv, Hlen.
  simpl. f_equal. lia.
Qed.

(** ** Two decimal places *)

Lemma half_up_even k : (k * 2 + 1) / 2 = k.
Proof.
  rewrite Z.add_comm, Z.div_add by lia. reflexivity.
Qed.

Lemma hundredths_integral m e :
  0 <= e -> JS.hundredths (JS.Fin m e) = 100 * (Z.of_N m * 2 ^ e).
Proof.
  intros He. unfold JS.hundredths, JS.scale.
  destruct (0 <=? - e) eqn:C.
  - apply Z.leb_le in C. assert (e = 0) as -> by lia.
    change (2 * 2 ^ (- 0)) with 2. change (2 / 2) with 1. change (2 ^ 0) with 1.
    replace (200 * Z.of_N m + 1) with ((100 * (Z.of_N m * 1)) * 2 + 1) by lia.
    apply half_up_even.
  - rewrite Z.opp_involutive. change (2 / 2) with 1.
    replace (200 * Z.of_N m * 2 ^ e + 1) with ((100 * (Z.of_N m * 2 ^ e)) * 2 + 1) by lia.
    apply half_up_even.
Qed.

Lemma hundredths_fraction m e :
  e < 0 ->
  JS.hundredths (JS.Fin m e) = (200 * Z.of_N m + 2 ^ (- e)) / (2 * 2 ^ (- e)).
Proof.
  intros He. unfold JS.hundredths, JS.scale.
  replace (0 <=? - e) with true by (symmetry; apply Z.leb_le; lia).
  pose proof (pow2_pos (- e) ltac:(lia)).
  replace ((2 * 2 ^ (- e)) / 2) with (2 ^ (- e)) by (rewrite Z.mul_comm, Z.div_mul; lia).
  reflexivity.
Qed.


Lemma mul_100_below_pow2 x :
  below (2 ^ 53 - 1) x -> below_pow2 60 (JS.mul x (JS.of_N 100)).
Proof.
  intros (m & e & -> & He & Hm). rewrite of_N_100. unfold JS.mul.
  pose proof (pow2_pos (- e) ltac:(lia)) as P.
  assert (Hs : JS.scale (Z.of_N m * Z.of_N 7036874417766400) 1 (- (e + -46))
               = (Z.of_N m * 7036874417766400, 1 * 2 ^ (46 - e))).
  { unfold JS.scale. replace (- (e + -46)) with (46 - e) by lia.
    replace (0 <=? 46 - e) with true by (symmetry; apply Z.leb_le; lia).
    reflexivity. }
  rewrite Hs.
  pose proof (pow2_pos (46 - e) ltac:(lia)) as P2.
  destruct (N.eq_dec m 0%N) as [->|Hne].
  - exists 0%N, 0. split; [reflexivity|]. split; [lia|]. simpl. lia.
  - apply round64_le_pow2; try lia.
    replace (46 - e) with (46 + - e) by lia. rewrite Z.pow_add_r by lia.
    change (2 ^ 46) with 70368744177664. change (2 ^ 60) with 1152921504606846976.
    change (2 ^ 53 - 1) with 9007199254740991 in Hm. nia.
Qed.

Lemma below_1e21 x :
  below_pow2 60 x -> JS.ltb x (JS.round64 (10 ^ 21) 1) = true.
Proof.
  intros (m & e & -> & He & Hm).
  replace (JS.round64 (10 ^ 21) 1) with (JS.Fin 7629394531250000 17)
    by (vm_compute; reflexivity).
  unfold JS.ltb, JS.scale.
  replace (0 <=? 17 - e) with true by (symmetry; apply Z.leb_le; lia).
  apply Z.ltb_lt.
  replace (60 - e) with (43 + (17 - e)) in Hm by lia.
  rewrite Z.pow_add_r in Hm by lia.
  pose proof (pow2_pos (17 - e) ltac:(lia)).
  change (2 ^ 43) with 8796093022208 in Hm.
  change (Z.of_N 7629394531250000) with 7629394531250000. nia.
Qed.

(** ** Comparing numbers *)

(** A finite number times a power of two large enough to clear its
    exponent. *)
Lemma value_scaled m e K q :
  JS.value (JS.Fin m e) = Some q -> 0 <= K -> 0 <= e + K ->
  (q * inject_Z (2 ^ K) == inject_Z (Z.of_N m * 2 ^ (e + K)))%Q.
Proof.
  unfold JS.value. intros E HK HeK. injection E as <-.
  pose proof (pow2_pos K HK) as PK.
  destruct (0 <=? e) eqn:C.
  - apply Z.leb_le in C. rewrite Z.pow_add_r by lia.
    unfold Qeq, Qmult, inject_Z. simpl. lia.
  - apply Z.leb_gt in C. pose proof (pow2_pos (- e) ltac:(lia)) as Pe.
    replace K with ((e + K) + - e) at 1 by lia. rewrite Z.pow_add_r by lia.
    unfold Qeq, Qmult, inject_Z. simpl. rewrite Pos.mul_1_r, Z2Pos.id by lia. lia.
Qed.

Lemma ltb_scaled m1 e1 m2 e2 K :
  0 <= e1 + K -> 0 <= e2 + K ->
  JS.ltb (JS.Fin m1 e1) (JS.Fin m2 e2) = true
  <-> Z.of_N m1 * 2 ^ (e1 + K) < Z.of_N m2 * 2 ^ (e2 + K).
Proof.
  intros H1 H2. unfold JS.ltb, JS.scale.
  pose proof (pow2_pos (e1 + K) H1) as P1.
  pose proof (pow2_pos (e2 + K) H2) as P2.
  destruct (0 <=? e2 - e1) eqn:C.
  - apply Z.leb_le in C. rewrite Z.ltb_lt.
    replace (e2 + K) with ((e2 - e1) + (e1 + K)) by lia.
    rewrite (Z.pow_add_r 2 (e2 - e1) (e1 + K)) by lia.
    rewrite (Z.mul_lt_mono_pos_r (2 ^ (e1 + K))) by exact P1.
    split; intros; lia.
  - apply Z.leb_gt in C. rewrite Z.ltb_lt.
    replace (e1 + K) with (- (e2 - e1) + (e2 + K)) by lia.
    rewrite (Z.pow_add_r 2 (- (e2 - e1)) (e2 + K)) by lia.
    rewrite (Z.mul_lt_mono_pos_r (2 ^ (e2 + K))) by exact P2.
    split; intros; lia.
Qed.

(** [JS.ltb] is the order of the values. *)
Lemma ltb_value x y p q :
  JS.value x = Some p -> JS.value y = Some q ->
  JS.ltb x y = true <-> (p < q)%Q.
Proof.
  destruct x as [| |m1 e1]; try discriminate.
  destruct y as [| |m2 e2]; try discriminate.
  intros Hp Hq.
  set (K := Z.max 0 (Z.max (- e1) (- e2))).
  assert (HK : 0 <= K) by (unfold K; lia).
  assert (H1 : 0 <= e1 + K) by (unfold K; lia).
  assert (H2 : 0 <= e2 + K) by (unfold K; lia).
  pose proof (value_scaled _ _ K _ Hp HK H1) as Ep.
  pose proof (value_scaled _ _ K _ Hq HK H2) as Eq.
  rewrite (ltb_scaled _ _ _ _ K H1 H2).
  pose proof (pow2_pos K HK) as PK.
  assert (Pq : (0 < inject_Z (2 ^ K))%Q) by (unfold Qlt, inject_Z; simpl; lia).
  rewrite Zlt_Qlt, <- Ep, <- Eq.
  split; intros H.
  - apply (Qmult_lt_r _ _ _ Pq). exact H.
  - apply (Qmult_lt_r _ _ _ Pq). exact H.
Qed.

Lemma value_of_0 : JS.value (JS.of_N 0) = Some 0%Q.
Proof. reflexivity. Qed.

Lemma value_of_100 :
  exists q, JS.value (JS.of_N 100) = Some q /\ (q == 100)%Q.
Proof. eexists. split; [vm_compute; reflexivity|reflexivity]. Qed.

(** The two comparisons of the render read on values. *)
Lemma mid_progress_value st p :
  JS.value (progress st) = Some p ->
  mid_progress st = true <-> (0 < p /\ p < 100)%Q.
Proof.
  intros Hp. unfold mid_progress. rewrite andb_true_iff.
  destruct value_of_100 as (q & Hq & Eq).
  rewrite (ltb_value _ _ _ _ value_of_0 Hp), (ltb_value _ _ _ _ Hp Hq), Eq.
  reflexivity.
Qed.

(** ** Percent-encoding *)

Lemma decode_plain c rest :
  c <> "%"%char ->
  URI.percent_decode (String c rest) = option_map (String c) (URI.percent_decode rest).
Proof.
  intros H.
  destruct c as [[] [] [] [] [] [] [] []]; try reflexivity.
  exfalso. apply H. reflexivity.
Qed.

Lemma decode_escape h l rest :
  URI.percent_decode (String "%" (String h (String l rest)))
  = match URI.hexval h, URI.hexval l, URI.percent_decode rest with
    | Some a, Some b, Some r => Some (String (ascii_of_N (16 * a + b)) r)
    | _, _, _ => None
    end.
Proof. reflexivity. Qed.

Lemma hexval_hexdigit d : (d < 16)%N -> URI.hexval (URI.hexdigit d) = Some d.
Proof.
  intros H.
  assert (In d (map N.of_nat (seq 0 16))) as Hin.
  { apply in_map_iff. exists (N.to_nat d). split; [lia|]. apply in_seq. lia. }
  simpl in Hin.
  repeat (destruct Hin as [<-|Hin]; [vm_compute; reflexivity|]). destruct Hin.
Qed.

Lemma decode_encode (s : string) :
  URI.percent_decode (URI.encodeURIComponent s) = Some s.
Proof.
  induction s as [|c s IH]; [reflexivity|].
  cbn [URI.encodeURIComponent].
  destruct (URI.unreserved c) eqn:U.
  - rewrite decode_plain, IH; [reflexivity|].
    intros ->. discriminate U.
  - unfold URI.escape. cbn [append]. rewrite decode_escape, IH.
    pose proof (N_ascii_bounded c) as B.
    rewrite !hexval_hexdigit.
    + rewrite <- N.div_mod by lia. rewrite ascii_N_embedding. reflexivity.
    + apply N.mod_lt. lia.
    + apply N.Div0.div_lt_upper_bound. lia.
Qed.

(** ** The percentage of [onProgress] *)

Lemma hundredths_nonneg x : 0 <= JS.hundredths x.
Proof.
  destruct x as [| |m e]; [simpl; lia|simpl; lia|].
  destruct (Z.le_gt_cases 0 e) as [C|C].
  - rewrite hundredths_integral by lia. pose proof (pow2_pos e C). nia.
  - rewrite hundredths_fraction by lia.
    pose proof (pow2_pos (- e) ltac:(lia)).
    apply Z.div_pos; lia.
Qed.

Lemma hundredths_below x K :
  0 <= K -> below K x -> JS.hundredths x <= 100 * K.
Proof.
  intros HK (m & e & -> & He & Hm).
  destruct (Z.eq_dec e 0) as [->|Hne].
  - rewrite hundredths_integral by lia. simpl in Hm. change (2 ^ 0) with 1. lia.
  - rewrite hundredths_fraction by lia.
    pose proof (pow2_pos (- e) ltac:(lia)) as P.
    apply Z.lt_succ_r. apply Z.div_lt_upper_bound; nia.
Qed.


Lemma toFixed2_fixed x :
  below_pow2 60 x ->
  JS.toFixed2 x
  = JS.dec (Z.to_N (JS.hundredths x) / 100) ++ "."
    ++ JS.pad2 (Z.to_N (JS.hundredths x) mod 100).
Proof.
  intros H. pose proof (below_1e21 x H) as L.
  destruct H as (m & e & -> & _). unfold JS.toFixed2. rewrite L. reflexivity.
Qed.

Lemma below_weaken x K : below K x -> K <= 2 ^ 53 - 1 -> below (2 ^ 53 - 1) x.
Proof.
  intros (m & e & -> & He & Hm) HK. exists m, e. split; [reflexivity|]. split; [lia|].
  pose proof (pow2_pos (- e) ltac:(lia)). nia.
Qed.

(** Splits a membership in a literal list into its cases and drops the
    impossible ones. *)
Ltac in_cases H :=
  simpl in H;
  repeat match type of H with _ \/ _ => destruct H as [H|H] end;
  try contradiction; try discriminate H.


(** ** Headers, paths and logs *)

Lemma same_header_sym a b : Proxy.same_header a b = Proxy.same_header b a.
Proof. apply String.eqb_sym. Qed.

Lemma same_header_trans a b c :
  Proxy.same_header a b = true -> Proxy.same_header b c = true ->
  Proxy.same_header a c = true.
Proof.
  unfold Proxy.same_header. rewrite !String.eqb_eq. congruence.
Qed.

Lemma getHeader_setHeader k v hs :
  Proxy.getHeader k (Proxy.setHeader k v hs) = Some v.
Proof.
  unfold Proxy.setHeader. simpl. unfold Proxy.same_header.
  rewrite String.eqb_refl. reflexivity.
Qed.

Lemma getHeader_setHeader_other h k v hs :
  Proxy.same_header h k = false ->
  Proxy.getHeader h (Proxy.setHeader k v hs) = Proxy.getHeader h hs.
Proof.
  intros Hk. unfold Proxy.setHeader. simpl. rewrite Hk.
  induction hs as [|[k' v'] hs IH]; [reflexivity|]. simpl.
  destruct (Proxy.same_header k k') eqn:E; simpl.
  - destruct (Proxy.same_header h k') eqn:E'; [|exact IH].
    rewrite same_header_sym in E.
    rewrite (same_header_trans _ _ _ E' E) in Hk. discriminate.
  - rewrite IH. reflexivity.
Qed.

Lemma split_at_join c s :
  s = fst (JS.split_at c s)
      ++ match snd (JS.split_at c s) with Some r => String c r | None => "" end.
Proof.
  induction s as [|a s IH]; [reflexivity|]. simpl.
  destruct (Ascii.eqb a c) eqn:E.
  - apply Ascii.eqb_eq in E. subst. reflexivity.
  - destruct (JS.split_at c s) as [l r]. simpl in *. rewrite <- IH. reflexivity.
Qed.

Lemma strip_prefix_app pre a q x :
  Proxy.strip_prefix pre a = Some x -> Proxy.strip_prefix pre (a ++ q) = Some (x ++ q).
Proof.
  revert a. induction pre as [|c pre IH]; intros a; simpl.
  - intros E. injection E as <-. reflexivity.
  - destruct a as [|b a]; [discriminate|]. simpl.
    destruct (Ascii.eqb c b); [apply IH|discriminate].
Qed.

Lemma strip_prefix_self pre x : Proxy.strip_prefix pre (pre ++ x) = Some x.
Proof.
  induction pre as [|c pre IH]; simpl; [reflexivity|].
  rewrite Ascii.eqb_refl. exact IH.
Qed.

Lemma strip_prefix_sound pre s x :
  Proxy.strip_prefix pre s = Some x -> s = pre ++ x.
Proof.
  revert s. induction pre as [|c pre IH]; intros s; simpl.
  - intros E. injection E as <-. reflexivity.
  - destruct s as [|b s]; [discriminate|].
    destruct (Ascii.eqb c b) eqn:E; [|discriminate].
    apply Ascii.eqb_eq in E. subst. intros H. rewrite (IH _ H). reflexivity.
Qed.

Lemma addressed_in x acts :
  In x (addressed acts) -> exists a, In a acts /\ addressed [a] = [x].
Proof.
  induction acts as [|a acts IH]; [intros []|].
  destruct a; simpl; intros H;
    try (destruct (IH H) as (a' & Ha & E); exists a'; split; [right; exact Ha|exact E]).
  - destruct H as [<-|H]; [eexists; split; [left; reflexivity|reflexivity]|].
    destruct (IH H) as (a' & Ha & E); exists a'; split; [right; exact Ha|exact E].
  - destruct H as [<-|H]; [eexists; split; [left; reflexivity|reflexivity]|].
    destruct (IH H) as (a' & Ha & E); exists a'; split; [right; exact Ha|exact E].
Qed.

Lemma own_requests_in r acts :
  In r (own_requests acts) -> exists u, In (Fetch u) acts /\ r = fetch_request u.
Proof.
  induction acts as [|a acts IH]; [intros []|].
  destruct a; simpl; intros H;
    try (destruct (IH H) as (u & Hu & E); exists u; split; [right; exact Hu|exact E]).
  destruct H as [<-|H]; [eexists; split; [left; reflexivity|reflexivity]|].
  destruct (IH H) as (u & Hu & E); exists u; split; [right; exact Hu|exact E].
Qed.


(** ** Paths and replacement texts *)

Lemma append_assoc (a b c : string) : (a ++ b) ++ c = a ++ (b ++ c).
Proof. induction a as [|x a IH]; simpl; [reflexivity|]. rewrite IH. reflexivity. Qed.

Lemma append_nil_r (a : string) : a ++ "" = a.
Proof. induction a as [|x a IH]; simpl; [reflexivity|]. rewrite IH. reflexivity. Qed.

Lemma is_not_neq c a : is_not c a = true -> a <> c.
Proof. unfold is_not. intros H ->. rewrite Ascii.eqb_refl in H. discriminate. Qed.

Lemma collapse_other c r :
  c <> "/"%char ->
  Proxy.collapse_slashes (String c r) = String c (Proxy.collapse_slashes r).
Proof.
  intros H. destruct c as [[] [] [] [] [] [] [] []]; try reflexivity.
  exfalso. apply H. reflexivity.
Qed.

Lemma collapse_slash_other c r :
  c <> "/"%char ->
  Proxy.collapse_slashes (String "/" (String c r))
  = String "/" (Proxy.collapse_slashes (String c r)).
Proof.
  intros H. destruct c as [[] [] [] [] [] [] [] []]; try reflexivity.
  exfalso. apply H. reflexivity.
Qed.

Lemma collapse_segment s t :
  all_chars (is_not "/") s = true ->
  Proxy.collapse_slashes (s ++ t) = s ++ Proxy.collapse_slashes t.
Proof.
  induction s as [|c s IH]; [reflexivity|]. cbn [all_chars append].
  intros H. apply andb_true_iff in H as [Hc Hs].
  rewrite collapse_other by (apply is_not_neq; exact Hc). rewrite IH by exact Hs.
  reflexivity.
Qed.

Lemma collapse_cases c r :
  Proxy.collapse_slashes (String c r) = Proxy.collapse_slashes r
  \/ Proxy.collapse_slashes (String c r) = String c (Proxy.collapse_slashes r).
Proof.
  destruct (Ascii.eqb c "/") eqn:E.
  - apply Ascii.eqb_eq in E. subst c. destruct r as [|d r]; [right; reflexivity|].
    destruct (Ascii.eqb d "/") eqn:D.
    + apply Ascii.eqb_eq in D. subst d. left. reflexivity.
    + right. apply collapse_slash_other. intros ->. discriminate D.
  - right. apply collapse_other. intros ->. discriminate E.
Qed.

Lemma all_chars_collapse p s :
  all_chars p s = true -> all_chars p (Proxy.collapse_slashes s) = true.
Proof.
  induction s as [|c s IH]; [reflexivity|]. cbn [all_chars].
  intros H. apply andb_true_iff in H as [Hc Hs].
  destruct (collapse_cases c s) as [-> | ->]; [auto|].
  cbn [all_chars]. rewrite Hc. auto.
Qed.

Lemma collapse_tidy s : tidy s = true -> Proxy.collapse_slashes s = s.
Proof.
  induction s as [|c s IH]; [reflexivity|].
  destruct (Ascii.eqb c "/") eqn:E.
  - apply Ascii.eqb_eq in E. subst c. destruct s as [|d s]; [reflexivity|].
    destruct (Ascii.eqb d "/") eqn:D.
    + apply Ascii.eqb_eq in D. subst d. discriminate.
    + assert (Hd : d <> "/"%char) by (intros ->; discriminate D).
      intros H. rewrite collapse_slash_other by exact Hd. f_equal. apply IH.
      destruct d as [[] [] [] [] [] [] [] []]; try exact H.
      exfalso. apply Hd. reflexivity.
  - assert (Hc : c <> "/"%char) by (intros ->; discriminate E).
    intros H. rewrite collapse_other by exact Hc. f_equal. apply IH.
    destruct c as [[] [] [] [] [] [] [] []]; try exact H.
    exfalso. apply Hc. reflexivity.
Qed.

Lemma strip_prefix_chars p pat : forall s r,
  Proxy.strip_prefix pat s = Some r -> all_chars p s = true -> all_chars p pat = true.
Proof.
  induction pat as [|a pat IH]; intros s r; [reflexivity|]. simpl.
  destruct s as [|b s]; [discriminate|].
  destruct (Ascii.eqb a b) eqn:E; [|discriminate].
  apply Ascii.eqb_eq in E. subst b. cbn [all_chars].
  intros H Hs. apply andb_true_iff in Hs as [Ha Hs]. rewrite Ha. eapply IH; eassumption.
Qed.

Lemma replace_first_absent p pat rep s :
  all_chars p pat = false -> all_chars p s = true ->
  Proxy.replace_first pat rep s = s.
Proof.
  intros Hp. induction s as [|c s IH]; intros Hs.
  - simpl. destruct (Proxy.strip_prefix pat "") eqn:E; [|reflexivity].
    rewrite (strip_prefix_chars p _ _ _ E Hs) in Hp. discriminate.
  - cbn [Proxy.replace_first].
    destruct (Proxy.strip_prefix pat (String c s)) eqn:E.
    + rewrite (strip_prefix_chars p _ _ _ E Hs) in Hp. discriminate.
    + cbn [all_chars] in Hs. apply andb_true_iff in Hs as [_ Hs].
      rewrite IH by exact Hs. reflexivity.
Qed.

Lemma restore_scheme_absent s :
  all_chars (is_not ":") s = true -> Proxy.restore_scheme s = s.
Proof.
  intros H. unfold Proxy.restore_scheme.
  rewrite (replace_first_absent (is_not ":") "http:/" _ s eq_refl H).
  apply (replace_first_absent (is_not ":") "https:/" _ s eq_refl H).
Qed.

Lemma GetSubstitution_plain m a s :
  all_chars (is_not "$") s = true -> Proxy.GetSubstitution m a s = s.
Proof.
  induction s as [|c s IH]; [reflexivity|]. cbn [all_chars].
  intros H. apply andb_true_iff in H as [Hc Hs]. apply is_not_neq in Hc.
  transitivity (String c (Proxy.GetSubstitution m a s)); [|rewrite IH by exact Hs; reflexivity].
  destruct c as [[] [] [] [] [] [] [] []]; try reflexivity.
  exfalso. apply Hc. reflexivity.
Qed.

Lemma split_at_app_absent c a s :
  all_chars (is_not c) a = true ->
  JS.split_at c (a ++ s) = (a ++ fst (JS.split_at c s), snd (JS.split_at c s)).
Proof.
  induction a as [|x a IH]; simpl.
  - intros _. destruct (JS.split_at c s); reflexivity.
  - intros H. apply andb_true_iff in H as [Hx Ha]. unfold is_not in Hx.
    destruct (Ascii.eqb x c); [discriminate|]. rewrite (IH Ha). reflexivity.
Qed.

Lemma split_at_fst_absent c s : all_chars (is_not c) (fst (JS.split_at c s)) = true.
Proof.
  induction s as [|a s IH]; [reflexivity|]. simpl.
  destruct (Ascii.eqb a c) eqn:E; [reflexivity|].
  destruct (JS.split_at c s) as [l r]. simpl in *.
  unfold is_not at 1. rewrite E, IH. reflexivity.
Qed.

Lemma id_char_is_not c x :
  In x ["$"; "/"; "?"; ":"]%char -> id_char c = true -> is_not x c = true.
Proof.
  unfold id_char, is_not. intros Hx H. apply andb_true_iff in H as [_ H].
  apply negb_true_iff in H. simpl in H.
  repeat (apply orb_false_iff in H as [? H]).
  simpl in Hx. repeat (destruct Hx as [<-|Hx]; [apply negb_true_iff; assumption|]).
  destruct Hx.
Qed.

Lemma plain_id_is_not s x :
  In x ["$"; "/"; "?"; ":"]%char -> plain_id s = true -> all_chars (is_not x) s = true.
Proof.
  intros Hx H. unfold plain_id in H. apply andb_true_iff in H as [_ H].
  apply (all_chars_impl id_char); [intros c; apply id_char_is_not; exact Hx|exact H].
Qed.

Lemma plain_id_cons s :
  plain_id s = true -> exists c r, s = String c r /\ c <> "/"%char.
Proof.
  intros H. pose proof (plain_id_is_not s "/" ltac:(simpl; auto) H) as N.
  unfold plain_id in H. apply andb_true_iff in H as [H _].
  destruct s as [|c r]; [discriminate|]. exists c, r. split; [reflexivity|].
  cbn [all_chars] in N. apply andb_true_iff in N as [N _]. apply is_not_neq. exact N.
Qed.

Lemma collapse_joined (s x : string) :
  s <> "" -> all_chars (is_not "/") s = true ->
  x = "" \/ (exists y, x = String "/" y) ->
  Proxy.collapse_slashes
    (Proxy.join_paths "/" ("/client/v4/accounts/" ++ s ++ "/stream" ++ x))
  = "/client/v4/accounts/" ++ s ++ "/stream" ++ Proxy.collapse_slashes x.
Proof.
  intros Hne Hs Hx. destruct s as [|c r]; [contradiction|].
  cbn [all_chars] in Hs. apply andb_true_iff in Hs as [Hc Hr]. apply is_not_neq in Hc.
  change (Proxy.collapse_slashes
            (Proxy.join_paths "/" ("/client/v4/accounts/" ++ String c r ++ "/stream" ++ x)))
    with ("/client/v4/accounts"
          ++ Proxy.collapse_slashes (String "/" (String c (r ++ "/stream" ++ x)))).
  rewrite collapse_slash_other by exact Hc. rewrite collapse_other by exact Hc.
  rewrite collapse_segment by exact Hr.
  destruct Hx as [->|(y & ->)]; reflexivity.
Qed.

Section Paths.

Variable secrets : Proxy.Secrets.

Lemma pathRewrite_plain rest :
  plain_id (Proxy.ACCOUNT_ID secrets) = true ->
  Proxy.pathRewrite secrets ("/api/upload" ++ rest)
  = "/client/v4/accounts/" ++ Proxy.ACCOUNT_ID secrets ++ "/stream" ++ rest.
Proof.
  intros H. unfold Proxy.pathRewrite.
  rewrite (strip_prefix_self "/api/upload"). unfold Proxy.replacement.
  rewrite GetSubstitution_plain.
  - rewrite !append_assoc. reflexivity.
  - rewrite !all_chars_app. rewrite (plain_id_is_not _ "$" ltac:(simpl; auto) H).
    reflexivity.
Qed.

(** The path http-proxy asks the target for, when the rule applied. *)
Lemma joined_rewritten x query :
  plain_id (Proxy.ACCOUNT_ID secrets) = true ->
  all_chars (is_not "?") x = true ->
  x = "" \/ (exists y, x = String "/" y) ->
  query = "" \/ (exists q, query = String "?" q) ->
  Proxy.urlJoin "/" ("/client/v4/accounts/" ++ Proxy.ACCOUNT_ID secrets ++ "/stream"
                     ++ x ++ query)
  = Proxy.restore_scheme ("/client/v4/accounts/" ++ Proxy.ACCOUNT_ID secrets
                          ++ "/stream" ++ Proxy.collapse_slashes x)
    ++ query.
Proof.
  intros Hid Hx Hx' Hq.
  set (id := Proxy.ACCOUNT_ID secrets) in *.
  assert (S : JS.split_at "?" ("/client/v4/accounts/" ++ id ++ "/stream" ++ x ++ query)
              = ("/client/v4/accounts/" ++ id ++ "/stream" ++ x,
                 match query with String _ q => Some q | EmptyString => None end)).
  { replace ("/client/v4/accounts/" ++ id ++ "/stream" ++ x ++ query)
      with (("/client/v4/accounts/" ++ id ++ "/stream" ++ x) ++ query)
      by (rewrite !append_assoc; reflexivity).
    rewrite split_at_app_absent.
    - destruct Hq as [->|(q & ->)]; simpl; rewrite !append_nil_r; reflexivity.
    - rewrite !all_chars_app. rewrite (plain_id_is_not _ "?" ltac:(simpl; auto) Hid), Hx.
      reflexivity. }
  unfold Proxy.urlJoin. rewrite S. f_equal.
  - f_equal. apply collapse_joined; [|apply (plain_id_is_not _ "/"); simpl; auto|exact Hx'].
    destruct (plain_id_cons _ Hid) as (c & r & E & _). rewrite E. discriminate.
  - destruct Hq as [->|(q & ->)]; reflexivity.
Qed.

Lemma joined_rewritten_clean x query :
  plain_id (Proxy.ACCOUNT_ID secrets) = true ->
  all_chars (is_not "?") x = true ->
  x = "" \/ (exists y, x = String "/" y) ->
  query = "" \/ (exists q, query = String "?" q) ->
  all_chars (is_not ":") x = true ->
  Proxy.urlJoin "/" ("/client/v4/accounts/" ++ Proxy.ACCOUNT_ID secrets ++ "/stream"
                     ++ x ++ query)
  = "/client/v4/accounts/" ++ Proxy.ACCOUNT_ID secrets ++ "/stream"
    ++ Proxy.collapse_slashes x ++ query.
Proof.
  intros Hid Hx Hx' Hq Hc. rewrite (joined_rewritten _ _ Hid Hx Hx' Hq).
  rewrite restore_scheme_absent.
  - rewrite !append_assoc. reflexivity.
  - rewrite !all_chars_app. rewrite (plain_id_is_not _ ":" ltac:(simpl; auto) Hid).
    rewrite (all_chars_collapse _ _ Hc). reflexivity.
Qed.

(** The path http-proxy asks for when the rule did not apply: the
    request's own, with its runs of slashes collapsed. *)
Lemma joined_kept u :
  (exists c r, u = String "/" (String c r) /\ c <> "/"%char /\ c <> "?"%char) ->
  Proxy.urlJoin "/" u
  = Proxy.restore_scheme (Proxy.collapse_slashes (Proxy.pathname u))
    ++ match snd (JS.split_at "?" u) with
       | Some q => String "?" q
       | None => ""
       end.
Proof.
  intros (c & r & -> & Hc & Hq). unfold Proxy.urlJoin, Proxy.pathname.
  assert (E : Ascii.eqb c "?" = false)
    by (destruct (Ascii.eqb c "?") eqn:E; [apply Ascii.eqb_eq in E; contradiction|reflexivity]).
  cbn [JS.split_at]. change (Ascii.eqb "/" "?") with false. cbv iota. rewrite E.
  destruct (JS.split_at "?" r) as [l q]. cbn [fst snd].
  change (Proxy.collapse_slashes (Proxy.join_paths "/" (String "/" (String c l))))
    with (Proxy.collapse_slashes (String "/" (String c l))).
  reflexivity.
Qed.

End Paths.

(** ** Headers on their way through the proxy *)

Lemma In_setHeader k v hs k' v' :
  In (k', v') (Proxy.setHeader k v hs) ->
  (k' = k /\ v' = v) \/ (Proxy.same_header k k' = false /\ In (k', v') hs).
Proof.
  unfold Proxy.setHeader. intros [E|H].
  - injection E as <- <-. auto.
  - apply filter_In in H as [H1 H2]. simpl in H2.
    right. split; [|exact H1]. destruct (Proxy.same_header k k'); [discriminate|reflexivity].
Qed.

Lemma getHeader_removeHeader_other h k hs :
  Proxy.same_header h k = false ->
  Proxy.getHeader h (Proxy.removeHeader k hs) = Proxy.getHeader h hs.
Proof.
  intros Hk. unfold Proxy.removeHeader.
  induction hs as [|[k' v'] hs IH]; [reflexivity|]. simpl.
  destruct (Proxy.same_header k k') eqn:E; simpl.
  - destruct (Proxy.same_header h k') eqn:E'; [|exact IH].
    rewrite same_header_sym in E.
    rewrite (same_header_trans _ _ _ E' E) in Hk. discriminate.
  - rewrite IH. reflexivity.
Qed.

Lemma getHeader_setConnection_other h hs :
  Proxy.same_header h "connection" = false ->
  Proxy.getHeader h (Proxy.setConnection hs) = Proxy.getHeader h hs.
Proof.
  intros H. unfold Proxy.setConnection.
  destruct (Proxy.getHeader "connection" hs) as [v|];
    [destruct (Proxy.upgradeHeader v); [reflexivity|]|];
    apply getHeader_setHeader_other; exact H.
Qed.

Lemma getHeader_deleteLength_other h m hs :
  Proxy.same_header h "content-length" = false ->
  Proxy.same_header h "transfer-encoding" = false ->
  Proxy.getHeader h (Proxy.deleteLength m hs) = Proxy.getHeader h hs.
Proof.
  intros H1 H2. unfold Proxy.deleteLength. destruct (_ && _); [|reflexivity].
  rewrite getHeader_setHeader_other by exact H1.
  apply getHeader_removeHeader_other. exact H2.
Qed.

Lemma deleteLength_other m hs :
  m <> "DELETE" -> m <> "OPTIONS" -> Proxy.deleteLength m hs = hs.
Proof.
  intros H1 H2. unfold Proxy.deleteLength.
  apply String.eqb_neq in H1, H2. rewrite H1, H2. reflexivity.
Qed.

Lemma written_header_false h :
  written_header h = false ->
  Proxy.same_header h "authorization" = false /\ Proxy.same_header h "host" = false
  /\ Proxy.same_header h "connection" = false
  /\ Proxy.same_header h "content-length" = false
  /\ Proxy.same_header h "transfer-encoding" = false.
Proof.
  unfold written_header. cbn [existsb]. intros H.
  repeat (apply orb_false_iff in H as [? H]). auto.
Qed.

Section Forwarded.

Variable secrets : Proxy.Secrets.

(** What [tusProxy] sends on. *)
Lemma tusProxy_forwards req :
  Proxy.tusProxy secrets req
  = Proxy.Forwarded "https://api.cloudflare.com"
      {| Proxy.method := Proxy.method req;
         Proxy.url := Proxy.urlJoin "/" (Proxy.pathRewrite secrets (Proxy.url req));
         Proxy.headers :=
           Proxy.setHeader "Authorization" ("Bearer " ++ Proxy.API_TOKEN secrets)
             (Proxy.setHeader "host" "api.cloudflare.com"
                (Proxy.setConnection
                   (Proxy.deleteLength (Proxy.method req) (Proxy.headers req))));
         Proxy.body := Proxy.body req |}.
Proof. reflexivity. Qed.

(** The one header of the name [Authorization] is the server's. *)
Lemma authorization_is_the_servers hs k v :
  In (k, v) (Proxy.setHeader "Authorization" ("Bearer " ++ Proxy.API_TOKEN secrets) hs) ->
  Proxy.same_header k "authorization" = true ->
  k = "Authorization" /\ v = "Bearer " ++ Proxy.API_TOKEN secrets.
Proof.
  intros Hin Hk. apply In_setHeader in Hin as [[-> ->]|[Hne _]]; [auto|].
  rewrite same_header_sym in Hk.
  assert (T : Proxy.same_header "Authorization" k = true) by exact Hk.
  congruence.
Qed.

(** The headers neither http-proxy nor [onProxyReq] writes pass. *)
Lemma forwarded_header_kept req h :
  Proxy.same_header h "authorization" = false ->
  Proxy.same_header h "host" = false ->
  Proxy.same_header h "connection" = false ->
  (Proxy.same_header h "content-length" = false
   /\ Proxy.same_header h "transfer-encoding" = false)
  \/ (Proxy.method req <> "DELETE" /\ Proxy.method req <> "OPTIONS") ->
  Proxy.getHeader h
    (Proxy.setHeader "Authorization" ("Bearer " ++ Proxy.API_TOKEN secrets)
       (Proxy.setHeader "host" "api.cloudflare.com"
          (Proxy.setConnection
             (Proxy.deleteLength (Proxy.method req) (Proxy.headers req)))))
  = Proxy.getHeader h (Proxy.headers req).
Proof.
  intros Ha Hh Hc Hl.
  rewrite (getHeader_setHeader_other h "Authorization") by exact Ha.
  rewrite getHeader_setHeader_other by exact Hh.
  rewrite getHeader_setConnection_other by exact Hc.
  destruct Hl as [[H1 H2]|[H1 H2]].
  - apply getHeader_deleteLength_other; assumption.
  - rewrite deleteLength_other by assumption. reflexivity.
Qed.

End Forwarded.

Lemma getHeader_removeHeader_same h k hs :
  Proxy.same_header h k = true -> Proxy.getHeader h (Proxy.removeHeader k hs) = None.
Proof.
  intros Hk. unfold Proxy.removeHeader.
  induction hs as [|[k' v'] hs IH]; [reflexivity|]. simpl.
  destruct (Proxy.same_header k k') eqn:E; simpl; [exact IH|].
  destruct (Proxy.same_header h k') eqn:E'; [|exact IH].
  rewrite same_header_sym in Hk.
  rewrite (same_header_trans _ _ _ Hk E') in E. discriminate.
Qed.

Lemma lower_slash c : Proxy.lower c = "/"%char -> c = "/"%char.
Proof.
  destruct c as [[] [] [] [] [] [] [] []]; vm_compute; intros E; try discriminate E; reflexivity.
Qed.

(** A target under the mount begins with a slash and a letter. *)
Lemma mounted_target u :
  Proxy.mounted_at "/api/upload" (Proxy.pathname u) = true ->
  exists c r, u = String "/" (String c r) /\ c <> "/"%char /\ c <> "?"%char.
Proof.
  unfold Proxy.pathname, Proxy.mounted_at.
  destruct u as [|a u]; [discriminate|]. cbn [JS.split_at].
  destruct (Ascii.eqb a "?") eqn:A; [discriminate|].
  destruct u as [|c r].
  - simpl. destruct (Proxy.lower a) as [[] [] [] [] [] [] [] []]; discriminate.
  - cbn [JS.split_at]. destruct (Ascii.eqb c "?") eqn:C.
    + simpl. destruct (Proxy.lower a) as [[] [] [] [] [] [] [] []]; discriminate.
    + destruct (JS.split_at "?" r) as [l q]. cbn [fst Proxy.lowercase Proxy.strip_prefix].
      destruct (Ascii.eqb "/" (Proxy.lower a)) eqn:La; [|discriminate].
      apply Ascii.eqb_eq in La. symmetry in La. apply lower_slash in La. subst a.
      destruct (Ascii.eqb "a" (Proxy.lower c)) eqn:Lc; [|discriminate].
      intros _. exists c, r. split; [reflexivity|]. split.
      * intros ->. discriminate Lc.
      * intros ->. discriminate C.
Qed.


(** Under two tokens the server forwards the same, but for the value of
    the one header. *)
Lemma tokens_differ_in_one_header (account t1 t2 : string) (req : Proxy.Request) :
  match Proxy.app (Proxy.mkSecrets account t1) req,
        Proxy.app (Proxy.mkSecrets account t2) req with
  | Proxy.Forwarded to1 r1, Proxy.Forwarded to2 r2 =>
      to1 = to2 /\ Proxy.method r1 = Proxy.method r2 /\ Proxy.url r1 = Proxy.url r2
      /\ Proxy.body r1 = Proxy.body r2
      /\ exists others,
           Proxy.headers r1 = ("Authorization", "Bearer " ++ t1) :: others
           /\ Proxy.headers r2 = ("Authorization", "Bearer " ++ t2) :: others
           /\ Proxy.getHeader "authorization" others = None
  | Proxy.Answered s1, Proxy.Answered s2 => s1 = s2
  | Proxy.Unhandled, Proxy.Unhandled => True
  | _, _ => False
  end.
Proof.
  unfold Proxy.app, Proxy.cors.
  destruct (String.eqb (Proxy.method req) "OPTIONS"); [reflexivity|].
  destruct (Proxy.mounted_at "/api/upload" (Proxy.pathname (Proxy.url req)));
    [|exact I].
  rewrite !tusProxy_forwards. cbn [Proxy.method Proxy.url Proxy.body Proxy.headers].
  repeat (split; [reflexivity|]).
  eexists. split; [reflexivity|]. split; [reflexivity|].
  apply (getHeader_removeHeader_same "authorization" "Authorization"). reflexivity.
Qed.


(** * The component's properties *)

Section Properties.

Variable date : Date.

(** ** Events and their handlers *)

Lemma step_inv w e w' acts :
  step date w e = Some (w', acts) ->
  handle date w e = Some acts /\ w' = settle (perform_all w acts) e.
Proof.
  unfold step. destruct (handle date w e) as [a|]; [|discriminate].
  intros E. injection E as <- <-. auto.
Qed.

(** What each event makes the component do. *)
Lemma handle_cases w e acts :
  handle date w e = Some acts ->
  match e with
  | FileChange files => acts = handleFileChange files
  | UploadClick =>
      acts = (handleUpload date (cells w) (length (instances w))
              ++ match file (cells w) with Some _ => cleanup (cells w) | None => [] end)%list
  | CancelClick => acts = handleCancel (cells w)
  | OnError _ message => acts = onError message
  | OnProgress _ u t => acts = onProgress u t
  | OnSuccess id => exists u, instances w !! id = Some u /\ acts = onSuccess date (up_file u)
  | Settled k o =>
      (exists url, fetches w !! k = Some (url, true))
      /\ acts = (onSettled o ++ render_error w (onSettled o))%list
  | Unmount => acts = cleanup (cells w)
  end.
Proof.
  destruct e; simpl; intros H;
    try (destruct (fetches w !! k) as [[url []]|] eqn:F; try discriminate;
         injection H as <-; eauto);
    repeat match type of H with
           | (if ?c then _ else _) = _ => destruct c
           | match ?x with _ => _ end = _ => destruct x eqn:?
           end; try discriminate; try (injection H as <-); eauto.
Qed.

(** A render error is the cleanup or nothing. *)
Lemma render_error_cases w acts :
  render_error w acts = [] \/ render_error w acts = cleanup (cells w).
Proof. unfold render_error. destruct (_ && _); auto. Qed.

Lemma render_error_aborts w acts a :
  In a (render_error w acts) -> exists id, a = TusAbort id /\ upload (cells w) = Some id.
Proof.
  destruct (render_error_cases w acts) as [-> | ->]; [intros []|].
  unfold cleanup. destruct (upload (cells w)) as [id|]; [|intros []].
  intros [<-|[]]. eauto.
Qed.

(** What a settlement does: it sets the media id or logs the error, and
    a render that fails aborts the stored upload. *)
Lemma settled_actions w o a :
  In a (onSettled o ++ render_error w (onSettled o)) ->
  (exists v, a = SetMediaId v) \/ a = ConsoleError ["Error fetching media ID:"]
  \/ exists id, a = TusAbort id /\ upload (cells w) = Some id.
Proof.
  intros H. apply in_app_or in H as [H|H].
  - unfold onSettled in H.
    destruct o as [|[data|]]; [| destruct (get_mediaId data) |]; in_cases H; eauto.
  - right. right. apply render_error_aborts in H. exact H.
Qed.



Lemma settled_creates_nothing w o :
  created (onSettled o ++ render_error w (onSettled o)) = []
  /\ own_requests (onSettled o ++ render_error w (onSettled o)) = [].
Proof.
  destruct (render_error_cases w (onSettled o)) as [-> | ->]; unfold onSettled, cleanup;
    destruct o as [|[data|]]; try destruct (get_mediaId data);
    destruct (upload (cells w)); split; reflexivity.
Qed.

(** ** What the handlers do *)

Lemma library_calls_app a b :
  library_calls (a ++ b) = (library_calls a ++ library_calls b)%list.
Proof. apply List.filter_app. Qed.

Lemma library_calls_cleanup st : library_calls (cleanup st) = cleanup st.
Proof. unfold cleanup. destruct (upload st); reflexivity. Qed.

Lemma library_calls_render_error w acts :
  library_calls (render_error w acts) = render_error w acts.
Proof.
  destruct (render_error_cases w acts) as [-> | ->];
    [reflexivity|apply library_calls_cleanup].
Qed.

Lemma library_calls_onSettled o : library_calls (onSettled o) = [].
Proof.
  unfold onSettled. destruct o as [|[data|]]; [| destruct (get_mediaId data) |];
    reflexivity.
Qed.

(** The calls into tus-js-client each event makes, all of them. *)
Lemma library_calls_of w e acts :
  handle date w e = Some acts ->
  library_calls acts
  = match e with
    | UploadClick =>
        match file (cells w) with
        | Some f =>
            [TusNew (length (instances w)) f (options date f);
             TusStart (length (instances w))] ++ cleanup (cells w)
        | None => []
        end
    | CancelClick | Unmount => cleanup (cells w)
    | Settled _ o => render_error w (onSettled o)
    | _ => []
    end%list.
Proof.
  intros H. apply handle_cases in H. destruct e.
  - subst acts. destruct files as [[|f l]|]; reflexivity.
  - subst acts. unfold handleUpload. destruct (file (cells w)); [|reflexivity].
    rewrite library_calls_app, library_calls_cleanup. reflexivity.
  - subst acts. unfold handleCancel, cleanup. destruct (upload (cells w)); reflexivity.
  - subst acts. reflexivity.
  - subst acts. reflexivity.
  - destruct H as (u & _ & ->). reflexivity.
  - destruct H as [_ ->].
    rewrite library_calls_app, library_calls_onSettled, library_calls_render_error.
    reflexivity.
  - subst acts. apply library_calls_cleanup.
Qed.

Lemma in_library_calls a acts :
  In a (library_calls acts) <-> In a acts /\ is_library_call a = true.
Proof. apply filter_In. Qed.

(** C1.  With a file selected, [handleUpload] creates the
    [tus.Upload] with the retry delays [0, 3000, 5000, 10000, 20000]
    and a chunk size of [50 * 1024 * 1024].  [onError] logs and sets
    the status ["Upload failed: <message>"] and calls nothing of the
    library.  With an upload stored, [handleCancel] aborts it and so
    does the effect's [cleanup]; a click on "Cancel" runs the one and
    the unmount the other.  Every [abort] of every event is on the
    stored instance and is the one of [handleCancel] or the one of
    [cleanup] (which React also runs when the stored upload is replaced
    and when a render fails), and outside [handleUpload] no event
    creates or starts an upload. *)
Theorem upload_options_and_recovery :
  (forall st f fresh,
     file st = Some f ->
     exists o,
       handleUpload date st fresh
       = [ConsoleLog [name f; "FILENAME >>>>>>>>>>>>"];
          SetUploadStatus "Starting upload...";
          TusNew fresh f o;
          SetUpload fresh;
          TusStart fresh]
       /\ retryDelays o = [0; 3000; 5000; 10000; 20000]%N
       /\ chunkSize o = (50 * 1024 * 1024)%N)
  /\ (forall message,
        onError message
        = [ConsoleError ["Upload error:"; message];
           SetUploadStatus ("Upload failed: " ++ message)]
        /\ library_calls (onError message) = [])
  /\ (forall st id,
        upload st = Some id ->
        handleCancel st = [TusAbort id; SetUploadStatus "Upload cancelled"]
        /\ cleanup st = [TusAbort id])
  /\ (forall w id,
        mounted w = true -> upload (cells w) = Some id ->
        (exists w', step date w CancelClick
                    = Some (w', [TusAbort id; SetUploadStatus "Upload cancelled"]))
        /\ (exists w', step date w Unmount = Some (w', [TusAbort id])
                       /\ mounted w' = false))
  /\ (forall w e acts id,
        handle date w e = Some acts -> In (TusAbort id) acts ->
        upload (cells w) = Some id
        /\ ((e = CancelClick /\ acts = handleCancel (cells w))
            \/ (e <> CancelClick
                /\ exists before,
                     acts = (before ++ cleanup (cells w))%list
                     /\ forall i, ~ In (TusAbort i) before)))
  /\ (forall w e acts a,
        handle date w e = Some acts -> In a acts -> e <> UploadClick ->
        match a with
        | TusNew _ _ _ | TusStart _ => False
        | _ => True
        end).
Proof.
  split; [|split; [|split; [|split; [|split]]]].
  - intros st f fresh Hf. exists (options date f).
    unfold handleUpload. rewrite Hf. auto.
  - intros message. split; reflexivity.
  - intros st id U. unfold handleCancel, cleanup. rewrite U. auto.
  - intros w id Hm U. unfold step, handle. rewrite Hm.
    unfold handleCancel, cleanup. rewrite U. split.
    + eexists. reflexivity.
    + eexists. split; [reflexivity|]. reflexivity.
  - intros w e acts id H Hin.
    assert (Hc : forall st i, In (TusAbort i) (cleanup st) -> upload st = Some i).
    { intros st i. unfold cleanup. destruct (upload st); [|intros []].
      intros [E|[]]. injection E as <-. reflexivity. }
    apply handle_cases in H. destruct e.
    + subst acts. destruct files as [[|f l]|]; in_cases Hin.
    + subst acts. apply in_app_or in Hin as [Hin|Hin].
      * unfold handleUpload in Hin. destruct (file (cells w)); in_cases Hin.
      * destruct (file (cells w)) as [f|] eqn:F; [|destruct Hin].
        split; [apply Hc; exact Hin|]. right. split; [discriminate|].
        exists (handleUpload date (cells w) (length (instances w))).
        split; [reflexivity|]. intros i Hi. unfold handleUpload in Hi.
        rewrite F in Hi. in_cases Hi.
    + subst acts. split; [|left; auto].
      unfold handleCancel in Hin. destruct (upload (cells w)); in_cases Hin.
      injection Hin as <-. reflexivity.
    + subst acts. in_cases Hin.
    + subst acts. unfold onProgress in Hin.
      set (pct := JS.toFixed2 _) in Hin. clearbody pct. in_cases Hin.
    + destruct H as (u & _ & ->). in_cases Hin.
    + destruct H as [_ ->]. apply in_app_or in Hin as [Hin|Hin].
      * unfold onSettled in Hin.
        destruct o as [|[data|]]; [| destruct (get_mediaId data) |]; in_cases Hin.
      * destruct (render_error_cases w (onSettled o)) as [E|E]; rewrite E in *;
          [destruct Hin|].
        split; [apply Hc; exact Hin|]. right. split; [discriminate|].
        exists (onSettled o). split; [reflexivity|]. intros i Hi.
        unfold onSettled in Hi.
        destruct o as [|[data|]]; [| destruct (get_mediaId data) |]; in_cases Hi.
    + subst acts. split; [apply Hc; exact Hin|]. right. split; [discriminate|].
      exists []. split; [reflexivity|]. intros i [].
  - intros w e acts a H Hin Hne.
    assert (L : is_library_call a = true -> In a (library_calls acts))
      by (intros L; apply in_library_calls; auto).
    rewrite (library_calls_of _ _ _ H) in L.
    destruct a; auto; specialize (L eq_refl); destruct e; try contradiction;
      try (destruct L; fail);
      try (unfold cleanup in L; destruct (upload (cells w)); in_cases L; fail);
      destruct (render_error_aborts _ _ _ L) as (i & E & _); discriminate E.
Qed.

Lemma perform_all_app w a b :
  perform_all w (a ++ b) = perform_all (perform_all w a) b.
Proof. apply fold_left_app. Qed.

(** The status line after some actions is the one before or one they set. *)
Lemma status_after acts : forall w,
  uploadStatus (cells (perform_all w acts)) = uploadStatus (cells w)
  \/ exists s, In (SetUploadStatus s) acts
               /\ uploadStatus (cells (perform_all w acts)) = s.
Proof.
  induction acts as [|a acts IH]; intros w; [left; reflexivity|].
  change (perform_all w (a :: acts)) with (perform_all (perform w a) acts).
  destruct (IH (perform w a)) as [E|(s & Hin & E)].
  - rewrite E. destruct a; simpl; destruct (mounted w); simpl; eauto.
  - right. exists s. split; [right; exact Hin|exact E].
Qed.

Lemma settle_cells w e : cells (settle w e) = cells w.
Proof.
  destruct e; try reflexivity. simpl.
  destruct (fetches w !! k) as [[url b]|]; reflexivity.
Qed.

Lemma status_set_by w e acts s :
  handle date w e = Some acts -> In (SetUploadStatus s) acts ->
  exists ph, phase_of_status s = Some ph /\ phase_driven_by e = Some ph.
Proof.
  intros H Hin. apply handle_cases in H. destruct e.
  - subst acts. destruct files as [[|f l]|]; in_cases Hin.
    injection Hin as <-. exists Idle. auto.
  - subst acts. unfold handleUpload, cleanup in Hin.
    destruct (file (cells w)); destruct (upload (cells w)); in_cases Hin;
      injection Hin as <-; exists Idle; auto.
  - subst acts. unfold handleCancel in Hin.
    destruct (upload (cells w)); in_cases Hin.
    injection Hin as <-. exists Cancelled. auto.
  - subst acts. in_cases Hin. injection Hin as <-. exists Failed. split; reflexivity.
  - subst acts. unfold onProgress in Hin.
    set (pct := JS.toFixed2 _) in Hin. clearbody pct. in_cases Hin.
    injection Hin as <-. exists Uploading. split; reflexivity.
  - destruct H as (u & _ & ->). in_cases Hin. injection Hin as <-. exists Done. auto.
  - destruct H as [_ ->].
    apply settled_actions in Hin as [(v' & E)|[E|(i' & E & _)]]; discriminate E.
  - subst acts. unfold cleanup in Hin.
    destruct (upload (cells w)); in_cases Hin.
Qed.

(** C8.  With no file selected, [handleUpload] only sets the status
    ["Please select a file first"]: no instance is created or started,
    and file, progress, media id and upload stay as they were. *)
Theorem handleUpload_without_file (st : State) (fresh : nat) :
  file st = None ->
  handleUpload date st fresh = [SetUploadStatus "Please select a file first"]
  /\ forall w,
       cells w = st -> mounted w = true ->
       exists w',
         step date w UploadClick
         = Some (w', [SetUploadStatus "Please select a file first"])
         /\ uploadStatus (cells w') = "Please select a file first"
         /\ file (cells w') = file st
         /\ progress (cells w') = progress st
         /\ mediaId (cells w') = mediaId st
         /\ upload (cells w') = upload st
         /\ instances w' = instances w
         /\ fetches w' = fetches w.
Proof.
  intros Hf. split; [unfold handleUpload; rewrite Hf; reflexivity|].
  intros w <- Hm. unfold step, handle, handleUpload. rewrite Hm, Hf.
  eexists. split; [reflexivity|]. simpl. rewrite Hm. simpl. auto 10.
Qed.

(** C10.  "Upload Video" is disabled exactly when no file is selected
    or the progress is strictly between 0 and 100, and "Cancel" is in
    the tree exactly in the latter case (the comparisons being those of
    the values whenever the progress is finite); so no click reaches
    [handleUpload] mid-progress, nor [handleCancel] outside it. *)
Theorem buttons_follow_progress (st : State) :
  let mid := JS.ltb (JS.of_N 0) (progress st) = true
             /\ JS.ltb (progress st) (JS.of_N 100) = true in
  (upload_disabled (render st) = true <-> file st = None \/ mid)
  /\ (cancel_button (render st) = true <-> mid)
  /\ (forall p, JS.value (progress st) = Some p -> mid <-> (0 < p /\ p < 100)%Q)
  /\ forall w,
       cells w = st ->
       (mid -> user_run date w [UploadClick] = None)
       /\ (~ mid -> user_run date w [CancelClick] = None).
Proof.
  cbv zeta.
  change (upload_disabled (render st))
    with (match file st with None => true | Some _ => false end || mid_progress st).
  change (cancel_button (render st)) with (mid_progress st).
  assert (M : mid_progress st = true
              <-> JS.ltb (JS.of_N 0) (progress st) = true
                  /\ JS.ltb (progress st) (JS.of_N 100) = true)
    by apply andb_true_iff.
  split; [|split; [|split]].
  - rewrite orb_true_iff, M. destruct (file st); intuition discriminate.
  - exact M.
  - intros p Hp. rewrite <- M. apply mid_progress_value. exact Hp.
  - intros w <-. unfold user_run, offered.
    change (upload_disabled (render (cells w)))
      with (match file (cells w) with None => true | Some _ => false end
            || mid_progress (cells w)).
    change (cancel_button (render (cells w))) with (mid_progress (cells w)).
    split.
    + intros Hmid. apply M in Hmid. rewrite Hmid, orb_true_r, andb_false_r.
      reflexivity.
    + intros Hmid. destruct (mid_progress (cells w)) eqn:C;
        [|rewrite andb_false_r; reflexivity].
      exfalso. apply Hmid, M. reflexivity.
Qed.

(** ** Instances, fetches and the media id *)

Lemma fetches_after acts : forall w,
  fetches (perform_all w acts)
  = (fetches w ++ map (fun r => (Proxy.url r, true)) (own_requests acts))%list.
Proof.
  induction acts as [|a acts IH]; intros w; simpl; [rewrite app_nil_r; reflexivity|].
  change (fold_left perform acts (perform w a)) with (perform_all (perform w a) acts).
  rewrite IH. destruct a; simpl; try (destruct (mounted w); reflexivity).
  rewrite <- app_assoc. reflexivity.
Qed.

Lemma instances_after acts : forall w,
  instances (perform_all w acts) = (instances w ++ created acts)%list.
Proof.
  induction acts as [|a acts IH]; intros w; simpl; [rewrite app_nil_r; reflexivity|].
  change (fold_left perform acts (perform w a)) with (perform_all (perform w a) acts).
  rewrite IH. destruct a; simpl; try (destruct (mounted w); reflexivity).
  rewrite <- app_assoc. reflexivity.
Qed.

Lemma mediaId_after acts : forall w,
  mediaId (cells (perform_all w acts)) = mediaId (cells w)
  \/ exists v, In (SetMediaId v) acts /\ mediaId (cells (perform_all w acts)) = v.
Proof.
  induction acts as [|a acts IH]; intros w; [left; reflexivity|].
  change (perform_all w (a :: acts)) with (perform_all (perform w a) acts).
  destruct (IH (perform w a)) as [E|(s & Hin & E)].
  - rewrite E. destruct a; simpl; destruct (mounted w); simpl; eauto.
  - right. exists s. split; [right; exact Hin|exact E].
Qed.

Lemma settle_instances w e : instances (settle w e) = instances w.
Proof.
  destruct e; try reflexivity. simpl.
  destruct (fetches w !! k) as [[url b]|]; reflexivity.
Qed.

Lemma settle_fetches_length w e : length (fetches (settle w e)) = length (fetches w).
Proof.
  destruct e; try reflexivity. simpl.
  destruct (fetches w !! k) as [[url b]|]; [|reflexivity].
  simpl. apply length_insert.
Qed.

(** Only [handleUpload] creates instances, each with [options] of its file. *)
Lemma created_by w e acts :
  handle date w e = Some acts ->
  Forall (fun u => up_options u = options date (up_file u)) (created acts).
Proof.
  intros H. apply handle_cases in H. destruct e.
  - subst acts. destruct files as [[|f l]|]; simpl; constructor.
  - subst acts. unfold handleUpload, cleanup.
    destruct (file (cells w)); destruct (upload (cells w)); simpl;
      repeat constructor.
  - subst acts. unfold handleCancel. destruct (upload (cells w)); constructor.
  - subst acts. constructor.
  - subst acts. constructor.
  - destruct H as (u & _ & ->). constructor.
  - destruct H as [_ ->]. rewrite (proj1 (settled_creates_nothing w o)). constructor.
  - subst acts. unfold cleanup. destruct (upload (cells w)); constructor.
Qed.

(** Only [onSuccess] sends a request, and only the one. *)
Lemma requests_by w e acts :
  handle date w e = Some acts ->
  own_requests acts = []
  \/ exists id u,
       e = OnSuccess id /\ instances w !! id = Some u
       /\ own_requests acts
          = [fetch_request ("/api/upload/status?filename="
                            ++ URI.encodeURIComponent
                                 (timestamp date ++ " - " ++ name (up_file u)))].
Proof.
  intros H. apply handle_cases in H. destruct e.
  - subst acts. destruct files as [[|f l]|]; auto.
  - subst acts. unfold handleUpload, cleanup.
    destruct (file (cells w)); destruct (upload (cells w)); auto.
  - subst acts. unfold handleCancel. destruct (upload (cells w)); auto.
  - subst acts. auto.
  - subst acts. auto.
  - destruct H as (u & Hu & ->). right. exists id, u. auto.
  - destruct H as [_ ->]. left. apply settled_creates_nothing.
  - subst acts. unfold cleanup. destruct (upload (cells w)); auto.
Qed.

Lemma run_invariant (P : World -> Prop) :
  (forall w e w' acts, P w -> step date w e = Some (w', acts) -> P w') ->
  forall evs w w' acts, P w -> run date w evs = Some (w', acts) -> P w'.
Proof.
  intros Hstep. induction evs as [|e evs IH]; intros w w' acts Hw H; simpl in H.
  - injection H as <- _. exact Hw.
  - destruct (step date w e) as [[w1 a1]|] eqn:S; [|discriminate].
    destruct (run date w1 evs) as [[w2 a2]|] eqn:R; [|discriminate].
    injection H as <- _. eapply IH; [|exact R]. eapply Hstep; eassumption.
Qed.

Lemma options_kept_step w e w' acts :
  options_kept date w -> step date w e = Some (w', acts) -> options_kept date w'.
Proof.
  intros Hw H. apply step_inv in H as [Hh ->]. unfold options_kept.
  rewrite settle_instances, instances_after. apply Forall_app. split; [exact Hw|].
  eapply created_by; exact Hh.
Qed.

(** C9.  [handleUpload] registers the selected file under the metadata
    name ["<timestamp> - <file.name>"], and for every instance of every
    run the status request of its [onSuccess] carries, percent-encoded,
    exactly that name in [filename]: decoding the parameter gives the
    registered name back.  The timestamp is the one constant [date]
    gives throughout. *)
Theorem lookup_name_is_metadata_name :
  (forall st f fresh,
     file st = Some f ->
     In (TusNew fresh f (options date f)) (handleUpload date st fresh))
  /\ forall evs w acts id u,
       run date start evs = Some (w, acts) ->
       instances w !! id = Some u ->
       exists registered param,
         get_property "name" (metadata (up_options u)) = Some registered
         /\ registered = timestamp date ++ " - " ++ name (up_file u)
         /\ handle date w (OnSuccess id)
            = Some [SetUploadStatus "Upload complete! Video is now processing.";
                    Fetch ("/api/upload/status?filename=" ++ param)]
         /\ param = URI.encodeURIComponent registered
         /\ URI.percent_decode param = Some registered.
Proof.
  split.
  - intros st f fresh Hf. unfold handleUpload. rewrite Hf. simpl. auto.
  - intros evs w acts id u H Hu.
    assert (K : options_kept date w).
    { eapply run_invariant; [apply options_kept_step| |exact H]. constructor. }
    unfold options_kept in K. rewrite Forall_forall in K.
    specialize (K u (list_elem_of_lookup_2 _ _ _ Hu)).
    exists (timestamp date ++ " - " ++ name (up_file u)),
           (URI.encodeURIComponent (timestamp date ++ " - " ++ name (up_file u))).
    rewrite K. simpl. rewrite Hu. unfold onSuccess.
    repeat split; try reflexivity. apply decode_encode.
Qed.

Lemma mediaId_set_by w e acts v :
  handle date w e = Some acts -> In (SetMediaId v) acts ->
  exists k url data got,
    e = Settled k (Body (Some data)) /\ fetches w !! k = Some (url, true)
    /\ get_mediaId data = Some got /\ v = or_else got (VString "").
Proof.
  intros H Hin. apply handle_cases in H. destruct e.
  - subst acts. destruct files as [[|f l]|]; in_cases Hin.
  - subst acts. unfold handleUpload, cleanup in Hin.
    destruct (file (cells w)); destruct (upload (cells w)); in_cases Hin.
  - subst acts. unfold handleCancel in Hin. destruct (upload (cells w)); in_cases Hin.
  - subst acts. in_cases Hin.
  - subst acts. unfold onProgress in Hin.
    set (pct := JS.toFixed2 _) in Hin. clearbody pct. in_cases Hin.
  - destruct H as (u & _ & ->). in_cases Hin.
  - destruct H as [(url & Hk) ->]. apply in_app_or in Hin as [Hin|Hin].
    + unfold onSettled in Hin.
      destruct o as [|[data|]]; [| destruct (get_mediaId data) as [got|] eqn:G |];
        in_cases Hin.
      injection Hin as <-. exists k, url, data, got. auto.
    + apply render_error_aborts in Hin as (i & E & _). discriminate E.
  - subst acts. unfold cleanup in Hin. destruct (upload (cells w)); in_cases Hin.
Qed.

Lemma carried_or_empty data got :
  get_mediaId data = Some got ->
  or_else got (VString "") = VString ""
  \/ carried_mediaId (Body (Some data)) = Some (or_else got (VString "")).
Proof.
  intros G. unfold or_else, carried_mediaId. rewrite G.
  destruct (truthy got); auto.
Qed.

Lemma mediaId_step w e w' acts :
  step date w e = Some (w', acts) ->
  mediaId (cells w') = mediaId (cells w)
  \/ mediaId (cells w') = VString ""
  \/ exists k o, e = Settled k o /\ carried_mediaId o = Some (mediaId (cells w')).
Proof.
  intros H. apply step_inv in H as [Hh ->]. rewrite settle_cells.
  destruct (mediaId_after acts w) as [E|(v & Hin & E)]; [left; exact E|].
  destruct (mediaId_set_by _ _ _ _ Hh Hin) as (k & url & data & got & -> & _ & G & ->).
  rewrite E. destruct (carried_or_empty _ _ G) as [C|C]; [auto|].
  right. right. eauto.
Qed.

Lemma mediaId_run evs : forall w0 w acts,
  run date w0 evs = Some (w, acts) ->
  mediaId (cells w) = mediaId (cells w0)
  \/ mediaId (cells w) = VString ""
  \/ exists k o, In (Settled k o) evs /\ carried_mediaId o = Some (mediaId (cells w)).
Proof.
  induction evs as [|e evs IH]; intros w0 w acts H; simpl in H.
  - injection H as <- _. auto.
  - destruct (step date w0 e) as [[w1 a1]|] eqn:S; [|discriminate].
    destruct (run date w1 evs) as [[w2 a2]|] eqn:R; [|discriminate].
    injection H as <- _.
    destruct (IH _ _ _ R) as [E|[E|(k & o & Hin & C)]].
    + rewrite E. destruct (mediaId_step _ _ _ _ S) as [E'|[E'|(k & o & -> & C)]]; auto.
      right. right. exists k, o. split; [left; reflexivity|exact C].
    + auto.
    + right. right. exists k, o. split; [right; exact Hin|exact C].
Qed.

Lemma fetches_length_step w e w' acts :
  step date w e = Some (w', acts) ->
  (exists id, e = OnSuccess id) \/ length (fetches w') = length (fetches w).
Proof.
  intros H. apply step_inv in H as [Hh ->].
  rewrite settle_fetches_length, fetches_after.
  destruct (requests_by _ _ _ Hh) as [E|(id & u & -> & _)]; [|eauto].
  right. rewrite E. simpl. rewrite app_nil_r. reflexivity.
Qed.

(** A settlement in a run answers a fetch pending at its start or
    follows an [onSuccess] of the run. *)
Lemma settled_after_success evs : forall w0 w acts k o,
  run date w0 evs = Some (w, acts) -> In (Settled k o) evs ->
  (k < length (fetches w0))%nat
  \/ exists id pre post, evs = (pre ++ OnSuccess id :: post)%list /\ In (Settled k o) post.
Proof.
  induction evs as [|e evs IH]; intros w0 w acts k o H Hin; [destruct Hin|].
  simpl in H.
  destruct (step date w0 e) as [[w1 a1]|] eqn:S; [|discriminate].
  destruct (run date w1 evs) as [[w2 a2]|] eqn:R; [|discriminate].
  destruct Hin as [->|Hin].
  - left. apply step_inv in S as [Hh _]. apply handle_cases in Hh as [(url & Hk) _].
    eapply lookup_lt_Some. exact Hk.
  - destruct (IH _ _ _ _ _ R Hin) as [Hlt|(id & pre & post & -> & Hp)].
    + destruct (fetches_length_step _ _ _ _ S) as [(id & ->)|E].
      * right. exists id, [], evs. auto.
      * left. rewrite <- E. exact Hlt.
    + right. exists id, (e :: pre), post. auto.
Qed.

(** The media-info block of the page, when there is a page. *)
Lemma media_info_shown w view :
  shown w = Some view ->
  media_info view = if truthy (mediaId (cells w)) then Some (mediaId (cells w)) else None.
Proof.
  unfold shown. destruct (_ && _); [|discriminate].
  intros E. injection E as <-. reflexivity.
Qed.

(** The step of a settlement that finds its fetch pending. *)
Lemma step_settled w k url o :
  fetches w !! k = Some (url, true) ->
  step date w (Settled k o)
  = Some (settle (perform_all w (onSettled o ++ render_error w (onSettled o)))
                 (Settled k o),
          (onSettled o ++ render_error w (onSettled o))%list).
Proof. intros F. unfold step, handle. rewrite F. reflexivity. Qed.

Lemma perform_cleanup w st :
  cells (perform_all w (cleanup st)) = cells w
  /\ mounted (perform_all w (cleanup st)) = mounted w
  /\ fetches (perform_all w (cleanup st)) = fetches w.
Proof.
  unfold cleanup. destruct (upload st); [|auto].
  unfold perform_all. simpl. destruct (mounted w) eqn:M; simpl; auto.
Qed.

Lemma render_error_set w v :
  mounted w = true ->
  render_error w [SetMediaId v] = if valid_child v then [] else cleanup (cells w).
Proof.
  intros Hm. unfold render_error, perform_all. simpl. rewrite Hm. simpl.
  destruct (valid_child v); reflexivity.
Qed.

(** The world after a lookup has set the media id. *)
Lemma after_media_id w k url o v :
  mounted w = true -> fetches w !! k = Some (url, true) ->
  let w' := settle (perform_all w ([SetMediaId v] ++ render_error w [SetMediaId v]))
                   (Settled k o) in
  mediaId (cells w') = v /\ mounted w' = valid_child v
  /\ file (cells w') = file (cells w) /\ progress (cells w') = progress (cells w)
  /\ upload (cells w') = upload (cells w).
Proof.
  intros Hm F w'.
  assert (P : perform w (SetMediaId v)
              = mkWorld (set (cells w) (SetMediaId v)) (instances w) (fetches w) true)
    by (unfold perform; rewrite Hm; reflexivity).
  assert (C : let w1 := perform_all w ([SetMediaId v] ++ render_error w [SetMediaId v]) in
              cells w1 = set (cells w) (SetMediaId v) /\ mounted w1 = true
              /\ fetches w1 = fetches w).
  { cbv zeta.
    change (perform_all w ([SetMediaId v] ++ render_error w [SetMediaId v]))
      with (perform_all (perform w (SetMediaId v)) (render_error w [SetMediaId v])).
    rewrite P.
    destruct (render_error_cases w [SetMediaId v]) as [-> | ->]; [auto|].
    exact (perform_cleanup
             (mkWorld (set (cells w) (SetMediaId v)) (instances w) (fetches w) true)
             (cells w)). }
  cbv zeta in C. destruct C as (C & M & Fe).
  unfold w', settle. rewrite Fe, F. cbn [cells mounted]. rewrite C, M.
  cbn [set mediaId file progress upload andb]. auto.
Qed.

Lemma shown_after_media_id w k url o v :
  mounted w = true -> fetches w !! k = Some (url, true) ->
  shown (settle (perform_all w ([SetMediaId v] ++ render_error w [SetMediaId v]))
                (Settled k o))
  = if valid_child v
    then Some (render (cells (settle (perform_all w ([SetMediaId v]
                                        ++ render_error w [SetMediaId v]))
                                     (Settled k o))))
    else None.
Proof.
  intros Hm F. destruct (after_media_id w k url o v Hm F) as (A & M & _).
  unfold shown. rewrite M, A. destruct (valid_child v); reflexivity.
Qed.

(** C5, amended.  [setMediaId] is only called when a status fetch
    settles with a JSON body, with that body's [mediaId] or [""], and
    such a fetch is only ever issued by [onSuccess], as a GET of
    [/api/upload/status?filename=<metadata name>].  A lookup that
    settles with a body other than [null] sets the media id: to [""],
    with the block not rendered, when the body has no truthy [mediaId];
    to that [mediaId], shown in the block, when React can render it;
    and when it cannot (an object), the render throws, the tree is
    taken down and the stored upload aborted.  A lookup that fails
    (no answer, a body that is not JSON, [null]) logs the error and
    leaves the media id and the block as they were, empty or not.  Over
    every run the media id is empty and no block on the page, unless a
    lookup settled with a media id after an [onSuccess], whose id it
    then is. *)
Theorem mediaId_from_status_lookup :
  (forall w e w' acts v,
     step date w e = Some (w', acts) -> In (SetMediaId v) acts ->
     exists k url data got,
       e = Settled k (Body (Some data)) /\ fetches w !! k = Some (url, true)
       /\ get_mediaId data = Some got /\ v = or_else got (VString ""))
  /\ (forall w e w' acts r,
        step date w e = Some (w', acts) -> In r (own_requests acts) ->
        exists id u,
          e = OnSuccess id /\ instances w !! id = Some u
          /\ r = fetch_request
                   ("/api/upload/status?filename="
                    ++ URI.encodeURIComponent
                         (timestamp date ++ " - " ++ name (up_file u))))
  /\ (forall w k url data got,
        mounted w = true -> fetches w !! k = Some (url, true) ->
        get_mediaId data = Some got ->
        exists w' acts,
          step date w (Settled k (Body (Some data))) = Some (w', acts)
          /\ mediaId (cells w') = or_else got (VString "")
          /\ (truthy got = false ->
              acts = [SetMediaId (VString "")]
              /\ option_map media_info (shown w') = Some None)
          /\ (truthy got = true -> valid_child got = true ->
              acts = [SetMediaId got]
              /\ option_map media_info (shown w') = Some (Some got))
          /\ (truthy got = true -> valid_child got = false ->
              acts = (SetMediaId got :: cleanup (cells w))
              /\ shown w' = None /\ mounted w' = false))
  /\ (forall w k url o,
        mounted w = true -> valid_child (mediaId (cells w)) = true ->
        fetches w !! k = Some (url, true) ->
        o = NetworkError \/ o = Body None
        \/ (exists data, o = Body (Some data) /\ get_mediaId data = None) ->
        exists w',
          step date w (Settled k o)
          = Some (w', [ConsoleError ["Error fetching media ID:"]])
          /\ mediaId (cells w') = mediaId (cells w)
          /\ option_map media_info (shown w') = option_map media_info (shown w))
  /\ (forall evs w acts,
        run date start evs = Some (w, acts) ->
        (mediaId (cells w) = VString ""
         /\ forall view, shown w = Some view -> media_info view = None)
        \/ exists id k o v pre post,
             evs = (pre ++ OnSuccess id :: post)%list /\ In (Settled k o) post
             /\ carried_mediaId o = Some v
             /\ mediaId (cells w) = v
             /\ forall view, shown w = Some view -> media_info view = Some v).
Proof.
  split; [|split; [|split; [|split]]].
  - intros w e w' acts v H Hin. apply step_inv in H as [H _].
    eapply mediaId_set_by; eassumption.
  - intros w e w' acts r H Hin. apply step_inv in H as [H _].
    destruct (requests_by _ _ _ H) as [E|(id & u & -> & Hu & E)];
      rewrite E in Hin; in_cases Hin.
    subst r. eauto.
  - intros w k url data got Hm F G.
    eexists _, _. split; [apply (step_settled _ _ _ _ F)|].
    assert (E : onSettled (Body (Some data)) = [SetMediaId (or_else got (VString ""))])
      by (unfold onSettled; rewrite G; reflexivity).
    rewrite E.
    destruct (after_media_id w k url (Body (Some data)) (or_else got (VString "")) Hm F)
      as (A & M & _).
    pose proof (shown_after_media_id w k url (Body (Some data))
                  (or_else got (VString "")) Hm F) as S.
    pose proof (render_error_set w (or_else got (VString "")) Hm) as R.
    set (w' := settle _ _) in *. clearbody w'.
    split; [exact A|]. rewrite S, R. clear S R.
    unfold render. cbn [media_info option_map]. rewrite A, M.
    unfold or_else. split; [|split].
    + intros T. rewrite T. cbn [valid_child truthy String.eqb negb]. auto.
    + intros T V. rewrite T, V. rewrite T. auto.
    + intros T V. rewrite T, V. auto.
  - intros w k url o Hm V F Ho.
    assert (E : onSettled o = [ConsoleError ["Error fetching media ID:"]]).
    { destruct Ho as [->|[->|(data & -> & G)]]; unfold onSettled; rewrite ?G;
        reflexivity. }
    assert (R : render_error w [ConsoleError ["Error fetching media ID:"]] = []).
    { unfold render_error, perform_all. simpl. rewrite Hm. simpl. rewrite V.
      reflexivity. }
    eexists. rewrite (step_settled _ _ _ _ F), E, R.
    split; [reflexivity|].
    unfold perform_all, settle. simpl. rewrite Hm. simpl. rewrite F. simpl.
    split; [reflexivity|].
    unfold shown. simpl. rewrite Hm, V. reflexivity.
  - intros evs w acts H.
    destruct (mediaId_run _ _ _ _ H) as [E|[E|(k & o & Hin & C)]].
    + left. split; [exact E|]. intros view Hv.
      rewrite (media_info_shown _ _ Hv), E. reflexivity.
    + left. split; [exact E|]. intros view Hv.
      rewrite (media_info_shown _ _ Hv), E. reflexivity.
    + right. destruct (settled_after_success _ _ _ _ _ _ H Hin)
        as [Hlt|(id & pre & post & -> & Hp)]; [simpl in Hlt; lia|].
      exists id, k, o, (mediaId (cells w)), pre, post.
      repeat split; auto.
      intros view Hv. rewrite (media_info_shown _ _ Hv).
      unfold carried_mediaId in C.
      destruct o as [|[data|]]; try discriminate.
      destruct (get_mediaId data) as [got|]; try discriminate.
      destruct (truthy got) eqn:T; try discriminate.
      injection C as <-. rewrite T. reflexivity.
Qed.

(** ** The phases of the status line *)

Lemma upload_after acts : forall w,
  upload (cells (perform_all w acts)) = upload (cells w)
  \/ exists id, In (SetUpload id) acts.
Proof.
  induction acts as [|a acts IH]; intros w; [left; reflexivity|].
  change (perform_all w (a :: acts)) with (perform_all (perform w a) acts).
  destruct (IH (perform w a)) as [E|(id & Hin)].
  - rewrite E. destruct a; simpl; destruct (mounted w); simpl; eauto.
  - right. exists id. right. exact Hin.
Qed.

Lemma upload_set_by w e acts id :
  handle date w e = Some acts -> In (SetUpload id) acts -> created acts <> [].
Proof.
  intros H Hin. apply handle_cases in H. destruct e.
  - subst acts. destruct files as [[|f l]|]; in_cases Hin.
  - subst acts. unfold handleUpload, cleanup in *.
    destruct (file (cells w)); destruct (upload (cells w)); in_cases Hin; discriminate.
  - subst acts. unfold handleCancel in Hin. destruct (upload (cells w)); in_cases Hin.
  - subst acts. in_cases Hin.
  - subst acts. unfold onProgress in Hin.
    set (pct := JS.toFixed2 _) in Hin. clearbody pct. in_cases Hin.
  - destruct H as (u & _ & ->). in_cases Hin.
  - destruct H as [_ ->].
    apply settled_actions in Hin as [(v' & E)|[E|(i' & E & _)]]; discriminate E.
  - subst acts. unfold cleanup in Hin. destruct (upload (cells w)); in_cases Hin.
Qed.

Lemma app_not_nil_l {A} (l k : list A) : l <> [] -> (l ++ k)%list <> [].
Proof. destruct l; [congruence|discriminate]. Qed.

Lemma app_not_nil_r {A} (l k : list A) : k <> [] -> (l ++ k)%list <> [].
Proof. destruct l; [auto|discriminate]. Qed.

Lemma started_first_step w e w' acts :
  started_first w -> step date w e = Some (w', acts) -> started_first w'.
Proof.
  intros [Hu Hs] H. apply step_inv in H as [Hh ->].
  unfold started_first. rewrite settle_cells, settle_instances, instances_after.
  assert (Hcb : forall id, instances w !! id <> None -> instances w <> []).
  { intros id Hi E. rewrite E in Hi. apply Hi. reflexivity. }
  split.
  - destruct (upload_after acts w) as [E|(id & Hin)].
    + rewrite E. destruct Hu as [Hu|Hu]; [left; exact Hu|right].
      apply app_not_nil_l, Hu.
    + right. apply app_not_nil_r. eapply upload_set_by; eassumption.
  - destruct (status_after acts w) as [E|(s & Hin & E)]; rewrite E.
    + destruct Hs as [Hs|[Hs|Hs]]; auto. right. right. apply app_not_nil_l, Hs.
    + destruct (status_set_by w e acts s Hh Hin) as (ph & Hp & Hd).
      rewrite Hp. destruct ph; auto; right; right; apply app_not_nil_l;
        destruct e; try discriminate Hd; simpl in Hh.
      * apply (Hcb id). destruct (instances w !! id); [discriminate|discriminate].
      * apply (Hcb id). destruct (instances w !! id); [discriminate|discriminate].
      * destruct (mounted w); [|discriminate]. injection Hh as <-.
        unfold handleCancel in Hin. destruct (upload (cells w)) eqn:U; in_cases Hin.
        destruct Hu as [Hu|Hu]; [discriminate|exact Hu].
      * apply (Hcb id). destruct (instances w !! id); [discriminate|discriminate].
Qed.

Lemma instances_step w e w' acts :
  step date w e = Some (w', acts) -> e = UploadClick \/ instances w' = instances w.
Proof.
  intros H. apply step_inv in H as [Hh ->].
  rewrite settle_instances, instances_after.
  destruct e; auto; right; apply handle_cases in Hh.
  - subst acts. destruct files as [[|f l]|]; simpl; apply app_nil_r.
  - subst acts. unfold handleCancel. destruct (upload (cells w)); simpl; apply app_nil_r.
  - subst acts. apply app_nil_r.
  - subst acts. apply app_nil_r.
  - destruct Hh as (u & _ & ->). apply app_nil_r.
  - destruct Hh as [_ ->]. rewrite (proj1 (settled_creates_nothing w o)).
    apply app_nil_r.
  - subst acts. unfold cleanup. destruct (upload (cells w)); apply app_nil_r.
Qed.

Lemma instances_run evs : forall w w' acts,
  run date w evs = Some (w', acts) -> In UploadClick evs \/ instances w' = instances w.
Proof.
  induction evs as [|e evs IH]; intros w w' acts H; simpl in H.
  - injection H as <- _. auto.
  - destruct (step date w e) as [[w1 a1]|] eqn:S; [|discriminate].
    destruct (run date w1 evs) as [[w2 a2]|] eqn:R; [|discriminate].
    injection H as <- _.
    destruct (IH _ _ _ R) as [Hin|E]; [left; right; exact Hin|].
    destruct (instances_step _ _ _ _ S) as [->|E']; [left; left; reflexivity|].
    right. congruence.
Qed.

Lemma started_first_run evs w acts ph :
  run date start evs = Some (w, acts) ->
  phase_of_status (uploadStatus (cells w)) = Some ph -> ph <> Idle ->
  In UploadClick evs /\ instances w <> [].
Proof.
  intros H Hp Hne.
  assert (K : started_first w).
  { eapply run_invariant; [apply started_first_step| |exact H].
    split; left; reflexivity. }
  assert (I : instances w <> []).
  { destruct K as [_ [E|[E|E]]]; [|congruence|exact E].
    rewrite E in Hp. discriminate. }
  split; [|exact I].
  destruct (instances_run _ _ _ _ H) as [Hin|E]; [exact Hin|].
  rewrite E in I. exfalso. apply I. reflexivity.
Qed.

Lemma progress_after acts : forall w,
  progress (cells (perform_all w acts)) = progress (cells w)
  \/ exists p, In (SetProgress p) acts.
Proof.
  induction acts as [|a acts IH]; intros w; [left; reflexivity|].
  change (perform_all w (a :: acts)) with (perform_all (perform w a) acts).
  destruct (IH (perform w a)) as [E|(p & Hin)].
  - rewrite E. destruct a; simpl; destruct (mounted w); simpl; eauto.
  - right. exists p. right. exact Hin.
Qed.

Lemma file_after acts : forall w,
  file (cells (perform_all w acts)) = file (cells w)
  \/ exists f, In (SetFile f) acts.
Proof.
  induction acts as [|a acts IH]; intros w; [left; reflexivity|].
  change (perform_all w (a :: acts)) with (perform_all (perform w a) acts).
  destruct (IH (perform w a)) as [E|(p & Hin)].
  - rewrite E. destruct a; simpl; destruct (mounted w); simpl; eauto.
  - right. exists p. right. exact Hin.
Qed.

(** Only a progress report and a file selection set the progress or the
    file. *)
Lemma progress_set_by w e acts :
  handle date w e = Some acts ->
  (exists p, In (SetProgress p) acts) \/ (exists f, In (SetFile f) acts) ->
  (exists id u t, e = OnProgress id u t) \/ (exists files, e = FileChange files).
Proof.
  intros H Hin. apply handle_cases in H. destruct e; eauto; exfalso.
  - subst acts. unfold handleUpload, cleanup in Hin.
    destruct (file (cells w)); destruct (upload (cells w));
      destruct Hin as [(x & Hin)|(x & Hin)]; in_cases Hin.
  - subst acts. unfold handleCancel in Hin.
    destruct (upload (cells w)); destruct Hin as [(x & Hin)|(x & Hin)]; in_cases Hin.
  - subst acts. destruct Hin as [(x & Hin)|(x & Hin)]; in_cases Hin.
  - destruct H as (u & _ & ->). destruct Hin as [(x & Hin)|(x & Hin)]; in_cases Hin.
  - destruct H as [_ ->].
    destruct Hin as [(x & Hin)|(x & Hin)];
      apply settled_actions in Hin as [(v' & E)|[E|(i' & E & _)]]; discriminate E.
  - subst acts. unfold cleanup in Hin.
    destruct (upload (cells w)); destruct Hin as [(x & Hin)|(x & Hin)]; in_cases Hin.
Qed.

(** A step that is no progress report leaves a progress of 0 at 0. *)
Lemma progress_stays_zero w e w' acts :
  step date w e = Some (w', acts) -> (forall id u t, e <> OnProgress id u t) ->
  progress (cells w) = JS.of_N 0 -> progress (cells w') = JS.of_N 0.
Proof.
  intros H Hne Hz. apply step_inv in H as [Hh ->]. rewrite settle_cells.
  destruct (progress_after acts w) as [E|P]; [congruence|].
  destruct (progress_set_by _ _ _ Hh (or_introl P)) as [(i & u & t & ->)|(fs & ->)];
    [destruct (Hne i u t eq_refl)|].
  apply handle_cases in Hh. subst acts.
  destruct fs as [[|f l]|]; [exact Hz| |exact Hz].
  unfold perform_all. simpl.
  destruct (mounted w) eqn:M; simpl; repeat (rewrite M; simpl);
    [reflexivity|exact Hz].
Qed.

(** Through the controls a cancel comes after a progress report. *)
Lemma cancel_after_progress evs : forall w0 w acts,
  progress (cells w0) = JS.of_N 0 ->
  user_run date w0 evs = Some (w, acts) ->
  In (SetUploadStatus "Upload cancelled") acts ->
  exists id u t, In (OnProgress id u t) evs.
Proof.
  induction evs as [|e evs IH]; intros w0 w acts Hz H Hin; simpl in H.
  - injection H as _ <-. destruct Hin.
  - destruct (offered w0 e) eqn:O; [|discriminate].
    destruct (step date w0 e) as [[w1 a1]|] eqn:S; [|discriminate].
    destruct (user_run date w1 evs) as [[w2 a2]|] eqn:R; [|discriminate].
    injection H as _ <-.
    assert (D : (exists id u t, e = OnProgress id u t)
                \/ forall id u t, e <> OnProgress id u t)
      by (destruct e; eauto; right; discriminate).
    destruct D as [(id & u & t & ->)|D]; [exists id, u, t; left; reflexivity|].
    apply in_app_or in Hin as [Hin|Hin].
    + exfalso. pose proof S as S'. apply step_inv in S' as [Hh _].
      destruct (status_set_by _ _ _ _ Hh Hin) as (ph & P & Dr).
      change (phase_of_status "Upload cancelled") with (Some Cancelled) in P.
      injection P as <-. destruct e; try discriminate Dr.
      unfold offered in O. apply andb_true_iff in O as [_ O].
      change (cancel_button (render (cells w0))) with (mid_progress (cells w0)) in O.
      unfold mid_progress in O. rewrite Hz in O. vm_compute in O. discriminate O.
    + destruct (IH w1 w2 a2 (progress_stays_zero _ _ _ _ S D Hz) R Hin)
        as (id & u & t & Hi).
      exists id, u, t. right. exact Hi.
Qed.

(** The status line after an event. *)
Lemma status_of_step w e w' acts :
  step date w e = Some (w', acts) -> mounted w = true ->
  uploadStatus (cells w')
  = match e with
    | FileChange (Some (_ :: _)) => "File selected"
    | UploadClick =>
        match file (cells w) with
        | Some _ => "Starting upload..."
        | None => "Please select a file first"
        end
    | CancelClick =>
        match upload (cells w) with
        | Some _ => "Upload cancelled"
        | None => uploadStatus (cells w)
        end
    | OnError _ message => "Upload failed: " ++ message
    | OnProgress _ u t =>
        "Uploading: "
        ++ JS.toFixed2 (JS.mul (JS.div (JS.of_N u) (JS.of_N t)) (JS.of_N 100)) ++ "%"
    | OnSuccess _ => "Upload complete! Video is now processing."
    | FileChange _ | Settled _ _ | Unmount => uploadStatus (cells w)
    end.
Proof.
  intros H Hm. apply step_inv in H as [Hh ->]. rewrite settle_cells.
  pose proof Hh as Hc. apply handle_cases in Hc. destruct e.
  - subst acts. destruct files as [[|f l]|]; try reflexivity.
    unfold perform_all. simpl. rewrite Hm. reflexivity.
  - subst acts. unfold handleUpload, cleanup.
    destruct (file (cells w)); destruct (upload (cells w));
      unfold perform_all; simpl; rewrite Hm; reflexivity.
  - subst acts. unfold handleCancel.
    destruct (upload (cells w)); unfold perform_all; simpl; rewrite ?Hm; reflexivity.
  - subst acts. unfold perform_all. simpl. rewrite Hm. reflexivity.
  - subst acts. unfold onProgress.
    set (pct := JS.toFixed2 _). clearbody pct.
    unfold perform_all. simpl. rewrite Hm. reflexivity.
  - destruct Hc as (u & _ & ->). unfold perform_all. simpl. rewrite Hm. reflexivity.
  - destruct (status_after acts w) as [E|(s & Hin & _)]; [exact E|].
    destruct Hc as [_ ->].
    apply settled_actions in Hin as [(v' & E)|[E|(i' & E & _)]]; discriminate E.
  - subst acts. unfold cleanup.
    destruct (upload (cells w)); unfold perform_all; simpl; rewrite ?Hm; reflexivity.
Qed.

(** C4, amended.  Every status an event sets belongs to a phase of
    idle, uploading, done, cancelled, failed, and to the phase that
    event drives: [onProgress] the uploading one, [onSuccess] the done
    one, [onError] the failed one, [handleCancel] the cancelled one,
    file selection and [handleUpload] the idle ones.  Each event sets
    its status whatever the status was, so a callback always moves the
    line to its phase and no order of the phases is kept by the
    component.  What holds over every run from the start: the status
    is the initial empty one or of a phase; it is of a phase past idle
    only after [handleUpload] has created an upload; and through the
    rendered controls ["Upload cancelled"] comes only after a progress
    report. *)
Theorem status_follows_phases :
  (forall w e w' acts s,
     step date w e = Some (w', acts) -> In (SetUploadStatus s) acts ->
     exists ph, phase_of_status s = Some ph /\ phase_driven_by e = Some ph)
  /\ (forall w e w' acts,
        step date w e = Some (w', acts) -> mounted w = true ->
        uploadStatus (cells w')
        = match e with
          | FileChange (Some (_ :: _)) => "File selected"
          | UploadClick =>
              match file (cells w) with
              | Some _ => "Starting upload..."
              | None => "Please select a file first"
              end
          | CancelClick =>
              match upload (cells w) with
              | Some _ => "Upload cancelled"
              | None => uploadStatus (cells w)
              end
          | OnError _ message => "Upload failed: " ++ message
          | OnProgress _ u t =>
              "Uploading: "
              ++ JS.toFixed2 (JS.mul (JS.div (JS.of_N u) (JS.of_N t)) (JS.of_N 100))
              ++ "%"
          | OnSuccess _ => "Upload complete! Video is now processing."
          | FileChange _ | Settled _ _ | Unmount => uploadStatus (cells w)
          end)
  /\ (forall w e w' acts,
        step date w e = Some (w', acts) -> mounted w = true ->
        (exists id u t, e = OnProgress id u t) \/ (exists id, e = OnSuccess id)
        \/ (exists id message, e = OnError id message)
        \/ (e = CancelClick /\ upload (cells w) <> None) ->
        phase_of_status (uploadStatus (cells w')) = phase_driven_by e)
  /\ (forall evs w acts,
        run date start evs = Some (w, acts) ->
        uploadStatus (cells w) = ""
        \/ exists ph, phase_of_status (uploadStatus (cells w)) = Some ph)
  /\ (forall evs w acts ph,
        run date start evs = Some (w, acts) ->
        phase_of_status (uploadStatus (cells w)) = Some ph -> ph <> Idle ->
        In UploadClick evs /\ instances w <> [])
  /\ (forall evs w acts,
        user_run date start evs = Some (w, acts) ->
        In (SetUploadStatus "Upload cancelled") acts ->
        exists id u t, In (OnProgress id u t) evs).
Proof.
  split; [|split; [|split; [|split; [|split]]]].
  - intros w e w' acts s H Hin. apply step_inv in H as [H _].
    eapply status_set_by; eassumption.
  - apply status_of_step.
  - intros w e w' acts H Hm He. rewrite (status_of_step _ _ _ _ H Hm).
    destruct He as [(id & u & t & ->)|[(id & ->)|[(id & m & ->)|[-> U]]]].
    + set (pct := JS.toFixed2 _). clearbody pct. reflexivity.
    + reflexivity.
    + reflexivity.
    + destruct (upload (cells w)); [reflexivity|contradiction].
  - intros evs w acts H.
    refine (run_invariant
              (fun w => uploadStatus (cells w) = ""
                        \/ exists ph, phase_of_status (uploadStatus (cells w)) = Some ph)
              _ evs start w acts (or_introl eq_refl) H).
    clear. intros w e w' acts Hw S.
    apply step_inv in S as [Hh ->]. rewrite settle_cells.
    destruct (status_after acts w) as [E|(s & Hin & E)]; rewrite E; [exact Hw|].
    right. destruct (status_set_by _ _ _ _ Hh Hin) as (ph & Hp & _). eauto.
  - apply started_first_run.
  - intros evs w acts H Hin.
    exact (cancel_after_progress evs start w acts eq_refl H Hin).
Qed.

(** ** What leaves the browser *)

(** Every action of a run was done by the handler of one of its events. *)
Lemma run_actions evs : forall w w' acts a,
  run date w evs = Some (w', acts) -> In a acts ->
  exists w1 e a1, In e evs /\ handle date w1 e = Some a1 /\ In a a1.
Proof.
  induction evs as [|e evs IH]; intros w w' acts a H Hin; simpl in H.
  - injection H as _ <-. destruct Hin.
  - destruct (step date w e) as [[w1 a1]|] eqn:S; [|discriminate].
    destruct (run date w1 evs) as [[w2 a2]|] eqn:R; [|discriminate].
    injection H as _ <-. apply in_app_or in Hin as [Hin|Hin].
    + apply step_inv in S as [Hh _]. exists w, e, a1. split; [left; reflexivity|auto].
    + destruct (IH _ _ _ _ R Hin) as (w3 & e3 & a3 & He & Hh & Ha).
      exists w3, e3, a3. split; [right; exact He|auto].
Qed.

Lemma constructed_app a b :
  constructed (a ++ b) = (constructed a ++ constructed b)%list.
Proof.
  induction a as [|x a IH]; [reflexivity|].
  destruct x; simpl; rewrite ?IH; reflexivity.
Qed.

Lemma own_requests_app a b :
  own_requests (a ++ b) = (own_requests a ++ own_requests b)%list.
Proof.
  induction a as [|x a IH]; [reflexivity|].
  destruct x; simpl; rewrite ?IH; reflexivity.
Qed.

(** What each event hands to the network, all of it. *)
Lemma constructed_by w e acts :
  handle date w e = Some acts ->
  constructed acts
  = match e with
    | UploadClick =>
        match file (cells w) with
        | Some f => [ToLibrary f (options date f)]
        | None => []
        end
    | OnSuccess id =>
        match instances w !! id with
        | Some u => [Sent (status_lookup date (up_file u))]
        | None => []
        end
    | _ => []
    end.
Proof.
  intros H. apply handle_cases in H. destruct e.
  - subst acts. destruct files as [[|f l]|]; reflexivity.
  - subst acts. unfold handleUpload, cleanup.
    destruct (file (cells w)); destruct (upload (cells w)); reflexivity.
  - subst acts. unfold handleCancel. destruct (upload (cells w)); reflexivity.
  - subst acts. reflexivity.
  - subst acts. reflexivity.
  - destruct H as (u & Hu & ->). rewrite Hu. reflexivity.
  - destruct H as [_ ->]. rewrite constructed_app.
    destruct (render_error_cases w (onSettled o)) as [-> | ->]; unfold onSettled, cleanup;
      destruct o as [|[data|]]; try destruct (get_mediaId data);
      destruct (upload (cells w)); reflexivity.
  - subst acts. unfold cleanup. destruct (upload (cells w)); reflexivity.
Qed.

Lemma constructed_in_run evs : forall w w' acts x,
  run date w evs = Some (w', acts) -> In x (constructed acts) ->
  (exists f, x = ToLibrary f (options date f))
  \/ (exists f, x = Sent (status_lookup date f)).
Proof.
  induction evs as [|e evs IH]; intros w w' acts x H Hin; simpl in H.
  - injection H as _ <-. destruct Hin.
  - destruct (step date w e) as [[w1 a1]|] eqn:S; [|discriminate].
    destruct (run date w1 evs) as [[w2 a2]|] eqn:R; [|discriminate].
    injection H as _ <-. rewrite constructed_app in Hin.
    apply in_app_or in Hin as [Hin|Hin]; [|eapply IH; eassumption].
    apply step_inv in S as [Hh _]. rewrite (constructed_by _ _ _ Hh) in Hin.
    destruct e; try destruct Hin.
    + destruct (file (cells w)); in_cases Hin. subst x. eauto.
    + destruct (instances w !! id); in_cases Hin. subst x. eauto.
Qed.

(** The instances of a run stay and more may come. *)
Lemma instances_grow evs : forall w w' acts,
  run date w evs = Some (w', acts) ->
  exists more, instances w' = (instances w ++ more)%list.
Proof.
  induction evs as [|e evs IH]; intros w w' acts H; simpl in H.
  - injection H as <- _. exists []. symmetry. apply app_nil_r.
  - destruct (step date w e) as [[w1 a1]|] eqn:S; [|discriminate].
    destruct (run date w1 evs) as [[w2 a2]|] eqn:R; [|discriminate].
    injection H as <- _. destruct (IH _ _ _ R) as (more & E).
    apply step_inv in S as [_ ->].
    rewrite settle_instances, instances_after in E.
    exists (created a1 ++ more)%list. rewrite E, app_assoc. reflexivity.
Qed.

(** The component's own requests are the lookups of the successes. *)
Lemma own_requests_run evs : forall w w' acts,
  run date w evs = Some (w', acts) ->
  own_requests acts = lookups_of date (instances w') evs.
Proof.
  induction evs as [|e evs IH]; intros w w' acts H; simpl in H.
  - injection H as _ <-. reflexivity.
  - destruct (step date w e) as [[w1 a1]|] eqn:S; [|discriminate].
    destruct (run date w1 evs) as [[w2 a2]|] eqn:R; [|discriminate].
    injection H as <- <-. rewrite own_requests_app, (IH _ _ _ R).
    unfold lookups_of. cbn [flat_map]. f_equal.
    destruct (instances_grow _ _ _ _ R) as (more & E).
    pose proof S as S'. apply step_inv in S' as [Hh ->].
    rewrite settle_instances, instances_after in E.
    destruct (requests_by _ _ _ Hh) as [Q|(id & u & -> & Hu & Q)]; rewrite Q.
    + destruct e; try reflexivity.
      apply handle_cases in Hh as (u & Hu & ->). discriminate Q.
    + rewrite E. rewrite <- app_assoc.
      rewrite (lookup_app_l_Some _ _ _ _ Hu). reflexivity.
Qed.

Lemma lookups_are_plain us evs r :
  In r (lookups_of date us evs) ->
  Proxy.method r = "GET" /\ Proxy.body r = "" /\ Proxy.headers r = []
  /\ is_tus_request r = false.
Proof.
  unfold lookups_of. intros H. apply in_flat_map in H as (e & _ & H).
  destruct e; try destruct H. destruct (us !! id); in_cases H. subst r. auto.
Qed.

(** C3, amended.  Over every run, what the component hands to the
    network is the file with the [options] of [handleUpload], which
    name the proxy endpoint [http://localhost:3001/api/upload], no
    header and the metadata [name], [type] and [allowedorigins], and
    the status lookup, a GET of the origin-relative URL
    [/api/upload/status?filename=...] without header or body: no
    [Authorization] on either, and nothing in them that is not made of
    the file and the date.  [App.tsx] has no token in it, so all of
    this, field by field, is the same under any two tokens.  The token
    enters on the server: what it forwards under two tokens differs in
    the value of [Authorization] and in nothing else, and every
    forwarded request carries [Authorization: Bearer <token>]. *)
Theorem credential_stays_on_server :
  (forall secrets evs l x,
     outgoing (deploy date secrets) evs = Some l -> In x l ->
     match x with
     | ToLibrary f o =>
         o = options date f
         /\ endpoint o = "http://localhost:3001/api/upload"
         /\ headers o = []
         /\ map fst (metadata o) = ["name"; "type"; "allowedorigins"]
     | Sent r =>
         (exists f, r = status_lookup date f)
         /\ Proxy.method r = "GET" /\ Proxy.body r = "" /\ Proxy.headers r = []
         /\ Proxy.getHeader "Authorization" (Proxy.headers r) = None
     end)
  /\ (forall account token1 token2 evs,
        outgoing (deploy date (Proxy.mkSecrets account token1)) evs
        = outgoing (deploy date (Proxy.mkSecrets account token2)) evs
        /\ client (deploy date (Proxy.mkSecrets account token1)) evs
           = client (deploy date (Proxy.mkSecrets account token2)) evs)
  /\ (forall account token1 token2 req,
        match server (deploy date (Proxy.mkSecrets account token1)) req,
              server (deploy date (Proxy.mkSecrets account token2)) req with
        | Proxy.Forwarded to1 r1, Proxy.Forwarded to2 r2 =>
            to1 = to2 /\ Proxy.method r1 = Proxy.method r2
            /\ Proxy.url r1 = Proxy.url r2 /\ Proxy.body r1 = Proxy.body r2
            /\ exists others,
                 Proxy.headers r1 = ("Authorization", "Bearer " ++ token1) :: others
                 /\ Proxy.headers r2 = ("Authorization", "Bearer " ++ token2) :: others
                 /\ Proxy.getHeader "authorization" others = None
        | Proxy.Answered s1, Proxy.Answered s2 => s1 = s2
        | Proxy.Unhandled, Proxy.Unhandled => True
        | _, _ => False
        end)
  /\ (forall secrets req target r,
        server (deploy date secrets) req = Proxy.Forwarded target r ->
        Proxy.getHeader "Authorization" (Proxy.headers r)
        = Some ("Bearer " ++ Proxy.API_TOKEN secrets)).
Proof.
  split; [|split; [|split]].
  - intros secrets evs l x H Hin. unfold deploy, outgoing in H.
    destruct (run date start evs) as [[w acts]|] eqn:R; [|discriminate].
    injection H as <-. cbn [snd] in Hin.
    destruct (constructed_in_run _ _ _ _ _ R Hin) as [(f & ->)|(f & ->)].
    + repeat split.
    + split; [eauto|]. repeat split.
  - intros account token1 token2 evs. split; reflexivity.
  - intros account token1 token2 req. apply tokens_differ_in_one_header.
  - intros secrets req target r H. unfold deploy, server, Proxy.app, Proxy.cors in H.
    destruct (String.eqb (Proxy.method req) "OPTIONS"); [discriminate|].
    destruct (Proxy.mounted_at _ _); [|discriminate].
    rewrite tusProxy_forwards in H. injection H as _ <-. reflexivity.
Qed.

(** C7.  The component's dealings with the protocol are calls into
    tus-js-client, and these are all of them: [new tus.Upload] and
    [start] in [handleUpload], [abort] in [handleCancel] and in the
    effect's [cleanup]; no callback calls the library.  The requests
    the component sends itself over a run are the status lookups of
    its successes, one for each and nothing else, each a GET without
    body, headers or tus version: none is a tus request.  The proxy
    hands a request on with its method, its body and every header that
    neither http-proxy nor [onProxyReq] writes, the tus headers among
    them, and of a response [onProxyRes] touches the media-id header
    alone. *)
Theorem tus_is_left_to_the_library :
  (forall w e w' acts,
     step date w e = Some (w', acts) ->
     library_calls acts
     = match e with
       | UploadClick =>
           match file (cells w) with
           | Some f =>
               [TusNew (length (instances w)) f (options date f);
                TusStart (length (instances w))] ++ cleanup (cells w)
           | None => []
           end
       | CancelClick | Unmount => cleanup (cells w)
       | Settled _ o => render_error w (onSettled o)
       | _ => []
       end%list)
  /\ (forall evs w acts,
        run date start evs = Some (w, acts) ->
        own_requests acts = lookups_of date (instances w) evs
        /\ forall r,
             In r (own_requests acts) ->
             Proxy.method r = "GET" /\ Proxy.body r = "" /\ Proxy.headers r = []
             /\ is_tus_request r = false)
  /\ (forall secrets req,
        exists r,
          Proxy.tusProxy secrets req = Proxy.Forwarded "https://api.cloudflare.com" r
          /\ Proxy.method r = Proxy.method req
          /\ Proxy.body r = Proxy.body req
          /\ is_tus_request r = is_tus_request req
          /\ (forall h,
                written_header h = false ->
                Proxy.getHeader h (Proxy.headers r)
                = Proxy.getHeader h (Proxy.headers req))
          /\ (Proxy.method req <> "DELETE" -> Proxy.method req <> "OPTIONS" ->
              forall h,
                Proxy.same_header h "authorization" = false ->
                Proxy.same_header h "host" = false ->
                Proxy.same_header h "connection" = false ->
                Proxy.getHeader h (Proxy.headers r)
                = Proxy.getHeader h (Proxy.headers req)))
  /\ (forall up down h,
        Proxy.same_header h "stream-media-id" = false ->
        Proxy.getHeader h (Proxy.onProxyRes up down) = Proxy.getHeader h down).
Proof.
  split; [|split; [|split]].
  - intros w e w' acts H. apply step_inv in H as [H _].
    apply library_calls_of. exact H.
  - intros evs w acts H. pose proof (own_requests_run _ _ _ _ H) as E.
    split; [exact E|]. intros r Hr. rewrite E in Hr.
    eapply lookups_are_plain. exact Hr.
  - intros secrets req. eexists. split; [apply tusProxy_forwards|].
    cbn [Proxy.method Proxy.body Proxy.headers].
    assert (G : forall h,
               written_header h = false ->
               Proxy.getHeader h
                 (Proxy.setHeader "Authorization" ("Bearer " ++ Proxy.API_TOKEN secrets)
                    (Proxy.setHeader "host" "api.cloudflare.com"
                       (Proxy.setConnection
                          (Proxy.deleteLength (Proxy.method req) (Proxy.headers req)))))
               = Proxy.getHeader h (Proxy.headers req)).
    { intros h Hw. apply written_header_false in Hw as (H1 & H2 & H3 & H4 & H5).
      apply forwarded_header_kept; auto. }
    split; [reflexivity|]. split; [reflexivity|]. split; [|split; [exact G|]].
    + unfold is_tus_request. cbn [Proxy.headers]. rewrite G by reflexivity. reflexivity.
    + intros Hd Ho h H1 H2 H3. apply forwarded_header_kept; auto.
  - intros up down h Hh. unfold Proxy.onProxyRes.
    destruct (Proxy.getHeader "stream-media-id" up) as [v|]; [|reflexivity].
    destruct (String.eqb v ""); [reflexivity|].
    apply getHeader_setHeader_other. exact Hh.
Qed.

End Properties.

(** * The proxy's properties *)

Section ProxyProperties.

Variable secrets : Proxy.Secrets.

(** C2, amended.  Take a request that is not an [OPTIONS] preflight and
    whose path is [/api/upload] or continues it with a [/], its target
    being in the printable ASCII of a URI, and an account id that is
    one plain path segment.  It is forwarded to
    [https://api.cloudflare.com], method and body as they came, with
    the prefix [/api/upload] of its URL replaced by
    [/client/v4/accounts/<ACCOUNT_ID>/stream]; in the path that follows
    http-proxy makes one slash of every run of slashes (and puts the
    two slashes of an [http:/] back), and the query is kept as it
    came.  [Authorization] is set to [Bearer <API_TOKEN>], whatever the
    client had put under that name, and no other header of that name
    goes out. *)
Theorem proxy_forwards_uploads (req : Proxy.Request) (x : string) :
  Proxy.method req <> "OPTIONS" ->
  Proxy.pathname (Proxy.url req) = "/api/upload" ++ x ->
  x = "" \/ (exists y, x = String "/" y) ->
  plain_target (Proxy.url req) = true ->
  plain_id (Proxy.ACCOUNT_ID secrets) = true ->
  exists query r,
    Proxy.url req = "/api/upload" ++ x ++ query
    /\ (query = "" \/ exists q, query = String "?" q)
    /\ Proxy.app secrets req = Proxy.Forwarded "https://api.cloudflare.com" r
    /\ Proxy.method r = Proxy.method req /\ Proxy.body r = Proxy.body req
    /\ Proxy.url r
       = Proxy.restore_scheme
           ("/client/v4/accounts/" ++ Proxy.ACCOUNT_ID secrets ++ "/stream"
            ++ Proxy.collapse_slashes x)
         ++ query
    /\ (all_chars (is_not ":") x = true ->
        Proxy.url r
        = "/client/v4/accounts/" ++ Proxy.ACCOUNT_ID secrets ++ "/stream"
          ++ Proxy.collapse_slashes x ++ query)
    /\ (all_chars (is_not ":") x = true -> tidy x = true ->
        Proxy.url r
        = "/client/v4/accounts/" ++ Proxy.ACCOUNT_ID secrets ++ "/stream"
          ++ x ++ query)
    /\ Proxy.getHeader "authorization" (Proxy.headers r)
       = Some ("Bearer " ++ Proxy.API_TOKEN secrets)
    /\ (forall k v,
          In (k, v) (Proxy.headers r) -> Proxy.same_header k "authorization" = true ->
          k = "Authorization" /\ v = "Bearer " ++ Proxy.API_TOKEN secrets).
Proof.
  intros Hm Hp Hx _ Hid.
  set (query := match snd (JS.split_at "?" (Proxy.url req)) with
                | Some r => String "?" r | None => "" end).
  assert (Hq : query = "" \/ exists q, query = String "?" q)
    by (unfold query; destruct (snd _); eauto).
  assert (Hu : Proxy.url req = "/api/upload" ++ x ++ query).
  { rewrite (split_at_join "?" (Proxy.url req)) at 1. fold query.
    unfold Proxy.pathname in Hp. rewrite Hp. rewrite append_assoc. reflexivity. }
  assert (Hn : all_chars (is_not "?") x = true).
  { pose proof (split_at_fst_absent "?" (Proxy.url req)) as A.
    unfold Proxy.pathname in Hp. rewrite Hp, all_chars_app in A.
    apply andb_true_iff in A as [_ A]. exact A. }
  exists query. eexists. split; [exact Hu|]. split; [exact Hq|].
  split.
  { unfold Proxy.app, Proxy.cors.
    destruct (String.eqb (Proxy.method req) "OPTIONS") eqn:E;
      [apply String.eqb_eq in E; contradiction|].
    assert (Hmount : Proxy.mounted_at "/api/upload" (Proxy.pathname (Proxy.url req)) = true).
    { rewrite Hp. destruct Hx as [->|(y & ->)]; reflexivity. }
    rewrite Hmount. apply tusProxy_forwards. }
  cbn [Proxy.method Proxy.body Proxy.url Proxy.headers].
  split; [reflexivity|]. split; [reflexivity|].
  rewrite Hu, (pathRewrite_plain secrets _ Hid).
  split; [apply (joined_rewritten secrets _ _ Hid Hn Hx Hq)|].
  split; [intros Hc; apply (joined_rewritten_clean secrets _ _ Hid Hn Hx Hq Hc)|].
  split.
  { intros Hc Ht. rewrite (joined_rewritten_clean secrets _ _ Hid Hn Hx Hq Hc).
    rewrite (collapse_tidy _ Ht). reflexivity. }
  split; [reflexivity|].
  intros k v. apply authorization_is_the_servers.
Qed.

End ProxyProperties.

(** * Instances *)

(** C2 as stated fails: a path that merely begins with [/api/upload]
    is not under the mount, and [cors()] answers a preflight itself. *)
Lemma proxy_skips_some_requests :
  (starts_with "/api/upload" (Proxy.pathname "/api/uploads") = true
   /\ Proxy.app Proxy.placeholders (Proxy.mkRequest "GET" "/api/uploads" [] "")
      = Proxy.Unhandled)
  /\ (starts_with "/api/upload" (Proxy.pathname "/api/upload") = true
      /\ Proxy.app Proxy.placeholders (Proxy.mkRequest "OPTIONS" "/api/upload" [] "")
         = Proxy.Answered 204).
Proof. repeat split. Qed.

(** C3 as stated fails: the media-id lookup goes to a second URL. *)
Lemma frontend_also_addresses_status_url :
  exists l u hs,
    client (deploy sample_date Proxy.placeholders)
      [FileChange (Some [sample_file]); UploadClick; OnSuccess 0] = Some l
    /\ In (u, hs) l
    /\ u = "/api/upload/status?filename=2025-3-14_9-30-5%20-%20holiday%20clip.mp4"
    /\ u <> "http://localhost:3001/api/upload".
Proof.
  eexists _, _, _. split; [vm_compute; reflexivity|].
  split; [right; left; reflexivity|]. split; [reflexivity|discriminate].
Qed.

(** C4 as stated fails: the order idle, uploading, then done, cancelled
    or failed is the library's, not the component's.  An upload that
    fails before any progress is reported takes the status from idle
    straight to failed. *)
Lemma failure_without_progress :
  run sample_date start failing_events
  = Some (fst (outcome failing_events), snd (outcome failing_events))
  /\ statuses (snd (outcome failing_events))
     = ["File selected"; "Starting upload..."; "Upload failed: connection refused"]
  /\ map phase_of_status (statuses (snd (outcome failing_events)))
     = [Some Idle; Some Idle; Some Failed].
Proof. repeat split; vm_compute; reflexivity. Qed.

(** C5 as stated fails: when the lookup of a later upload fails, the
    media id is not empty but still the earlier upload's, and the block
    is on the page. *)
Lemma stale_media_id_stays_shown :
  run sample_date start stale_events
  = Some (fst (outcome stale_events), snd (outcome stale_events))
  /\ In (Settled 1 NetworkError) stale_events
  /\ mediaId (cells (fst (outcome stale_events))) = VString "abc123"
  /\ option_map media_info (shown (fst (outcome stale_events)))
     = Some (Some (VString "abc123")).
Proof. repeat split; vm_compute; auto 10. Qed.

(** The sample session runs, and ends in [sample_world 5]. *)
Lemma sample_run :
  run sample_date start sample_events = Some (sample_world 5, sample_log).
Proof. vm_compute. reflexivity. Qed.

Lemma sample_world_3_mounted : mounted (sample_world 3) = true.
Proof. vm_compute. reflexivity. Qed.

Lemma sample_world_3_upload : upload (cells (sample_world 3)) = Some 0%nat.
Proof. vm_compute. reflexivity. Qed.

(** C1 at the sample file, and at a cancel and an unmount in the middle
    of its upload. *)
Lemma upload_options_and_recovery_witness :
  file (cells (sample_world 1)) = Some sample_file
  /\ (exists o,
        handleUpload sample_date (cells (sample_world 1)) 0
        = [ConsoleLog [name sample_file; "FILENAME >>>>>>>>>>>>"];
           SetUploadStatus "Starting upload...";
           TusNew 0 sample_file o;
           SetUpload 0;
           TusStart 0]
        /\ retryDelays o = [0; 3000; 5000; 10000; 20000]%N
        /\ chunkSize o = (50 * 1024 * 1024)%N)
  /\ mounted (sample_world 3) = true
  /\ upload (cells (sample_world 3)) = Some 0%nat
  /\ (exists w', step sample_date (sample_world 3) CancelClick
                 = Some (w', [TusAbort 0; SetUploadStatus "Upload cancelled"]))
  /\ (exists w', step sample_date (sample_world 3) Unmount = Some (w', [TusAbort 0])
                 /\ mounted w' = false).
Proof.
  assert (F : file (cells (sample_world 1)) = Some sample_file)
    by (vm_compute; reflexivity).
  split; [exact F|].
  split; [exact (proj1 (upload_options_and_recovery sample_date)
                   (cells (sample_world 1)) sample_file 0%nat F)|].
  split; [exact sample_world_3_mounted|]. split; [exact sample_world_3_upload|].
  exact (proj1 (proj2 (proj2 (proj2 (upload_options_and_recovery sample_date))))
           (sample_world 3) 0%nat sample_world_3_mounted sample_world_3_upload).
Defined.

(** C2 at a chunk request under the mount. *)
Lemma proxy_forwards_uploads_witness :
  Proxy.method sample_request <> "OPTIONS"
  /\ Proxy.pathname (Proxy.url sample_request) = "/api/upload" ++ "/4f2a"
  /\ plain_target (Proxy.url sample_request) = true
  /\ plain_id (Proxy.ACCOUNT_ID Proxy.placeholders) = true
  /\ exists query r,
       Proxy.url sample_request = "/api/upload" ++ "/4f2a" ++ query
       /\ Proxy.app Proxy.placeholders sample_request
          = Proxy.Forwarded "https://api.cloudflare.com" r
       /\ Proxy.url r
          = "/client/v4/accounts/" ++ Proxy.ACCOUNT_ID Proxy.placeholders
            ++ "/stream" ++ "/4f2a" ++ query
       /\ Proxy.getHeader "authorization" (Proxy.headers r)
          = Some ("Bearer " ++ Proxy.API_TOKEN Proxy.placeholders).
Proof.
  assert (M : Proxy.method sample_request <> "OPTIONS") by discriminate.
  assert (P : Proxy.pathname (Proxy.url sample_request) = "/api/upload" ++ "/4f2a")
    by reflexivity.
  assert (T : plain_target (Proxy.url sample_request) = true) by reflexivity.
  assert (I : plain_id (Proxy.ACCOUNT_ID Proxy.placeholders) = true) by reflexivity.
  split; [exact M|]. split; [exact P|]. split; [exact T|]. split; [exact I|].
  destruct (proxy_forwards_uploads Proxy.placeholders sample_request "/4f2a" M P
              (or_intror (ex_intro _ "4f2a" eq_refl)) T I)
    as (query & r & Hu & _ & Ha & _ & _ & _ & _ & Hc & Hg & _).
  exists query, r. split; [exact Hu|]. split; [exact Ha|].
  split; [exact (Hc eq_refl eq_refl)|exact Hg].
Defined.

Lemma sample_outgoing :
  outgoing (deploy sample_date Proxy.placeholders) sample_events
  = Some [ToLibrary sample_file (options sample_date sample_file);
          Sent (status_lookup sample_date sample_file)].
Proof. vm_compute. reflexivity. Qed.

Lemma sample_forwarded :
  server (deploy sample_date Proxy.placeholders) sample_request
  = Proxy.Forwarded "https://api.cloudflare.com"
      {| Proxy.method := "PATCH";
         Proxy.url := "/client/v4/accounts/<ACCOUNT_ID>/stream/4f2a?resume=1";
         Proxy.headers := [("Authorization", "Bearer <API_TOKEN>");
                           ("host", "api.cloudflare.com");
                           ("connection", "close");
                           ("tus-resumable", "1.0.0");
                           ("upload-offset", "0")];
         Proxy.body := "chunk" |}.
Proof. vm_compute. reflexivity. Qed.

(** C3 at the sample session, and at a chunk request that came with a
    guessed token. *)
Lemma credential_stays_on_server_witness :
  outgoing (deploy sample_date Proxy.placeholders) sample_events
  = Some [ToLibrary sample_file (options sample_date sample_file);
          Sent (status_lookup sample_date sample_file)]
  /\ (options sample_date sample_file = options sample_date sample_file
      /\ endpoint (options sample_date sample_file) = "http://localhost:3001/api/upload"
      /\ headers (options sample_date sample_file) = []
      /\ map fst (metadata (options sample_date sample_file))
         = ["name"; "type"; "allowedorigins"])
  /\ ((exists f, status_lookup sample_date sample_file = status_lookup sample_date f)
      /\ Proxy.method (status_lookup sample_date sample_file) = "GET"
      /\ Proxy.body (status_lookup sample_date sample_file) = ""
      /\ Proxy.headers (status_lookup sample_date sample_file) = []
      /\ Proxy.getHeader "Authorization"
           (Proxy.headers (status_lookup sample_date sample_file)) = None)
  /\ Proxy.getHeader "authorization" (Proxy.headers sample_request) = Some "Bearer guess"
  /\ Proxy.getHeader "Authorization"
       [("Authorization", "Bearer <API_TOKEN>");
        ("host", "api.cloudflare.com");
        ("connection", "close");
        ("tus-resumable", "1.0.0");
        ("upload-offset", "0")]
     = Some ("Bearer " ++ Proxy.API_TOKEN Proxy.placeholders).
Proof.
  split; [exact sample_outgoing|]. split.
  - exact (proj1 (credential_stays_on_server sample_date)
             Proxy.placeholders sample_events _
             (ToLibrary sample_file (options sample_date sample_file))
             sample_outgoing (or_introl eq_refl)).
  - split.
    + exact (proj1 (credential_stays_on_server sample_date)
               Proxy.placeholders sample_events _
               (Sent (status_lookup sample_date sample_file))
               sample_outgoing (or_intror (or_introl eq_refl))).
    + split; [reflexivity|].
      exact (proj2 (proj2 (proj2 (credential_stays_on_server sample_date)))
               Proxy.placeholders sample_request _ _ sample_forwarded).
Defined.

Lemma failing_step :
  step sample_date (sample_world 3) (OnError 0 "timeout")
  = Some (fst (outcome_from (sample_world 3) [OnError 0 "timeout"]),
          snd (outcome_from (sample_world 3) [OnError 0 "timeout"])).
Proof. vm_compute. reflexivity. Qed.

(** C4 at a failure in the middle of the sample upload. *)
Lemma status_follows_phases_witness :
  step sample_date (sample_world 3) (OnError 0 "timeout")
  = Some (fst (outcome_from (sample_world 3) [OnError 0 "timeout"]),
          snd (outcome_from (sample_world 3) [OnError 0 "timeout"]))
  /\ mounted (sample_world 3) = true
  /\ uploadStatus (cells (fst (outcome_from (sample_world 3) [OnError 0 "timeout"])))
     = "Upload failed: timeout"
  /\ phase_of_status
       (uploadStatus (cells (fst (outcome_from (sample_world 3) [OnError 0 "timeout"]))))
     = Some Failed.
Proof.
  split; [exact failing_step|]. split; [exact sample_world_3_mounted|]. split.
  - exact (proj1 (proj2 (status_follows_phases sample_date)) _ _ _ _
             failing_step sample_world_3_mounted).
  - exact (proj1 (proj2 (proj2 (status_follows_phases sample_date))) _ _ _ _
             failing_step sample_world_3_mounted
             (or_intror (or_intror (or_introl (ex_intro _ 0%nat
                (ex_intro _ "timeout" eq_refl)))))).
Defined.

Lemma sample_world_4_mounted : mounted (sample_world 4) = true.
Proof. vm_compute. reflexivity. Qed.

Lemma sample_world_4_pending :
  fetches (sample_world 4) !! 0%nat = Some (sample_status_url, true).
Proof. vm_compute. reflexivity. Qed.

(** C5 at the answer to the lookup of the sample session. *)
Lemma mediaId_from_status_lookup_witness :
  mounted (sample_world 4) = true
  /\ fetches (sample_world 4) !! 0%nat = Some (sample_status_url, true)
  /\ get_mediaId (VObject [("mediaId", VString "abc123")]) = Some (VString "abc123")
  /\ exists w',
       step sample_date (sample_world 4)
         (Settled 0 (Body (Some (VObject [("mediaId", VString "abc123")]))))
       = Some (w', [SetMediaId (VString "abc123")])
       /\ mediaId (cells w') = VString "abc123"
       /\ option_map media_info (shown w') = Some (Some (VString "abc123")).
Proof.
  split; [exact sample_world_4_mounted|]. split; [exact sample_world_4_pending|].
  split; [reflexivity|].
  destruct (proj1 (proj2 (proj2 (mediaId_from_status_lookup sample_date)))
              (sample_world 4) 0%nat sample_status_url
              (VObject [("mediaId", VString "abc123")]) (VString "abc123")
              sample_world_4_mounted sample_world_4_pending eq_refl)
    as (w' & acts & S & M & _ & V & _).
  destruct (V eq_refl eq_refl) as [-> I].
  exists w'. split; [exact S|]. split; [exact M|exact I].
Defined.


(** C7 over the sample session. *)
Lemma tus_is_left_to_the_library_witness :
  run sample_date start sample_events = Some (sample_world 5, sample_log)
  /\ own_requests sample_log
     = lookups_of sample_date (instances (sample_world 5)) sample_events
  /\ forall r,
       In r (own_requests sample_log) ->
       Proxy.method r = "GET" /\ Proxy.body r = "" /\ Proxy.headers r = []
       /\ is_tus_request r = false.
Proof.
  split; [exact sample_run|].
  exact (proj1 (proj2 (tus_is_left_to_the_library sample_date))
           sample_events (sample_world 5) sample_log sample_run).
Defined.

(** C8 at the start. *)
Lemma handleUpload_without_file_witness :
  file initial = None
  /\ handleUpload sample_date initial 0 = [SetUploadStatus "Please select a file first"]
  /\ exists w',
       step sample_date start UploadClick
       = Some (w', [SetUploadStatus "Please select a file first"])
       /\ uploadStatus (cells w') = "Please select a file first"
       /\ instances w' = [] /\ fetches w' = [].
Proof.
  split; [reflexivity|].
  destruct (handleUpload_without_file sample_date initial 0 eq_refl) as [H G].
  split; [exact H|].
  destruct (G start eq_refl eq_refl) as (w' & S & U & _ & _ & _ & _ & I & F).
  exists w'. split; [exact S|]. split; [exact U|]. split; [exact I|exact F].
Defined.

(** C9 at the sample session. *)
Lemma lookup_name_is_metadata_name_witness :
  run sample_date start sample_events = Some (sample_world 5, sample_log)
  /\ instances (sample_world 5) !! 0%nat
     = Some (mkUpload sample_file (options sample_date sample_file))
  /\ exists registered param,
       get_property "name"
         (metadata (up_options (mkUpload sample_file (options sample_date sample_file))))
       = Some registered
       /\ registered
          = timestamp sample_date ++ " - "
            ++ name (up_file (mkUpload sample_file (options sample_date sample_file)))
       /\ handle sample_date (sample_world 5) (OnSuccess 0)
          = Some [SetUploadStatus "Upload complete! Video is now processing.";
                  Fetch ("/api/upload/status?filename=" ++ param)]
       /\ param = URI.encodeURIComponent registered
       /\ URI.percent_decode param = Some registered.
Proof.
  assert (L : instances (sample_world 5) !! 0%nat
              = Some (mkUpload sample_file (options sample_date sample_file)))
    by (vm_compute; reflexivity).
  split; [exact sample_run|]. split; [exact L|].
  exact (proj2 (lookup_name_is_metadata_name sample_date)
           sample_events (sample_world 5) sample_log 0%nat _ sample_run L).
Defined.

(** C10 half way through the sample upload. *)
Lemma buttons_follow_progress_witness :
  JS.ltb (JS.of_N 0) (progress (cells (sample_world 3))) = true
  /\ JS.ltb (progress (cells (sample_world 3))) (JS.of_N 100) = true
  /\ upload_disabled (render (cells (sample_world 3))) = true
  /\ cancel_button (render (cells (sample_world 3))) = true
  /\ user_run sample_date (sample_world 3) [UploadClick] = None.
Proof.
  assert (M : JS.ltb (JS.of_N 0) (progress (cells (sample_world 3))) = true
              /\ JS.ltb (progress (cells (sample_world 3))) (JS.of_N 100) = true)
    by (split; vm_compute; reflexivity).
  destruct (buttons_follow_progress sample_date (cells (sample_world 3)))
    as (D & C & _ & U).
  split; [apply M|]. split; [apply M|].
  split; [apply D; right; exact M|].
  split; [apply C; exact M|].
  exact (proj1 (U (sample_world 3) eq_refl) M).
Defined.

(** * Further properties *)

(** ** Quotients that binary64 holds exactly *)

Lemma rne_multiple q d : 0 < d -> JS.rne (q * d) d = q.
Proof.
  intros Hd. unfold JS.rne. rewrite Z.div_mul, Z.mod_mul by lia.
  replace (2 * 0 <? d) with true by (symmetry; apply Z.ltb_lt; lia). reflexivity.
Qed.

(** A rational that 53 bits and an exponent between [-53] and [0] hold
    is its own binary64 value. *)
Lemma round64_dyadic a b n j :
  0 < b -> 0 <= n < 2 ^ 53 -> -53 <= j <= 0 -> a * 2 ^ (- j) = n * b ->
  exists m e,
    JS.round64 a b = JS.Fin m e /\ e <= 0
    /\ Z.of_N m * 2 ^ (- j) = n * 2 ^ (- e).
Proof.
  intros Hb Hn Hj H.
  pose proof (pow2_pos (- j) ltac:(lia)) as Pj.
  unfold JS.round64.
  destruct (a <=? 0) eqn:C0.
  { apply Z.leb_le in C0. exists 0%N, 0. split; [reflexivity|]. split; [lia|].
    simpl Z.of_N. nia. }
  apply Z.leb_gt in C0.
  assert (Hlog : JS.ilog2 a b < 53 + j).
  { apply ilog2_upper; try lia.
    pose proof (pow2_pos (53 + j) ltac:(lia)) as P.
    assert (E : 2 ^ 53 = 2 ^ (53 + j) * 2 ^ (- j))
      by (rewrite <- Z.pow_add_r by lia; f_equal; lia).
    rewrite E in Hn.
    apply (Z.mul_lt_mono_pos_r (2 ^ (- j))); [exact Pj|].
    rewrite H. nia. }
  set (e0 := Z.max (JS.ilog2 a b - 52) (-1074)).
  assert (He0 : e0 <= j) by (unfold e0; lia).
  assert (He0' : -1074 <= e0) by (unfold e0; lia).
  pose proof (pow2_pos (j - e0) ltac:(lia)) as Pje.
  pose proof (pow2_pos (- e0) ltac:(lia)) as Pe.
  assert (Ee : 2 ^ (- e0) = 2 ^ (j - e0) * 2 ^ (- j))
    by (rewrite <- Z.pow_add_r by lia; f_equal; lia).
  assert (Hs : exists d, JS.scale a b e0 = (n * 2 ^ (j - e0) * d, d) /\ 0 < d).
  { unfold JS.scale. destruct (0 <=? e0) eqn:C.
    - apply Z.leb_le in C. assert (e0 = 0) by lia. assert (j = 0) by lia. subst j.
      replace e0 with 0 in * by lia. simpl in *. exists (b * 1).
      split; [f_equal; lia|lia].
    - exists b. split; [|lia]. f_equal. rewrite Ee. nia. }
  destruct Hs as (d & -> & Hd). rewrite rne_multiple by exact Hd.
  set (m0 := n * 2 ^ (j - e0)).
  assert (Hm0 : m0 * 2 ^ (- j) = n * 2 ^ (- e0)) by (unfold m0; rewrite Ee; lia).
  assert (0 <= m0) by (unfold m0; nia).
  destruct (m0 =? 2 ^ 53) eqn:C1.
  - apply Z.eqb_eq in C1.
    assert (e0 < 0).
    { destruct (Z.eq_dec e0 0) as [E|]; [|lia]. assert (j = 0) by lia.
      subst j. rewrite E in Hm0. simpl in Hm0. lia. }
    replace (971 <? e0 + 1) with false by (symmetry; apply Z.ltb_ge; lia).
    exists (Z.to_N (2 ^ 52)), (e0 + 1). split; [reflexivity|]. split; [lia|].
    rewrite Z2N.id by lia.
    replace (- e0) with (1 + - (e0 + 1)) in Hm0 by lia.
    rewrite Z.pow_add_r in Hm0 by lia.
    change (2 ^ 1) with 2 in Hm0. rewrite C1 in Hm0.
    change (2 ^ 53) with (2 * 2 ^ 52) in Hm0. lia.
  - destruct (m0 =? 0) eqn:C2.
    + apply Z.eqb_eq in C2. exists 0%N, 0. split; [reflexivity|]. split; [lia|].
      rewrite C2 in Hm0. simpl. nia.
    + replace (971 <? e0) with false by (symmetry; apply Z.ltb_ge; lia).
      exists (Z.to_N m0), e0. split; [reflexivity|]. rewrite Z2N.id by lia. lia.
Qed.

Lemma hundredths_nonpos m e :
  e <= 0 ->
  JS.hundredths (JS.Fin m e) = (200 * Z.of_N m + 2 ^ (- e)) / (2 * 2 ^ (- e)).
Proof.
  intros He. destruct (Z.eq_dec e 0) as [->|Hne].
  - rewrite hundredths_integral by lia.
    change (2 ^ (- 0)) with 1. change (2 ^ 0) with 1. change (2 * 1) with 2.
    replace (200 * Z.of_N m + 1) with ((100 * Z.of_N m) * 2 + 1) by lia.
    rewrite half_up_even. lia.
  - apply hundredths_fraction. lia.
Qed.

(** The hundredths of a number known by its value [n * 2^j]. *)
Lemma hundredths_dyadic m e n j :
  e <= 0 -> j <= 0 -> Z.of_N m * 2 ^ (- j) = n * 2 ^ (- e) ->
  JS.hundredths (JS.Fin m e) = (200 * n + 2 ^ (- j)) / (2 * 2 ^ (- j)).
Proof.
  intros He Hj H. rewrite hundredths_nonpos by exact He.
  pose proof (pow2_pos (- e) ltac:(lia)) as Pe.
  pose proof (pow2_pos (- j) ltac:(lia)) as Pj.
  rewrite <- (Z.div_mul_cancel_r (200 * Z.of_N m + 2 ^ (- e)) (2 * 2 ^ (- e)) (2 ^ (- j)))
    by lia.
  rewrite <- (Z.div_mul_cancel_r (200 * n + 2 ^ (- j)) (2 * 2 ^ (- j)) (2 ^ (- e)))
    by lia.
  f_equal; nia.
Qed.

Lemma dyadic_below_pow2 m e n j :
  e <= 0 -> j <= 0 -> 0 <= n < 2 ^ 53 -> Z.of_N m * 2 ^ (- j) = n * 2 ^ (- e) ->
  below_pow2 60 (JS.Fin m e).
Proof.
  intros He Hj Hn H. exists m, e. split; [reflexivity|]. split; [lia|].
  pose proof (pow2_pos (- e) ltac:(lia)) as Pe.
  pose proof (pow2_pos (- j) ltac:(lia)) as Pj.
  replace (60 - e) with (60 + - e) by lia. rewrite Z.pow_add_r by lia.
  change (2 ^ 60) with (2 ^ 53 * 128).
  assert (Z.of_N m <= Z.of_N m * 2 ^ (- j)) by nia. nia.
Qed.

Lemma scale_ratio_eq m1 m2 e1 e2 u t :
  e1 <= 0 -> e2 <= 0 ->
  m1 = u * 2 ^ (- e1) -> m2 = t * 2 ^ (- e2) ->
  exists a b, JS.scale m1 m2 (e2 - e1) = (a, b) /\ a * t = u * b /\ (0 < t -> 0 < b).
Proof.
  intros H1 H2 E1 E2.
  pose proof (pow2_pos (- e1) ltac:(lia)) as P1.
  pose proof (pow2_pos (- e2) ltac:(lia)) as P2.
  unfold JS.scale. destruct (0 <=? e2 - e1) eqn:C.
  - apply Z.leb_le in C.
    pose proof (pow2_pos (e2 - e1) C) as P3.
    exists m1, (m2 * 2 ^ (e2 - e1)). split; [reflexivity|].
    assert (E : 2 ^ (- e1) = 2 ^ (- e2) * 2 ^ (e2 - e1)).
    { rewrite <- Z.pow_add_r by lia. f_equal. lia. }
    subst m1 m2. rewrite E. split; [ring|nia].
  - apply Z.leb_gt in C.
    pose proof (pow2_pos (- (e2 - e1)) ltac:(lia)) as P3.
    exists (m1 * 2 ^ (- (e2 - e1))), m2. split; [reflexivity|].
    assert (E : 2 ^ (- e2) = 2 ^ (- e1) * 2 ^ (- (e2 - e1))).
    { rewrite <- Z.pow_add_r by lia. f_equal. lia. }
    subst m1 m2. rewrite E. split; [ring|nia].
Qed.

(** A quotient of safe integers that is [n * 2^j] is computed exactly. *)
Lemma div_exact (u t : N) n j :
  (u < 2 ^ 53)%N -> (t < 2 ^ 53)%N -> (0 < t)%N ->
  0 <= n < 2 ^ 53 -> -53 <= j <= 0 ->
  Z.of_N u * 2 ^ (- j) = n * Z.of_N t ->
  exists m e,
    JS.div (JS.of_N u) (JS.of_N t) = JS.Fin m e /\ e <= 0
    /\ Z.of_N m * 2 ^ (- j) = n * 2 ^ (- e).
Proof.
  intros Hu Ht Ht0 Hn Hj H.
  destruct (of_N_exact u Hu) as (mu & eu & -> & Heu & Emu).
  destruct (of_N_exact t Ht) as (mt & et & -> & Het & Emt).
  pose proof (pow2_pos (- et) ltac:(lia)) as Pt.
  unfold JS.div.
  destruct (mt =? 0)%N eqn:C; [apply N.eqb_eq in C; subst mt; simpl in Emt; nia|].
  destruct (scale_ratio_eq _ _ _ _ _ _ Heu Het Emu Emt) as (a & b & -> & Hab & Hb).
  apply round64_dyadic; try lia.
  apply (Z.mul_reg_r _ _ (Z.of_N t)); [lia|].
  replace (a * 2 ^ (- j) * Z.of_N t) with (a * Z.of_N t * 2 ^ (- j)) by ring.
  rewrite Hab. replace (Z.of_N u * b * 2 ^ (- j)) with (Z.of_N u * 2 ^ (- j) * b) by ring.
  rewrite H. ring.
Qed.

(** Times a hundred, exactly, while 53 bits hold the result. *)
Lemma mul_100_exact m e n j :
  e <= 0 -> -53 <= j <= 0 -> 0 <= n -> 100 * n < 2 ^ 53 ->
  Z.of_N m * 2 ^ (- j) = n * 2 ^ (- e) ->
  exists m' e',
    JS.mul (JS.Fin m e) (JS.of_N 100) = JS.Fin m' e' /\ e' <= 0
    /\ Z.of_N m' * 2 ^ (- j) = (100 * n) * 2 ^ (- e').
Proof.
  intros He Hj Hn Hn' H. rewrite of_N_100. unfold JS.mul.
  assert (Hs : JS.scale (Z.of_N m * Z.of_N 7036874417766400) 1 (- (e + -46))
               = (Z.of_N m * 7036874417766400, 1 * 2 ^ (46 - e))).
  { unfold JS.scale. replace (- (e + -46)) with (46 - e) by lia.
    replace (0 <=? 46 - e) with true by (symmetry; apply Z.leb_le; lia).
    reflexivity. }
  rewrite Hs.
  pose proof (pow2_pos (46 - e) ltac:(lia)) as P2.
  apply round64_dyadic; try lia.
  replace (46 - e) with (46 + - e) by lia. rewrite Z.pow_add_r by lia.
  change (2 ^ 46) with 70368744177664.
  replace (Z.of_N m * 7036874417766400 * 2 ^ (- j))
    with (Z.of_N m * 2 ^ (- j) * 7036874417766400) by ring.
  rewrite H. ring.
Qed.

Lemma toFixed2_dyadic m e n j :
  e <= 0 -> j <= 0 -> 0 <= n < 2 ^ 53 ->
  Z.of_N m * 2 ^ (- j) = n * 2 ^ (- e) ->
  JS.toFixed2 (JS.Fin m e)
  = let h := Z.to_N ((200 * n + 2 ^ (- j)) / (2 * 2 ^ (- j))) in
    JS.dec (h / 100) ++ "." ++ JS.pad2 (h mod 100).
Proof.
  intros He Hj Hn H.
  rewrite toFixed2_fixed by (eapply dyadic_below_pow2; eassumption).
  rewrite (hundredths_dyadic _ _ _ _ He Hj H). reflexivity.
Qed.

Lemma progress_complete (t : N) :
  (0 < t)%N -> (t < 2 ^ 53)%N ->
  onProgress t t
  = [ConsoleLog ["percentage: "; "100.00"];
     SetProgress (JS.of_N 100);
     SetUploadStatus "Uploading: 100.00%"].
Proof.
  intros H0 Ht.
  destruct (div_exact t t 1 0 Ht Ht H0) as (m & e & E & He & Hm); try lia.
  destruct (mul_100_exact m e 1 0 He) as (m' & e' & E' & He' & Hm'); try lia.
  assert (T : JS.toFixed2 (JS.mul (JS.div (JS.of_N t) (JS.of_N t)) (JS.of_N 100))
              = "100.00").
  { rewrite E, E'. rewrite (toFixed2_dyadic _ _ (100 * 1) 0 He') by (lia || exact Hm').
    vm_compute. reflexivity. }
  unfold onProgress. rewrite T.
  replace (JS.Number_of_string "100.00") with (JS.of_N 100) by (vm_compute; reflexivity).
  reflexivity.
Qed.

Lemma progress_nothing (t : N) :
  (0 < t)%N -> (t < 2 ^ 53)%N ->
  onProgress 0 t
  = [ConsoleLog ["percentage: "; "0.00"];
     SetProgress (JS.of_N 0);
     SetUploadStatus "Uploading: 0.00%"].
Proof.
  intros H0 Ht.
  destruct (div_exact 0 t 0 0 eq_refl Ht H0) as (m & e & E & He & Hm); try lia.
  destruct (mul_100_exact m e 0 0 He) as (m' & e' & E' & He' & Hm'); try lia.
  assert (T : JS.toFixed2 (JS.mul (JS.div (JS.of_N 0) (JS.of_N t)) (JS.of_N 100))
              = "0.00").
  { rewrite E, E'. rewrite (toFixed2_dyadic _ _ (100 * 0) 0 He') by (lia || exact Hm').
    vm_compute. reflexivity. }
  unfold onProgress. rewrite T.
  replace (JS.Number_of_string "0.00") with (JS.of_N 0) by (vm_compute; reflexivity).
  reflexivity.
Qed.

(** ** Selecting, cancelling and the numbers shown *)

Lemma text_decides_cancel_all :
  forallb text_decides_cancel (map N.of_nat (seq 0 (N.to_nat 10001))) = true.
Proof. vm_compute. reflexivity. Qed.

Lemma text_decides_cancel_upto (n : N) :
  (n <= 10000)%N -> text_decides_cancel n = true.
Proof.
  intros H. pose proof text_decides_cancel_all as A.
  rewrite forallb_forall in A. apply A.
  apply in_map_iff. exists (N.to_nat n). split; [apply N2Nat.id|].
  apply in_seq. lia.
Qed.

Section Handlers.

Variable date : Date.

(** X1.  Choosing a file in a mounted component stores the first file
    of the list, sets the status ["File selected"] and puts the
    progress back to 0, whatever the state was; the media id, the
    stored upload, the instances and the fetches stay as they were and
    no library function is called, so an upload on its way is not
    aborted.  In the state that follows, "Upload Video" is enabled and
    "Cancel" and the progress bar are gone.  An absent or empty file
    list changes nothing. *)
Theorem file_selection_resets_progress (w : World) (f : File) (others : list File) :
  mounted w = true ->
  exists w',
    step date w (FileChange (Some (f :: others)))
    = Some (w', [SetFile f; SetUploadStatus "File selected"; SetProgress (JS.of_N 0)])
    /\ cells w'
       = {| file := Some f; progress := JS.of_N 0; uploadStatus := "File selected";
            mediaId := mediaId (cells w); upload := upload (cells w) |}
    /\ instances w' = instances w /\ fetches w' = fetches w
    /\ offered w' UploadClick = true
    /\ offered w' CancelClick = false
    /\ progress_container (render (cells w')) = None
    /\ step date w (FileChange None) = Some (w, [])
    /\ step date w (FileChange (Some [])) = Some (w, []).
Proof.
  intros Hm. unfold step, handle. rewrite Hm.
  eexists. split; [reflexivity|].
  unfold handleFileChange, perform_all. simpl. rewrite Hm. simpl.
  repeat split.
Qed.

(** X2.  [handleCancel] with a stored upload aborts it and sets the
    status ["Upload cancelled"]; file, progress, media id and the
    stored upload stay as they were.  The progress being what it was,
    both buttons are as before: after a cancel that was offered,
    "Upload Video" is still disabled and "Cancel" is still there,
    aborting the same instance again. *)
Theorem cancel_keeps_progress (w : World) (id : nat) :
  mounted w = true -> upload (cells w) = Some id ->
  exists w',
    step date w CancelClick
    = Some (w', [TusAbort id; SetUploadStatus "Upload cancelled"])
    /\ cells w'
       = {| file := file (cells w); progress := progress (cells w);
            uploadStatus := "Upload cancelled";
            mediaId := mediaId (cells w); upload := Some id |}
    /\ offered w' UploadClick = offered w UploadClick
    /\ offered w' CancelClick = offered w CancelClick
    /\ (offered w CancelClick = true ->
        user_run date w' [UploadClick] = None
        /\ exists w'',
             user_run date w' [CancelClick]
             = Some (w'', [TusAbort id; SetUploadStatus "Upload cancelled"])).
Proof.
  intros Hm Hu. unfold step, handle. rewrite Hm.
  unfold handleCancel. rewrite Hu.
  eexists. split; [reflexivity|].
  unfold perform_all. simpl. rewrite Hm. simpl. rewrite Hu.
  split; [reflexivity|]. split; [reflexivity|]. split; [reflexivity|].
  intros Hc. unfold user_run, offered, step, handle. simpl.
  unfold offered in Hc. simpl in Hc.
  change (mid_progress _) with (mid_progress (cells w)).
  rewrite Hc, orb_true_r. simpl.
  split; [reflexivity|]. eexists. reflexivity.
Qed.

(** X3.  The size shown for a selected file of fewer than [2^53] bytes
    is its size in units of [1024 * 1024] bytes, rounded to the nearest
    hundredth (upwards from the middle) and written with two decimals:
    with [h = floor ((200 * size + 2^20) / 2^21)] hundredths the text
    is [h / 100], a point, and [h mod 100] on two digits.  The division
    by [1024 * 1024] is exact in binary64. *)
Theorem file_size_in_megabytes (st : State) (f : File) :
  file st = Some f -> (size f < 2 ^ 53)%N ->
  let h := ((200 * size f + 1048576) / 2097152)%N in
  file_info (render st)
  = Some (name f, JS.dec (h / 100) ++ "." ++ JS.pad2 (h mod 100), type f).
Proof.
  intros Hf Hs h. unfold render. cbn [file_info]. rewrite Hf.
  assert (Hz : Z.of_N (size f) < 2 ^ 53)
    by (change (2 ^ 53) with (Z.of_N (2 ^ 53)); lia).
  destruct (div_exact (size f) (1024 * 1024) (Z.of_N (size f)) (-20))
    as (m & e & E & He & Hm); try lia; try reflexivity.
  rewrite E, (toFixed2_dyadic m e (Z.of_N (size f)) (-20) He ltac:(lia) ltac:(lia) Hm).
  cbv zeta.
  replace (Z.to_N ((200 * Z.of_N (size f) + 2 ^ (- -20)) / (2 * 2 ^ (- -20)))) with h;
    [reflexivity|].
  unfold h. change (2 ^ (- -20)) with 1048576. change (2 * 1048576) with 2097152.
  rewrite <- (N2Z.id ((200 * size f + 1048576) / 2097152)%N).
  f_equal. rewrite N2Z.inj_div, N2Z.inj_add, N2Z.inj_mul. reflexivity.
Qed.

(** X4.  For a total of [t] bytes, [0 < t < 2^53]: [onProgress(0, t)]
    reports ["0.00"] and stores the progress 0, [onProgress(t, t)]
    reports ["100.00"] and stores 100.  After either, "Cancel" is not
    rendered and "Upload Video" is enabled when a file is selected; the
    progress bar is absent at 0 and shown at 100. *)
Theorem progress_at_the_ends (t : N) :
  (0 < t)%N -> (t < 2 ^ 53)%N ->
  onProgress 0 t
  = [ConsoleLog ["percentage: "; "0.00"];
     SetProgress (JS.of_N 0);
     SetUploadStatus "Uploading: 0.00%"]
  /\ onProgress t t
     = [ConsoleLog ["percentage: "; "100.00"];
        SetProgress (JS.of_N 100);
        SetUploadStatus "Uploading: 100.00%"]
  /\ forall w id u bytes,
       mounted w = true -> instances w !! id = Some u ->
       bytes = 0%N \/ bytes = t ->
       exists w',
         step date w (OnProgress id bytes t) = Some (w', onProgress bytes t)
         /\ offered w' CancelClick = false
         /\ offered w' UploadClick
            = match file (cells w) with Some _ => true | None => false end
         /\ progress_container (render (cells w'))
            = (if (bytes =? 0)%N then None else Some (JS.of_N 100)).
Proof.
  intros H0 Ht.
  pose proof (progress_nothing t H0 Ht) as E0.
  pose proof (progress_complete t H0 Ht) as E1.
  split; [exact E0|]. split; [exact E1|].
  intros w id u bytes Hm Hi Hb. unfold step, handle. rewrite Hi.
  eexists. split; [reflexivity|].
  assert (Hne : (t =? 0)%N = false) by (apply N.eqb_neq; lia).
  destruct Hb as [->| ->].
  - rewrite E0. unfold perform_all. simpl. rewrite Hm. simpl.
    unfold offered, render, mid_progress. simpl.
    destruct (file (cells w)); repeat split.
  - rewrite E1, Hne. unfold perform_all. simpl. rewrite Hm. simpl.
    unfold offered, render, mid_progress. simpl.
    destruct (file (cells w)); repeat split.
Qed.

(** X5.  For [bytesUploaded <= bytesTotal], the total positive and
    below [2^53], "Cancel" is rendered after [onProgress] exactly when
    the percentage text is neither ["0.00"] nor ["100.00"]. *)
Theorem cancel_follows_percentage_text (u t : N) :
  (0 < t)%N -> (u <= t)%N -> (t < 2 ^ 53)%N ->
  exists pct shown,
    onProgress u t
    = [ConsoleLog ["percentage: "; pct];
       SetProgress shown;
       SetUploadStatus ("Uploading: " ++ pct ++ "%")]
    /\ forall w id i,
         mounted w = true -> instances w !! id = Some i ->
         exists w',
           step date w (OnProgress id u t) = Some (w', onProgress u t)
           /\ cancel_button (render (cells w'))
              = negb (String.eqb pct "0.00") && negb (String.eqb pct "100.00").
Proof.
  intros H0 Hle Ht.
  assert (Hu : (u < 2 ^ 53)%N) by lia.
  set (x := JS.mul (JS.div (JS.of_N u) (JS.of_N t)) (JS.of_N 100)).
  assert (H1 : below 1 (JS.div (JS.of_N u) (JS.of_N t)))
    by (apply div_below; try assumption; [lia|split; [lia|reflexivity]]).
  pose proof (mul_100_below _ 1 H1 ltac:(lia) ltac:(reflexivity)) as H100.
  fold x in H100. change (100 * 1) with 100 in H100.
  pose proof (hundredths_below x 100 ltac:(lia) H100) as Hn.
  pose proof (hundredths_nonneg x) as Hn0.
  pose proof (mul_100_below_pow2 _ (below_weaken _ _ H1 ltac:(lia))) as Hx.
  fold x in Hx.
  set (n := Z.to_N (JS.hundredths x)).
  assert (Hpct : JS.toFixed2 x = JS.dec (n / 100) ++ "." ++ JS.pad2 (n mod 100))
    by (apply toFixed2_fixed; exact Hx).
  assert (Hshown : JS.Number_of_string (JS.toFixed2 x) = JS.round64 (Z.of_N n) 100).
  { rewrite Hpct, Number_of_fixed by (apply N.mod_lt; lia).
    f_equal. f_equal. rewrite N.mul_comm. symmetry. apply N.div_mod. lia. }
  assert (Hact : onProgress u t
       = [ConsoleLog ["percentage: "; JS.dec (n / 100) ++ "." ++ JS.pad2 (n mod 100)];
          SetProgress (JS.round64 (Z.of_N n) 100);
          SetUploadStatus ("Uploading: " ++ (JS.dec (n / 100) ++ "." ++ JS.pad2 (n mod 100)) ++ "%")]).
  { unfold onProgress. fold x. rewrite Hshown, Hpct. reflexivity. }
  exists (JS.dec (n / 100) ++ "." ++ JS.pad2 (n mod 100)), (JS.round64 (Z.of_N n) 100).
  split; [exact Hact|].
  intros w id i Hm Hi. unfold step, handle. rewrite Hi, Hact.
  eexists. split; [reflexivity|].
  unfold perform_all. simpl fold_left. rewrite Hm. simpl settle. 
  unfold render, mid_progress. cbn [cancel_button cells progress set].
  assert (Hn' : (n <= 10000)%N) by (unfold n; lia).
  pose proof (text_decides_cancel_upto n Hn') as T.
  unfold text_decides_cancel in T. apply Bool.eqb_prop in T. exact T.
Qed.

(** X6.  With a total of zero bytes the quotient is no finite number:
    [onProgress(0, 0)] reports ["NaN"] and stores [NaN], and
    [onProgress(u, 0)] with [u > 0] reports ["Infinity"] and stores
    [Infinity]; the status reads ["Uploading: NaN%"] or
    ["Uploading: Infinity%"].  "Cancel" is rendered in neither case,
    the progress bar for [Infinity] only. *)
Theorem progress_without_total (u : N) :
  (u < 2 ^ 53)%N ->
  let pct := if (u =? 0)%N then "NaN" else "Infinity" in
  let shown := if (u =? 0)%N then JS.NaN else JS.Infinity in
  onProgress u 0
  = [ConsoleLog ["percentage: "; pct];
     SetProgress shown;
     SetUploadStatus ("Uploading: " ++ pct ++ "%")]
  /\ forall w id i,
       mounted w = true -> instances w !! id = Some i ->
       exists w',
         step date w (OnProgress id u 0) = Some (w', onProgress u 0)
         /\ offered w' CancelClick = false
         /\ progress_container (render (cells w'))
            = (if (u =? 0)%N then None else Some JS.Infinity).
Proof.
  intros Hu pct shown.
  assert (E : onProgress u 0
              = [ConsoleLog ["percentage: "; pct];
                 SetProgress shown;
                 SetUploadStatus ("Uploading: " ++ pct ++ "%")]).
  { unfold onProgress, pct, shown.
    destruct (of_N_exact u Hu) as (m & e & -> & He & Hm).
    change (JS.of_N 0) with (JS.Fin 0 0). unfold JS.div.
    change (0 =? 0)%N with true. cbv iota.
    pose proof (pow2_pos (- e) ltac:(lia)) as P.
    destruct (u =? 0)%N eqn:C.
    - apply N.eqb_eq in C. subst u.
      replace (m =? 0)%N with true by (symmetry; apply N.eqb_eq; lia).
      reflexivity.
    - apply N.eqb_neq in C.
      replace (m =? 0)%N with false by (symmetry; apply N.eqb_neq; nia).
      reflexivity. }
  split; [exact E|].
  intros w id i Hm Hi. unfold step, handle. rewrite Hi, E.
  eexists. split; [reflexivity|].
  unfold perform_all. simpl fold_left. rewrite Hm. simpl settle.
  unfold offered, render, mid_progress, shown. cbn [cancel_button cells progress set progress_container].
  destruct (u =? 0)%N; split; reflexivity.
Qed.

End Handlers.

(** ** One upload at a time *)

Lemma lookup_not_nil {A} (l : list A) i x : l !! i = Some x -> l <> [].
Proof. intros H ->. discriminate. Qed.

Lemma latest_snoc us u : latest (us ++ [u]) = Some (length us).
Proof.
  unfold latest. rewrite length_app. simpl.
  replace (length us + 1)%nat with (S (length us)) by lia. reflexivity.
Qed.

Lemma latest_bound us id : latest us = Some id -> S id = length us.
Proof. unfold latest. destruct (length us); [discriminate|]. intros E. injection E as <-. reflexivity. Qed.

(** The world after a settlement: the upload, its progress and the
    instances are as before, and the component is unmounted only by a
    render that failed, whose cleanup has run. *)
Lemma settled_world w k url o :
  fetches w !! k = Some (url, true) ->
  let acts := (onSettled o ++ render_error w (onSettled o))%list in
  let w' := settle (perform_all w acts) (Settled k o) in
  (upload (cells w') = upload (cells w) /\ progress (cells w') = progress (cells w))
  /\ instances w' = instances w
  /\ (mounted w' = true -> mounted w = true)
  /\ (mounted w = true -> mounted w' = false ->
      render_error w (onSettled o) = cleanup (cells w)).
Proof.
  intros F acts w'. subst acts w'.
  assert (G : forall a, (exists v, a = [SetMediaId v]) \/ a = [ConsoleError ["Error fetching media ID:"]] ->
    let w' := settle (perform_all w (a ++ render_error w a)) (Settled k o) in
    (upload (cells w') = upload (cells w) /\ progress (cells w') = progress (cells w))
    /\ instances w' = instances w
    /\ (mounted w' = true -> mounted w = true)
    /\ (mounted w = true -> mounted w' = false -> render_error w a = cleanup (cells w))).
  { intros a Ha. unfold render_error, cleanup, perform_all, settle.
    destruct Ha as [[v ->]| ->]; simpl; destruct (mounted w) eqn:M; simpl;
      rewrite ?M; simpl.
    - destruct (valid_child v) eqn:V; simpl; rewrite ?F; simpl.
      + rewrite V. repeat split; auto; try discriminate. 
      + destruct (upload (cells w)) eqn:U; simpl; rewrite ?M; simpl; rewrite ?F; simpl; repeat split; auto.
    - rewrite F. simpl. repeat split; auto; discriminate.
    - destruct (valid_child (mediaId (cells w))) eqn:V; simpl; rewrite ?F; simpl.
      + rewrite V. repeat split; auto; discriminate.
      + destruct (upload (cells w)) eqn:U; simpl; rewrite ?M; simpl; rewrite ?F; simpl; repeat split; auto.
    - rewrite F. simpl. repeat split; auto; discriminate. }
  apply G. unfold onSettled.
  destruct o as [|[data|]]; [| destruct (get_mediaId data) |]; eauto.
Qed.

Section Lifecycle.

Variable date : Date.

Lemma superseded_aborted_step w log e w' acts :
  superseded_aborted w log -> step date w e = Some (w', acts) ->
  superseded_aborted w' (log ++ acts).
Proof.
  intros (Hup & Hold & Hun & Hpr) H. unfold step, handle in H.
  assert (Hlog : forall more id,
            (S id < length (instances w))%nat -> In (TusAbort id) (log ++ more))
    by (intros more id Hid; apply in_or_app; left; auto).
  assert (Hlog' : forall more, mounted w = false ->
            forall id, (id < length (instances w))%nat -> In (TusAbort id) (log ++ more))
    by (intros more Hf id Hid; apply in_or_app; left; auto).
  destruct e.
  - destruct (mounted w) eqn:Hm; [|discriminate]. injection H as <- <-.
    destruct files as [[|f l]|]; unfold perform_all; simpl;
      repeat (rewrite Hm; simpl);
      (split; [simpl; congruence|split; [apply Hlog|split; [intros X; simpl in X; congruence|auto]]]).
  - destruct (mounted w) eqn:Hm; [|discriminate]. injection H as <- <-.
    unfold handleUpload, cleanup. destruct (file (cells w)) as [f|] eqn:Hf.
    + destruct (upload (cells w)) as [i|] eqn:U;
        unfold perform_all; simpl; repeat (rewrite Hm; simpl);
        (split; [symmetry; apply latest_snoc|]);
        (split; [|split; [discriminate|intros E; destruct (instances w); discriminate]]);
        intros id Hid; simpl in Hid; rewrite length_app in Hid; simpl in Hid.
      * destruct (Nat.eq_dec (S id) (length (instances w))) as [E|E].
        -- symmetry in Hup. apply latest_bound in Hup.
           assert (id = i) as -> by lia.
           apply in_or_app. right. do 5 right. left. reflexivity.
        -- apply in_or_app. left. apply Hold. lia.
      * symmetry in Hup. unfold latest in Hup.
        destruct (length (instances w)); [lia|discriminate].
    + unfold perform_all. simpl. rewrite Hm. simpl.
      split; [simpl; congruence|split; [apply Hlog|split; [intros X; simpl in X; congruence|auto]]].
  - destruct (mounted w) eqn:Hm; [|discriminate]. injection H as <- <-.
    unfold handleCancel. destruct (upload (cells w)) eqn:U;
      unfold perform_all; simpl; rewrite ?Hm; simpl; rewrite ?U;
      (split; [simpl; congruence|split; [apply Hlog|split; [intros X; simpl in X; congruence|auto]]]).
  - destruct (instances w !! id) eqn:Hi; [|discriminate]. injection H as <- <-.
    apply lookup_not_nil in Hi.
    unfold perform_all; simpl; destruct (mounted w) eqn:Hm; simpl; repeat (rewrite Hm; simpl);
      (split; [simpl; congruence|split; [apply Hlog|split; [|intros; contradiction]]]);
      [intros X; simpl in X; congruence|intros _; apply Hlog'; reflexivity].
  - destruct (instances w !! id) eqn:Hi; [|discriminate]. injection H as <- <-.
    apply lookup_not_nil in Hi. unfold onProgress in *.
    set (pct := JS.toFixed2 _) in *. clearbody pct.
    unfold perform_all; simpl; destruct (mounted w) eqn:Hm; simpl; repeat (rewrite Hm; simpl);
      (split; [simpl; congruence|split; [apply Hlog|split; [|intros; contradiction]]]);
      [intros X; simpl in X; congruence|intros _; apply Hlog'; reflexivity].
  - destruct (instances w !! id) eqn:Hi; [|discriminate]. injection H as <- <-.
    apply lookup_not_nil in Hi.
    unfold perform_all; simpl; destruct (mounted w) eqn:Hm; simpl; repeat (rewrite Hm; simpl);
      (split; [simpl; congruence|split; [apply Hlog|split; [|intros; contradiction]]]);
      [intros X; simpl in X; congruence|intros _; apply Hlog'; reflexivity].
  - destruct (fetches w !! k) as [[url []]|] eqn:Hk; try discriminate.
    injection H as <- <-.
    destruct (settled_world w k url o Hk) as (Hc & Hi & Hmo & Hre).
    change (superseded_aborted
              (settle (perform_all w (onSettled o ++ render_error w (onSettled o)))
                      (Settled k o))
              (log ++ (onSettled o ++ render_error w (onSettled o)))).
    unfold superseded_aborted. cbv zeta in Hc, Hi, Hmo, Hre.
    set (w' := settle _ _) in *. clearbody w'.
    rewrite Hi. destruct Hc as (-> & ->).
    split; [exact Hup|]. split; [apply Hlog|]. split; [|exact Hpr].
    intros Hf id Hid. destruct (mounted w) eqn:Hm; [|apply Hlog'; [reflexivity|exact Hid]].
    rewrite (Hre eq_refl Hf). unfold cleanup.
    destruct (upload (cells w)) as [i|] eqn:U.
    + symmetry in Hup. apply latest_bound in Hup.
      destruct (Nat.eq_dec id i) as [->|E].
      * apply in_or_app. right. apply in_or_app. right. left. reflexivity.
      * apply Hlog. lia.
    + symmetry in Hup. unfold latest in Hup.
      destruct (length (instances w)); [lia|discriminate].
  - destruct (mounted w) eqn:Hm; [|discriminate]. injection H as <- <-.
    unfold cleanup. destruct (upload (cells w)) as [i|] eqn:U;
      unfold perform_all; simpl; rewrite ?Hm; simpl; rewrite ?U;
      (split; [simpl; congruence|split; [apply Hlog|split; [|auto]]]); intros _ id Hid; simpl in Hid.
    + symmetry in Hup. apply latest_bound in Hup.
      destruct (Nat.eq_dec id i) as [->|E].
      * apply in_or_app. right. left. reflexivity.
      * apply in_or_app. left. apply Hold. lia.
    + symmetry in Hup. unfold latest in Hup.
      destruct (length (instances w)); [lia|discriminate].
Qed.

Lemma run_log_invariant (P : World -> list Action -> Prop) :
  (forall w log e w' acts, P w log -> step date w e = Some (w', acts) -> P w' (log ++ acts)%list) ->
  forall evs w log w' acts,
    P w log -> run date w evs = Some (w', acts) -> P w' (log ++ acts)%list.
Proof.
  intros Hstep. induction evs as [|e evs IH]; intros w log w' acts Hw H; simpl in H.
  - injection H as <- <-. rewrite app_nil_r. exact Hw.
  - destruct (step date w e) as [[w1 a1]|] eqn:S; [|discriminate].
    destruct (run date w1 evs) as [[w2 a2]|] eqn:R; [|discriminate].
    injection H as <- <-. rewrite app_assoc. eapply IH; [|exact R].
    eapply Hstep; eassumption.
Qed.

Lemma superseded_aborted_run evs w acts :
  run date start evs = Some (w, acts) -> superseded_aborted w acts.
Proof.
  intros H.
  apply (run_log_invariant superseded_aborted superseded_aborted_step evs start [] w acts);
    [|exact H].
  repeat split; try discriminate; simpl; intros; lia.
Qed.

End Lifecycle.


Section Sessions.

Variable date : Date.

(** X7.  Over every run from the initial state the [upload] cell holds
    the instance created last; [abort] has been called on every
    instance created before that one (the effect's cleanup runs when
    [handleUpload] stores the next), and, once the component is
    unmounted, on every instance. *)
Theorem superseded_uploads_are_aborted (evs : list Event) (w : World) (acts : list Action) :
  run date start evs = Some (w, acts) ->
  upload (cells w) = latest (instances w)
  /\ (forall id, (S id < length (instances w))%nat -> In (TusAbort id) acts)
  /\ (mounted w = false ->
      forall id u, instances w !! id = Some u -> In (TusAbort id) acts).
Proof.
  intros H. destruct (superseded_aborted_run date _ _ _ H) as (Hup & Hold & Hun & _).
  split; [exact Hup|]. split; [exact Hold|].
  intros Hm id u Hi. apply Hun; [exact Hm|].
  eapply lookup_lt_Some. exact Hi.
Qed.

(** X8.  Whenever "Cancel" is rendered in a mounted component reached
    from the initial state, an upload is stored, so the guard of
    [handleCancel] holds: the click aborts the instance created last
    and sets the status, and changes nothing else. *)
Theorem cancel_aborts_the_latest_upload (evs : list Event) (w : World) (acts : list Action) :
  run date start evs = Some (w, acts) ->
  mounted w = true ->
  cancel_button (render (cells w)) = true ->
  exists id u,
    latest (instances w) = Some id /\ instances w !! id = Some u
    /\ step date w CancelClick
       = Some (mkWorld (mkState (file (cells w)) (progress (cells w)) "Upload cancelled"
                                (mediaId (cells w)) (Some id))
                       (instances w) (fetches w) true,
               [TusAbort id; SetUploadStatus "Upload cancelled"]).
Proof.
  intros H Hm Hc. destruct (superseded_aborted_run date _ _ _ H) as (Hup & _ & _ & Hpr).
  change (cancel_button (render (cells w))) with (mid_progress (cells w)) in Hc.
  unfold mid_progress in Hc. apply andb_true_iff in Hc as [Hc _].
  assert (Hne : instances w <> []).
  { intros E. rewrite (Hpr E) in Hc. vm_compute in Hc. discriminate. }
  destruct (latest (instances w)) as [id|] eqn:L.
  - pose proof (latest_bound _ _ L) as B.
    destruct (lookup_lt_is_Some_2 (instances w) id ltac:(lia)) as (u & Hu).
    exists id, u. split; [reflexivity|]. split; [exact Hu|].
    unfold step, handle, handleCancel. rewrite Hm, Hup.
    unfold perform_all. simpl. rewrite Hm. simpl. rewrite Hup. reflexivity.
  - unfold latest in L. destruct (instances w); [contradiction|discriminate].
Qed.

Lemma user_run_actions evs : forall w w' acts a,
  user_run date w evs = Some (w', acts) -> In a acts ->
  exists w1 e a1, offered w1 e = true /\ handle date w1 e = Some a1 /\ In a a1.
Proof.
  induction evs as [|e evs IH]; intros w w' acts a H Hin; simpl in H.
  - injection H as _ <-. destruct Hin.
  - destruct (offered w e) eqn:O; [|discriminate].
    destruct (step date w e) as [[w1 a1]|] eqn:S; [|discriminate].
    destruct (user_run date w1 evs) as [[w2 a2]|] eqn:R; [|discriminate].
    injection H as _ <-. apply in_app_or in Hin as [Hin|Hin].
    + apply step_inv in S as [Hh _]. exists w, e, a1. auto.
    + eapply IH; eassumption.
Qed.

(** X9.  Through the rendered controls (a click only on a button that
    is in the tree and enabled), from any state, the status
    ["Please select a file first"] is never set: "Upload Video" is
    disabled while no file is selected. *)
Theorem controls_never_ask_for_a_file (w0 : World) (evs : list Event)
    (w : World) (acts : list Action) :
  user_run date w0 evs = Some (w, acts) ->
  ~ In (SetUploadStatus "Please select a file first") acts.
Proof.
  intros H Hin.
  destruct (user_run_actions _ _ _ _ _ H Hin) as (w1 & e & a1 & O & Hh & Ha).
  destruct (status_set_by date _ _ _ _ Hh Ha) as (ph & P & D).
  change (phase_of_status "Please select a file first") with (Some Idle) in P.
  injection P as <-.
  apply handle_cases in Hh. destruct e; try discriminate D.
  - subst a1. destruct files as [[|f l]|]; in_cases Ha.
  - subst a1. unfold offered in O.
    change (upload_disabled (render (cells w1)))
      with (match file (cells w1) with None => true | Some _ => false end
            || mid_progress (cells w1)) in O.
    unfold handleUpload, cleanup in Ha.
    destruct (file (cells w1)); [|simpl in O; rewrite andb_false_r in O; discriminate O].
    destruct (upload (cells w1)); in_cases Ha.
Qed.

(** X10.  [handleUpload] leaves the progress alone, so "Upload Video"
    is as enabled after the click as before it.  A second click creates
    a second instance for the same file with the same options and
    stores it, and the cleanup aborts the first. *)
Theorem second_click_replaces_the_upload (w : World) (f : File) :
  mounted w = true -> file (cells w) = Some f -> offered w UploadClick = true ->
  exists w' acts,
    user_run date w [UploadClick; UploadClick] = Some (w', acts)
    /\ instances w'
       = (instances w ++ [mkUpload f (options date f); mkUpload f (options date f)])%list
    /\ upload (cells w') = Some (S (length (instances w)))
    /\ In (TusAbort (length (instances w))) acts
    /\ progress (cells w') = progress (cells w).
Proof.
  intros Hm Hf Ho.
  set (n := length (instances w)).
  set (u := mkUpload f (options date f)).
  set (w1 := mkWorld (mkState (Some f) (progress (cells w)) "Starting upload..."
                              (mediaId (cells w)) (Some n))
                     (instances w ++ [u])%list (fetches w) true).
  set (w2 := mkWorld (mkState (Some f) (progress (cells w)) "Starting upload..."
                              (mediaId (cells w)) (Some (S n)))
                     ((instances w ++ [u]) ++ [u])%list (fetches w) true).
  assert (S1 : step date w UploadClick
               = Some (w1, (handleUpload date (cells w) n ++ cleanup (cells w))%list)).
  { unfold step, handle. rewrite Hm, Hf. fold n. f_equal. f_equal.
    unfold handleUpload, cleanup. rewrite Hf.
    destruct (upload (cells w)); unfold perform_all; simpl; rewrite Hm; simpl;
      rewrite Hf; reflexivity. }
  assert (L1 : length (instances w1) = S n).
  { unfold w1. cbn [instances]. rewrite length_app. simpl. unfold n. lia. }
  assert (S2 : step date w1 UploadClick
               = Some (w2, (handleUpload date (cells w1) (S n) ++ [TusAbort n])%list)).
  { unfold step, handle. rewrite L1. reflexivity. }
  assert (O1 : offered w1 UploadClick = true).
  { unfold offered in *.
    change (upload_disabled (render (cells w)))
      with (match file (cells w) with None => true | Some _ => false end
            || mid_progress (cells w)) in Ho.
    rewrite Hf, Hm in Ho. exact Ho. }
  exists w2, ((handleUpload date (cells w) n ++ cleanup (cells w))
              ++ (handleUpload date (cells w1) (S n) ++ [TusAbort n]) ++ [])%list.
  split.
  - unfold user_run. rewrite Ho, S1, O1, S2. reflexivity.
  - split; [unfold w2; cbn [instances]; rewrite <- app_assoc; reflexivity|].
    split; [reflexivity|]. split; [|reflexivity].
    apply in_or_app. right. apply in_or_app. left. apply in_or_app. right.
    left. reflexivity.
Qed.

End Sessions.

(** ** What an event leaves alone *)

Section Stale.

Variable date : Date.

Lemma mounted_perform_all acts : forall w, mounted (perform_all w acts) = mounted w.
Proof.
  induction acts as [|a acts IH]; intros w; [reflexivity|].
  change (perform_all w (a :: acts)) with (perform_all (perform w a) acts).
  rewrite IH. destruct a; simpl; destruct (mounted w) eqn:M; simpl; auto.
Qed.

Lemma mounted_settle w e : mounted (settle w e) = true -> mounted w = true.
Proof.
  destruct e; simpl; auto; [|discriminate].
  destruct (fetches w !! k) as [[url b]|]; simpl; [|auto].
  intros H. apply andb_true_iff in H as [H _]. exact H.
Qed.

(** X18.  No handler but [onProgress] and [handleFileChange] calls
    [setProgress], and none but [handleFileChange] calls [setFile].  So
    every other event that leaves the component mounted (a click on
    either button, an error, a success, the answer to a lookup whose
    media id can be rendered) leaves the progress, the file, both
    buttons and the progress bar as they were: after a failure in the
    middle of an upload "Cancel" is still rendered and "Upload Video"
    still disabled.  Once the component is unmounted, by the unmount or
    by a render that failed, no button is offered and nothing is on the
    page. *)
Theorem progress_moves_only_with_reports (w : World) (e : Event)
    (w' : World) (acts : list Action) :
  step date w e = Some (w', acts) ->
  (forall id u t, e <> OnProgress id u t) ->
  (forall files, e <> FileChange files) ->
  (forall p, ~ In (SetProgress p) acts)
  /\ (forall f, ~ In (SetFile f) acts)
  /\ (mounted w' = true ->
      mounted w = true
      /\ progress (cells w') = progress (cells w)
      /\ file (cells w') = file (cells w)
      /\ offered w' UploadClick = offered w UploadClick
      /\ offered w' CancelClick = offered w CancelClick
      /\ forall view,
           shown w' = Some view ->
           progress_container view = progress_container (render (cells w))
           /\ upload_disabled view = upload_disabled (render (cells w))
           /\ cancel_button view = cancel_button (render (cells w)))
  /\ (mounted w' = false ->
      offered w' UploadClick = false /\ offered w' CancelClick = false
      /\ shown w' = None).
Proof.
  intros H Hp Hf. apply step_inv in H as [Hh ->].
  assert (NP : forall p, ~ In (SetProgress p) acts).
  { intros p Hin.
    destruct (progress_set_by date _ _ _ Hh (or_introl (ex_intro _ p Hin)))
      as [(i & u & t & ->)|(fs & ->)];
      [destruct (Hp i u t eq_refl)|destruct (Hf fs eq_refl)]. }
  assert (NF : forall f, ~ In (SetFile f) acts).
  { intros f Hin.
    destruct (progress_set_by date _ _ _ Hh (or_intror (ex_intro _ f Hin)))
      as [(i & u & t & ->)|(fs & ->)];
      [destruct (Hp i u t eq_refl)|destruct (Hf fs eq_refl)]. }
  split; [exact NP|]. split; [exact NF|].
  set (w' := settle (perform_all w acts) e).
  assert (E : progress (cells w') = progress (cells w)).
  { unfold w'. rewrite settle_cells.
    destruct (progress_after acts w) as [E|(p & P)]; [exact E|destruct (NP p P)]. }
  assert (F : file (cells w') = file (cells w)).
  { unfold w'. rewrite settle_cells.
    destruct (file_after acts w) as [E'|(f & P)]; [exact E'|destruct (NF f P)]. }
  split.
  - intros M.
    assert (M0 : mounted w = true).
    { unfold w' in M. apply mounted_settle in M.
      rewrite mounted_perform_all in M. exact M. }
    assert (R : progress_container (render (cells w'))
                = progress_container (render (cells w))
                /\ upload_disabled (render (cells w'))
                   = upload_disabled (render (cells w))
                /\ cancel_button (render (cells w'))
                   = cancel_button (render (cells w))).
    { unfold render, mid_progress.
      cbn [upload_disabled cancel_button progress_container].
      rewrite E, F. auto. }
    destruct R as (R1 & R2 & R3).
    split; [exact M0|]. split; [exact E|]. split; [exact F|].
    unfold offered. rewrite M, M0, R2, R3. split; [reflexivity|]. split; [reflexivity|].
    intros view S. unfold shown in S. rewrite M in S.
    destruct (valid_child (mediaId (cells w'))); [|discriminate].
    simpl in S. injection S as <-. auto.
  - intros M. unfold offered, shown. rewrite M. auto.
Qed.

Lemma mediaId_kept_step w e w' acts :
  step date w e = Some (w', acts) ->
  (forall k data, e <> Settled k (Body (Some data))) ->
  mediaId (cells w') = mediaId (cells w).
Proof.
  intros H Hne. apply step_inv in H as [Hh ->]. rewrite settle_cells.
  destruct (mediaId_after acts w) as [E|(v & Hin & _)]; [exact E|].
  destruct (mediaId_set_by date _ _ _ _ Hh Hin) as (k & url & data & got & -> & _).
  destruct (Hne k data eq_refl).
Qed.

(** X19.  The media id outlives its upload: over a run in which no
    lookup settles with a JSON body the media id and the media-info
    block stay what they were, through the choice of another file, its
    upload, its progress, a failure, a cancel and failed lookups.  A
    lookup that settles with a body other than [null] sets the id to
    that body's [mediaId], or to [""] when that is missing or falsy. *)
Theorem media_id_outlives_its_upload :
  (forall evs w w' acts,
     run date w evs = Some (w', acts) ->
     (forall k data, ~ In (Settled k (Body (Some data))) evs) ->
     mediaId (cells w') = mediaId (cells w)
     /\ media_info (render (cells w')) = media_info (render (cells w)))
  /\ (forall w k data got w' acts,
        step date w (Settled k (Body (Some data))) = Some (w', acts) ->
        mounted w = true -> get_mediaId data = Some got ->
        mediaId (cells w') = or_else got (VString "")).
Proof.
  split.
  - assert (G : forall evs w w' acts,
               run date w evs = Some (w', acts) ->
               (forall k data, ~ In (Settled k (Body (Some data))) evs) ->
               mediaId (cells w') = mediaId (cells w)).
    { induction evs as [|e evs IH]; intros w w' acts H Hne; simpl in H.
      - injection H as <- _. reflexivity.
      - destruct (step date w e) as [[w1 a1]|] eqn:S; [|discriminate].
        destruct (run date w1 evs) as [[w2 a2]|] eqn:R; [|discriminate].
        injection H as <- _.
        rewrite (IH _ _ _ R) by (intros k data Hin; apply (Hne k data); right; exact Hin).
        apply (mediaId_kept_step _ _ _ _ S).
        intros k data ->. apply (Hne k data). left. reflexivity. }
    intros evs w w' acts H Hne. pose proof (G _ _ _ _ H Hne) as E.
    split; [exact E|]. unfold render. cbn [media_info]. rewrite E. reflexivity.
  - intros w k data got w' acts H Hm G. apply step_inv in H as [Hh ->].
    apply handle_cases in Hh as [_ ->]. rewrite settle_cells.
    set (a := onSettled (Body (Some data))).
    assert (A : mediaId (cells (perform_all w a)) = or_else got (VString "")).
    { unfold a, onSettled. rewrite G. unfold perform_all. simpl. rewrite Hm. reflexivity. }
    unfold perform_all. rewrite fold_left_app.
    change (fold_left perform a w) with (perform_all w a).
    destruct (render_error_cases w a) as [-> | ->]; [exact A|].
    change (fold_left perform (cleanup (cells w)) (perform_all w a))
      with (perform_all (perform_all w a) (cleanup (cells w))).
    rewrite (proj1 (perform_cleanup (perform_all w a) (cells w))). exact A.
Qed.

End Stale.

(** ** The status lookup and the server *)

(** ** Encoded components *)

Lemma string_app_inv_head (a b c : string) : a ++ b = a ++ c -> b = c.
Proof.
  induction a as [|x a IH]; simpl; [auto|]. intros E. injection E as E. auto.
Qed.

Lemma encode_app a b :
  URI.encodeURIComponent (a ++ b) = URI.encodeURIComponent a ++ URI.encodeURIComponent b.
Proof.
  induction a as [|c a IH]; [reflexivity|]. simpl.
  destruct (URI.unreserved c); rewrite IH; reflexivity.
Qed.

Lemma encode_unreserved s :
  all_chars URI.unreserved s = true -> URI.encodeURIComponent s = s.
Proof.
  induction s as [|c s IH]; [reflexivity|]. simpl.
  intros H. apply andb_true_iff in H as [Hc Hs]. rewrite Hc, IH by exact Hs. reflexivity.
Qed.

Lemma hexdigit_unreserved d : (d < 16)%N -> URI.unreserved (URI.hexdigit d) = true.
Proof.
  intros H.
  assert (In d (map N.of_nat (seq 0 16))) as Hin.
  { apply in_map_iff. exists (N.to_nat d). split; [lia|]. apply in_seq. lia. }
  simpl in Hin.
  repeat (destruct Hin as [<-|Hin]; [vm_compute; reflexivity|]). destruct Hin.
Qed.

Lemma encode_chars s : all_chars component_char (URI.encodeURIComponent s) = true.
Proof.
  induction s as [|c s IH]; [reflexivity|]. cbn [URI.encodeURIComponent].
  destruct (URI.unreserved c) eqn:U.
  - cbn [all_chars]. unfold component_char at 1. rewrite U, IH. reflexivity.
  - unfold URI.escape. cbn [append all_chars]. rewrite IH.
    pose proof (N_ascii_bounded c) as B.
    unfold component_char.
    rewrite !hexdigit_unreserved;
      [reflexivity|apply N.mod_lt; lia|apply N.Div0.div_lt_upper_bound; lia].
Qed.

Lemma digit_unreserved c : is_digit c = true -> URI.unreserved c = true.
Proof.
  unfold is_digit, URI.unreserved. intros ->.
  rewrite orb_true_r. reflexivity.
Qed.

Lemma dec_unreserved n : all_chars URI.unreserved (JS.dec n) = true.
Proof.
  apply (all_chars_impl is_digit); [exact digit_unreserved|apply dec_digits].
Qed.

Lemma timestamp_unreserved date : all_chars URI.unreserved (timestamp date) = true.
Proof.
  unfold timestamp.
  assert (P : all_chars URI.unreserved (print_Z (getFullYear date)) = true).
  { unfold print_Z. destruct (getFullYear date); apply dec_unreserved. }
  repeat (rewrite all_chars_app; apply andb_true_iff; split);
    try apply dec_unreserved; try exact P; reflexivity.
Qed.

(** A text of component characters holds none of the others. *)
Lemma split_at_foreign c s :
  component_char c = false -> all_chars component_char s = true ->
  JS.split_at c s = (s, None).
Proof.
  intros Hc. induction s as [|a s IH]; [reflexivity|]. simpl.
  intros H. apply andb_true_iff in H as [Ha Hs].
  destruct (Ascii.eqb a c) eqn:E.
  - apply Ascii.eqb_eq in E. subst. congruence.
  - rewrite (IH Hs). reflexivity.
Qed.

Section Lookup.

Variable date : Date.

(** X11.  The URL [onSuccess] fetches is
    [/api/upload/status?filename=] followed by the timestamp, [%20-%20]
    and the encoded file name: the timestamp needs no escaping.  The
    value is written in unreserved characters and [%] alone, so the URL
    has the path [/api/upload/status] and one query parameter whatever
    the file is called: none of [& = # ? + /] and no space occurs in
    the value. *)
Theorem status_url_is_one_parameter (f : File) :
  let q := timestamp date ++ "%20-%20" ++ URI.encodeURIComponent (name f) in
  onSuccess date f
  = [SetUploadStatus "Upload complete! Video is now processing.";
     Fetch ("/api/upload/status?filename=" ++ q)]
  /\ all_chars component_char q = true
  /\ JS.split_at "?" ("/api/upload/status?filename=" ++ q)
     = ("/api/upload/status", Some ("filename=" ++ q))
  /\ forall c, In c ["&"; "="; "#"; "?"; "+"; "/"; " "]%char -> JS.split_at c q = (q, None).
Proof.
  intros q.
  assert (E : URI.encodeURIComponent (timestamp date ++ " - " ++ name f) = q).
  { rewrite !encode_app, (encode_unreserved _ (timestamp_unreserved date)). reflexivity. }
  assert (Q : all_chars component_char q = true) by (rewrite <- E; apply encode_chars).
  split; [unfold onSuccess; rewrite E; reflexivity|].
  split; [exact Q|]. split; [reflexivity|].
  intros c Hc. apply split_at_foreign; [|exact Q].
  in_cases Hc; subst c; reflexivity.
Qed.

(** X12.  Within one page load two files get the same [onSuccess]
    actions, status lookup included, exactly when they have the same
    name: size and type play no part, and two names never share a
    lookup. *)
Theorem status_url_tells_names_apart (f g : File) :
  onSuccess date f = onSuccess date g <-> name f = name g.
Proof.
  split.
  - unfold onSuccess. intros E. injection E as E.
    apply (f_equal URI.percent_decode) in E. rewrite !decode_encode in E.
    injection E as E.
    apply string_app_inv_head in E. apply (string_app_inv_head " - ") in E.
    exact E.
  - unfold onSuccess. intros ->. reflexivity.
Qed.

End Lookup.

(** ** The server *)

Section Forwarding.

Variable secrets : Proxy.Secrets.

(** X14.  What [app] does with a request, in full.  A preflight is
    answered with 204, and nothing else is answered.  A request is
    forwarded exactly when it is no preflight and its path is under the
    mount, then to [https://api.cloudflare.com] with method and body as
    they came, [Host] that of the target, and under the name
    [Authorization], in any casing, the header with the server's token
    and no other.  Every other request is left unhandled. *)
Theorem app_answers_forwards_or_passes (req : Proxy.Request) :
  match Proxy.app secrets req with
  | Proxy.Answered status => status = 204%N /\ Proxy.method req = "OPTIONS"
  | Proxy.Forwarded to r =>
      to = "https://api.cloudflare.com"
      /\ Proxy.method req <> "OPTIONS"
      /\ Proxy.mounted_at "/api/upload" (Proxy.pathname (Proxy.url req)) = true
      /\ Proxy.method r = Proxy.method req /\ Proxy.body r = Proxy.body req
      /\ Proxy.getHeader "host" (Proxy.headers r) = Some "api.cloudflare.com"
      /\ forall k v,
           In (k, v) (Proxy.headers r) -> Proxy.same_header k "authorization" = true ->
           k = "Authorization" /\ v = "Bearer " ++ Proxy.API_TOKEN secrets
  | Proxy.Unhandled =>
      Proxy.method req <> "OPTIONS"
      /\ Proxy.mounted_at "/api/upload" (Proxy.pathname (Proxy.url req)) = false
  end.
Proof.
  unfold Proxy.app, Proxy.cors.
  destruct (String.eqb (Proxy.method req) "OPTIONS") eqn:M.
  - apply String.eqb_eq in M. auto.
  - apply String.eqb_neq in M.
    destruct (Proxy.mounted_at "/api/upload" (Proxy.pathname (Proxy.url req))) eqn:Mt;
      [|auto].
    unfold Proxy.tusProxy, Proxy.target, Proxy.onProxyReq.
    cbn [Proxy.method Proxy.body Proxy.headers].
    repeat (split; [reflexivity || assumption|]).
    intros k v Hin Hk. apply In_setHeader in Hin as [[-> ->]|[Hne _]]; [auto|].
    rewrite same_header_sym in Hk.
    assert (T : Proxy.same_header "Authorization" k = true).
    { unfold Proxy.same_header in *. exact Hk. }
    congruence.
Qed.

(** X15.  The URL of a forwarded request, for a target written in plain
    characters and an account id that is one plain segment.  The query
    goes through as it came.  When the original begins with
    [/api/upload] as written, the path after it is empty or begins a
    segment, and the forwarded path is
    [/client/v4/accounts/<ACCOUNT_ID>/stream] followed by that path with
    every run of slashes made one; a slash is put back after the first
    [http:/] or [https:/] in it, which needs a colon in the path.
    Otherwise the mount matched in another casing, which the pattern of
    [pathRewrite] does not, and the path is forwarded as it came but for
    its runs of slashes. *)
Theorem forwarded_url_is_rewritten_or_kept (req r : Proxy.Request) :
  forwarded (Proxy.app secrets req) = Some r ->
  plain_target (Proxy.url req) = true ->
  plain_id (Proxy.ACCOUNT_ID secrets) = true ->
  let query := match snd (JS.split_at "?" (Proxy.url req)) with
               | Some q => String "?" q
               | None => ""
               end in
  (exists x,
     Proxy.url req = "/api/upload" ++ x ++ query
     /\ (x = "" \/ exists y, x = String "/" y)
     /\ Proxy.url r
        = Proxy.restore_scheme
            ("/client/v4/accounts/" ++ Proxy.ACCOUNT_ID secrets ++ "/stream"
             ++ Proxy.collapse_slashes x)
          ++ query
     /\ (all_chars (is_not ":") x = true ->
         Proxy.url r
         = "/client/v4/accounts/" ++ Proxy.ACCOUNT_ID secrets ++ "/stream"
           ++ Proxy.collapse_slashes x ++ query))
  \/ (Proxy.strip_prefix "/api/upload" (Proxy.url req) = None
      /\ Proxy.url r
         = Proxy.restore_scheme
             (Proxy.collapse_slashes (Proxy.pathname (Proxy.url req)))
           ++ query
      /\ (all_chars (is_not ":") (Proxy.pathname (Proxy.url req)) = true ->
          Proxy.url r
          = Proxy.collapse_slashes (Proxy.pathname (Proxy.url req)) ++ query)).
Proof.
  intros H _ Hid query. unfold Proxy.app, Proxy.cors in H.
  destruct (String.eqb (Proxy.method req) "OPTIONS"); [discriminate|].
  destruct (Proxy.mounted_at "/api/upload" (Proxy.pathname (Proxy.url req))) eqn:Mt;
    [|discriminate].
  rewrite tusProxy_forwards in H. cbn [forwarded] in H. injection H as <-.
  cbn [Proxy.url].
  destruct (Proxy.strip_prefix "/api/upload" (Proxy.url req)) as [rest|] eqn:S.
  - left. apply strip_prefix_sound in S.
    set (x := fst (JS.split_at "?" rest)).
    assert (Hp : Proxy.pathname (Proxy.url req) = "/api/upload" ++ x).
    { unfold Proxy.pathname. rewrite S.
      rewrite (split_at_app_absent "?" "/api/upload" rest eq_refl). reflexivity. }
    assert (Hq : query = match snd (JS.split_at "?" rest) with
                         | Some q => String "?" q | None => "" end).
    { unfold query. rewrite S.
      rewrite (split_at_app_absent "?" "/api/upload" rest eq_refl). reflexivity. }
    assert (Hr : rest = x ++ query).
    { rewrite Hq. apply split_at_join. }
    assert (Hx : x = "" \/ exists y, x = String "/" y).
    { rewrite Hp in Mt. unfold Proxy.mounted_at in Mt. simpl in Mt.
      destruct x as [|c y]; [left; reflexivity|right]. simpl in Mt.
      destruct (Proxy.lower c) as [b0 b1 b2 b3 b4 b5 b6 b7] eqn:L.
      assert (Proxy.lower c = "/"%char) as L'.
      { rewrite L. destruct b0, b1, b2, b3, b4, b5, b6, b7; try discriminate Mt.
        reflexivity. }
      apply lower_slash in L'. subst c. eauto. }
    assert (Hn : all_chars (is_not "?") x = true) by apply split_at_fst_absent.
    assert (Hq' : query = "" \/ exists q, query = String "?" q)
      by (rewrite Hq; destruct (snd _); eauto).
    exists x. rewrite S, Hr at 1. split; [reflexivity|]. split; [exact Hx|].
    rewrite S, Hr, (pathRewrite_plain secrets _ Hid).
    split; [apply (joined_rewritten secrets _ _ Hid Hn Hx Hq')|].
    intros Hc. apply (joined_rewritten_clean secrets _ _ Hid Hn Hx Hq' Hc).
  - right. split; [reflexivity|]. unfold Proxy.pathRewrite. rewrite S.
    rewrite (joined_kept _ (mounted_target _ Mt)). fold query.
    split; [reflexivity|]. intros Hc.
    rewrite restore_scheme_absent; [reflexivity|].
    apply all_chars_collapse. exact Hc.
Qed.

End Forwarding.

(** ** The listing's component *)

Lemma component_char_target c : component_char c = true -> target_char c = true.
Proof.
  assert (H : forallb (fun n => implb (component_char (ascii_of_nat n))
                                     (target_char (ascii_of_nat n)))
                      (seq 0 256) = true) by (vm_compute; reflexivity).
  rewrite forallb_forall in H. intros Hc.
  specialize (H (nat_of_ascii c)). rewrite ascii_nat_embedding, Hc in H.
  apply H. apply in_seq. pose proof (nat_ascii_bounded c). lia.
Qed.

(** X13.  The server has no route of its own for the status lookup.
    The request of [onSuccess] is written in plain characters, and with
    an account id that is one plain segment the server forwards it,
    whatever headers the browser has added, as a GET without body to
    [https://api.cloudflare.com], to the path
    [/client/v4/accounts/<ACCOUNT_ID>/stream/status] with the
    [filename] parameter as it came.  It goes with the bearer token,
    the host of the target and [connection: close] (unless the request
    asked for an upgrade); every other header passes as it came.  As
    the component sends it, without headers of its own, these three are
    all its headers. *)
Theorem status_lookup_is_forwarded_upstream (date : Date) (secrets : Proxy.Secrets) (f : File) :
  plain_id (Proxy.ACCOUNT_ID secrets) = true ->
  let upstream := "/client/v4/accounts/" ++ Proxy.ACCOUNT_ID secrets
                  ++ "/stream/status?filename="
                  ++ URI.encodeURIComponent (timestamp date ++ " - " ++ name f) in
  let bearer := "Bearer " ++ Proxy.API_TOKEN secrets in
  own_requests (onSuccess date f) = [status_lookup date f]
  /\ plain_target (Proxy.url (status_lookup date f)) = true
  /\ (forall hs, exists r,
        Proxy.app secrets
          {| Proxy.method := "GET";
             Proxy.url := Proxy.url (status_lookup date f);
             Proxy.headers := hs;
             Proxy.body := "" |}
        = Proxy.Forwarded "https://api.cloudflare.com" r
        /\ Proxy.method r = "GET" /\ Proxy.body r = "" /\ Proxy.url r = upstream
        /\ Proxy.getHeader "authorization" (Proxy.headers r) = Some bearer
        /\ Proxy.getHeader "host" (Proxy.headers r) = Some "api.cloudflare.com"
        /\ Proxy.getHeader "connection" (Proxy.headers r)
           = match Proxy.getHeader "connection" hs with
             | Some v => if Proxy.upgradeHeader v then Some v else Some "close"
             | None => Some "close"
             end
        /\ forall h,
             Proxy.same_header h "authorization" = false ->
             Proxy.same_header h "host" = false ->
             Proxy.same_header h "connection" = false ->
             Proxy.getHeader h (Proxy.headers r) = Proxy.getHeader h hs)
  /\ map (Proxy.app secrets) (own_requests (onSuccess date f))
     = [Proxy.Forwarded "https://api.cloudflare.com"
          {| Proxy.method := "GET";
             Proxy.url := upstream;
             Proxy.headers := [("Authorization", bearer);
                               ("host", "api.cloudflare.com");
                               ("connection", "close")];
             Proxy.body := "" |}].
Proof.
  intros Hid upstream bearer.
  set (enc := URI.encodeURIComponent (timestamp date ++ " - " ++ name f)) in *.
  assert (Q : all_chars component_char enc = true) by apply encode_chars.
  assert (U : forall hs,
             Proxy.app secrets
               {| Proxy.method := "GET";
                  Proxy.url := "/api/upload/status?filename=" ++ enc;
                  Proxy.headers := hs;
                  Proxy.body := "" |}
             = Proxy.Forwarded "https://api.cloudflare.com"
                 {| Proxy.method := "GET";
                    Proxy.url := upstream;
                    Proxy.headers :=
                      Proxy.setHeader "Authorization" bearer
                        (Proxy.setHeader "host" "api.cloudflare.com"
                           (Proxy.setConnection hs));
                    Proxy.body := "" |}).
  { intros hs. unfold Proxy.app, Proxy.cors. cbn [Proxy.method Proxy.url].
    change (String.eqb "GET" "OPTIONS") with false. cbv iota.
    assert (M : Proxy.mounted_at "/api/upload"
                  (Proxy.pathname ("/api/upload/status?filename=" ++ enc)) = true)
      by reflexivity.
    rewrite M, tusProxy_forwards.
    cbn [Proxy.method Proxy.url Proxy.headers Proxy.body].
    rewrite deleteLength_other by discriminate.
    change ("/api/upload/status?filename=" ++ enc)
      with ("/api/upload" ++ ("/status" ++ "?filename=" ++ enc)).
    rewrite (pathRewrite_plain secrets _ Hid).
    rewrite (joined_rewritten_clean secrets "/status" ("?filename=" ++ enc) Hid eq_refl
               (or_intror (ex_intro _ "status" eq_refl))
               (or_intror (ex_intro _ ("filename=" ++ enc) eq_refl)) eq_refl).
    reflexivity. }
  split; [reflexivity|]. split.
  { unfold status_lookup, fetch_request, plain_target. cbn [Proxy.url]. fold enc.
    rewrite all_chars_app. apply andb_true_iff. split; [reflexivity|].
    apply (all_chars_impl component_char); [apply component_char_target|exact Q]. }
  split.
  - intros hs. eexists. split; [apply U|].
    cbn [Proxy.method Proxy.url Proxy.headers Proxy.body].
    split; [reflexivity|]. split; [reflexivity|]. split; [reflexivity|].
    split; [reflexivity|].
    split; [rewrite getHeader_setHeader_other by reflexivity; apply getHeader_setHeader|].
    split.
    + rewrite !getHeader_setHeader_other by reflexivity. unfold Proxy.setConnection.
      destruct (Proxy.getHeader "connection" hs) as [v|] eqn:C.
      * destruct (Proxy.upgradeHeader v); [exact C|apply getHeader_setHeader].
      * apply getHeader_setHeader.
    + intros h Ha Hh Hc.
      rewrite !getHeader_setHeader_other by assumption.
      apply getHeader_setConnection_other. exact Hc.
  - unfold onSuccess, own_requests, fetch_request. fold enc. simpl map.
    rewrite U. reflexivity.
Qed.

(** X16.  The media id on its way to the listing's component: when the
    response to the client has no [stream-media-id] header of its own,
    [onAfterResponse] does after [onProxyRes] what it would do on the
    upstream response; a non-empty upstream header so ends in
    [setMediaId] with its value. *)
Theorem media_id_header_passes_the_proxy (up down : list (string * string)) :
  Proxy.getHeader "stream-media-id" down = None ->
  VideoUploader.onAfterResponse (Proxy.onProxyRes up down)
  = VideoUploader.onAfterResponse up
  /\ (forall v,
        Proxy.getHeader "stream-media-id" up = Some v -> v <> "" ->
        VideoUploader.onAfterResponse (Proxy.onProxyRes up down) = [SetMediaId (VString v)]).
Proof.
  intros Hd.
  assert (E : VideoUploader.onAfterResponse (Proxy.onProxyRes up down)
              = VideoUploader.onAfterResponse up).
  { unfold VideoUploader.onAfterResponse, Proxy.onProxyRes.
    destruct (Proxy.getHeader "stream-media-id" up) as [v|] eqn:U.
    - destruct (String.eqb v "") eqn:V.
      + rewrite Hd. reflexivity.
      + rewrite getHeader_setHeader, V. reflexivity.
    - rewrite Hd. reflexivity. }
  split; [exact E|].
  intros v Hv Hne. rewrite E. unfold VideoUploader.onAfterResponse. rewrite Hv.
  apply String.eqb_neq in Hne. rewrite Hne. reflexivity.
Qed.

Lemma first_closure_empty_step w e w' acts :
  first_closure_empty w -> VideoUploader.step w e = Some (w', acts) ->
  first_closure_empty w'.
Proof.
  unfold first_closure_empty. intros Hw H. destruct e; simpl in H.
  - injection H as <- _. simpl. destruct (VideoUploader.closures w); exact Hw.
  - injection H as <- _. simpl.
    destruct (VideoUploader.file (VideoUploader.cells w));
      destruct (VideoUploader.closures w); exact Hw.
  - destruct (VideoUploader.closures w !! id) eqn:L; [|discriminate].
    injection H as <- _. simpl.
    destruct (VideoUploader.closures w); [discriminate L|exact Hw].
  - destruct (VideoUploader.closures w !! id); [|discriminate].
    injection H as <- _. exact Hw.
Qed.

Lemma first_closure_empty_run evs : forall w w' acts,
  first_closure_empty w -> VideoUploader.run w evs = Some (w', acts) ->
  first_closure_empty w'.
Proof.
  induction evs as [|e evs IH]; intros w w' acts Hw H; simpl in H.
  - injection H as <- _. exact Hw.
  - destruct (VideoUploader.step w e) as [[w1 a1]|] eqn:S; [|discriminate].
    destruct (VideoUploader.run w1 evs) as [[w2 a2]|] eqn:R; [|discriminate].
    injection H as <- _. eapply IH; [|exact R].
    eapply first_closure_empty_step; eassumption.
Qed.

(** X17.  In the listing's component [onSuccess] logs the [mediaId] of
    the render its upload was created in.  No response arrives before
    the first upload exists, so whatever the headers have brought
    since, the success of the first upload logs an empty media id. *)
Theorem first_upload_logs_no_media_id (evs : list VideoUploader.Event)
    (w : VideoUploader.World) (acts : list Action) :
  VideoUploader.run VideoUploader.start evs = Some (w, acts) ->
  VideoUploader.closures w <> [] ->
  VideoUploader.step w (VideoUploader.OnSuccess 0)
  = Some (w, [SetUploadStatus "Upload complete!"; ConsoleLog ["Upload finished"; ""]]).
Proof.
  intros H Hne.
  pose proof (first_closure_empty_run evs VideoUploader.start w acts eq_refl H) as F.
  unfold first_closure_empty in F. simpl.
  destruct (VideoUploader.closures w) as [|st rest]; [contradiction|].
  simpl. unfold VideoUploader.onSuccess. rewrite F. reflexivity.
Qed.

(** ** Instances of the further properties *)

Lemma replacing_run :
  run sample_date start replacing_events
  = Some (fst (outcome replacing_events), snd (outcome replacing_events)).
Proof. vm_compute. reflexivity. Qed.

Lemma superseded_uploads_are_aborted_witness :
  run sample_date start replacing_events
  = Some (fst (outcome replacing_events), snd (outcome replacing_events))
  /\ upload (cells (fst (outcome replacing_events)))
     = latest (instances (fst (outcome replacing_events)))
  /\ (forall id,
        (S id < length (instances (fst (outcome replacing_events))))%nat ->
        In (TusAbort id) (snd (outcome replacing_events)))
  /\ (mounted (fst (outcome replacing_events)) = false ->
      forall id u,
        instances (fst (outcome replacing_events)) !! id = Some u ->
        In (TusAbort id) (snd (outcome replacing_events))).
Proof.
  split; [exact replacing_run|].
  exact (superseded_uploads_are_aborted sample_date replacing_events _ _ replacing_run).
Defined.

Lemma forwarded_url_is_rewritten_or_kept_witness :
  forwarded (Proxy.app Proxy.placeholders shouting_request)
  = Some {| Proxy.method := "POST";
            Proxy.url := "/API/Upload/4f2a?resume=1";
            Proxy.headers := [("Authorization", "Bearer <API_TOKEN>");
                              ("host", "api.cloudflare.com");
                              ("connection", "close");
                              ("Tus-Resumable", "1.0.0")];
            Proxy.body := "" |}
  /\ plain_target (Proxy.url shouting_request) = true
  /\ plain_id (Proxy.ACCOUNT_ID Proxy.placeholders) = true
  /\ Proxy.strip_prefix "/api/upload" (Proxy.url shouting_request) = None
  /\ "/API/Upload/4f2a?resume=1"
     = Proxy.collapse_slashes (Proxy.pathname (Proxy.url shouting_request)) ++ "?resume=1".
Proof.
  assert (F : forwarded (Proxy.app Proxy.placeholders shouting_request)
              = Some {| Proxy.method := "POST";
                        Proxy.url := "/API/Upload/4f2a?resume=1";
                        Proxy.headers := [("Authorization", "Bearer <API_TOKEN>");
                                          ("host", "api.cloudflare.com");
                                          ("connection", "close");
                                          ("Tus-Resumable", "1.0.0")];
                        Proxy.body := "" |})
    by (vm_compute; reflexivity).
  assert (T : plain_target (Proxy.url shouting_request) = true) by reflexivity.
  assert (I : plain_id (Proxy.ACCOUNT_ID Proxy.placeholders) = true) by reflexivity.
  split; [exact F|]. split; [exact T|]. split; [exact I|].
  destruct (forwarded_url_is_rewritten_or_kept Proxy.placeholders shouting_request _ F T I)
    as [(x & E & _)|(S & _ & C)].
  - discriminate E.
  - split; [exact S|]. exact (C eq_refl).
Defined.

(** X13 at the sample file. *)
Lemma status_lookup_is_forwarded_upstream_witness :
  plain_id (Proxy.ACCOUNT_ID Proxy.placeholders) = true
  /\ plain_target (Proxy.url (status_lookup sample_date sample_file)) = true
  /\ map (Proxy.app Proxy.placeholders) (own_requests (onSuccess sample_date sample_file))
     = [Proxy.Forwarded "https://api.cloudflare.com"
          {| Proxy.method := "GET";
             Proxy.url := "/client/v4/accounts/" ++ Proxy.ACCOUNT_ID Proxy.placeholders
                          ++ "/stream/status?filename="
                          ++ URI.encodeURIComponent
                               (timestamp sample_date ++ " - " ++ name sample_file);
             Proxy.headers := [("Authorization", "Bearer " ++ Proxy.API_TOKEN Proxy.placeholders);
                               ("host", "api.cloudflare.com");
                               ("connection", "close")];
             Proxy.body := "" |}].
Proof.
  assert (I : plain_id (Proxy.ACCOUNT_ID Proxy.placeholders) = true) by reflexivity.
  split; [exact I|].
  destruct (status_lookup_is_forwarded_upstream sample_date Proxy.placeholders sample_file I)
    as (_ & T & _ & M).
  split; [exact T|exact M].
Defined.

Lemma listing_run :
  VideoUploader.run VideoUploader.start listing_events = Some (listing_world, listing_log).
Proof. vm_compute. reflexivity. Qed.

Lemma first_upload_logs_no_media_id_witness :
  VideoUploader.run VideoUploader.start listing_events = Some (listing_world, listing_log)
  /\ VideoUploader.mediaId (VideoUploader.cells listing_world) = "abc123"
  /\ VideoUploader.step listing_world (VideoUploader.OnSuccess 0)
     = Some (listing_world,
             [SetUploadStatus "Upload complete!"; ConsoleLog ["Upload finished"; ""]]).
Proof.
  assert (N : VideoUploader.closures listing_world <> [])
    by (vm_compute; discriminate).
  split; [exact listing_run|]. split; [vm_compute; reflexivity|].
  exact (first_upload_logs_no_media_id listing_events listing_world listing_log
           listing_run N).
Defined.

Lemma media_id_header_passes_the_proxy_witness :
  Proxy.getHeader "stream-media-id" [("content-length", "0")] = None
  /\ VideoUploader.onAfterResponse
       (Proxy.onProxyRes [("Stream-Media-Id", "abc123")] [("content-length", "0")])
     = [SetMediaId (VString "abc123")].
Proof.
  split; [reflexivity|].
  exact (proj2 (media_id_header_passes_the_proxy
                  [("Stream-Media-Id", "abc123")] [("content-length", "0")] eq_refl)
           "abc123" eq_refl ltac:(discriminate)).
Defined.

(** X1 in the middle of the sample upload. *)
Lemma file_selection_resets_progress_witness :
  mounted (sample_world 3) = true
  /\ exists w',
       step sample_date (sample_world 3) (FileChange (Some [second_file]))
       = Some (w', [SetFile second_file; SetUploadStatus "File selected";
                    SetProgress (JS.of_N 0)])
       /\ cells w'
          = {| file := Some second_file; progress := JS.of_N 0;
               uploadStatus := "File selected";
               mediaId := mediaId (cells (sample_world 3));
               upload := upload (cells (sample_world 3)) |}
       /\ instances w' = instances (sample_world 3)
       /\ fetches w' = fetches (sample_world 3)
       /\ offered w' UploadClick = true
       /\ offered w' CancelClick = false
       /\ progress_container (render (cells w')) = None
       /\ step sample_date (sample_world 3) (FileChange None) = Some (sample_world 3, [])
       /\ step sample_date (sample_world 3) (FileChange (Some []))
          = Some (sample_world 3, []).
Proof.
  split; [exact sample_world_3_mounted|].
  exact (file_selection_resets_progress sample_date (sample_world 3) second_file []
           sample_world_3_mounted).
Defined.

(** X2 in the middle of the sample upload. *)
Lemma cancel_keeps_progress_witness :
  mounted (sample_world 3) = true /\ upload (cells (sample_world 3)) = Some 0%nat
  /\ offered (sample_world 3) CancelClick = true
  /\ exists w',
       step sample_date (sample_world 3) CancelClick
       = Some (w', [TusAbort 0; SetUploadStatus "Upload cancelled"])
       /\ user_run sample_date w' [UploadClick] = None.
Proof.
  assert (U : upload (cells (sample_world 3)) = Some 0%nat) by (vm_compute; reflexivity).
  assert (O : offered (sample_world 3) CancelClick = true) by (vm_compute; reflexivity).
  split; [exact sample_world_3_mounted|]. split; [exact U|]. split; [exact O|].
  destruct (cancel_keeps_progress sample_date (sample_world 3) 0%nat
              sample_world_3_mounted U) as (w' & S & _ & _ & _ & H).
  exists w'. split; [exact S|]. exact (proj1 (H O)).
Defined.

(** X3 at the sample file: 700 MB. *)
Lemma file_size_in_megabytes_witness :
  file (cells (sample_world 1)) = Some sample_file
  /\ (size sample_file < 2 ^ 53)%N
  /\ file_info (render (cells (sample_world 1)))
     = Some ("holiday clip.mp4", "700.00", "video/mp4").
Proof.
  assert (F : file (cells (sample_world 1)) = Some sample_file)
    by (vm_compute; reflexivity).
  assert (S : (size sample_file < 2 ^ 53)%N) by reflexivity.
  split; [exact F|]. split; [exact S|].
  exact (file_size_in_megabytes (cells (sample_world 1)) sample_file F S).
Defined.

(** X4 at the sample file's size. *)
Lemma progress_at_the_ends_witness :
  (0 < 734003200)%N /\ (734003200 < 2 ^ 53)%N
  /\ onProgress 734003200 734003200
     = [ConsoleLog ["percentage: "; "100.00"];
        SetProgress (JS.of_N 100);
        SetUploadStatus "Uploading: 100.00%"].
Proof.
  split; [reflexivity|]. split; [reflexivity|].
  exact (proj1 (proj2 (progress_at_the_ends sample_date 734003200 eq_refl eq_refl))).
Defined.

(** X5 at a third of the sample file. *)
Lemma cancel_follows_percentage_text_witness :
  (0 < 734003200)%N /\ (244667733 <= 734003200)%N /\ (734003200 < 2 ^ 53)%N
  /\ exists pct shown,
       onProgress 244667733 734003200
       = [ConsoleLog ["percentage: "; pct];
          SetProgress shown;
          SetUploadStatus ("Uploading: " ++ pct ++ "%")]
       /\ forall w id i,
            mounted w = true -> instances w !! id = Some i ->
            exists w',
              step sample_date w (OnProgress id 244667733 734003200)
              = Some (w', onProgress 244667733 734003200)
              /\ cancel_button (render (cells w'))
                 = negb (String.eqb pct "0.00") && negb (String.eqb pct "100.00").
Proof.
  assert (L : (244667733 <= 734003200)%N) by (intros C; discriminate C).
  split; [reflexivity|]. split; [exact L|]. split; [reflexivity|].
  exact (cancel_follows_percentage_text sample_date 244667733 734003200 eq_refl L eq_refl).
Defined.

(** X6 at an empty file. *)
Lemma progress_without_total_witness :
  (0 < 2 ^ 53)%N
  /\ onProgress 0 0
     = [ConsoleLog ["percentage: "; "NaN"];
        SetProgress JS.NaN;
        SetUploadStatus "Uploading: NaN%"].
Proof.
  split; [reflexivity|].
  exact (proj1 (progress_without_total sample_date 0 eq_refl)).
Defined.

Lemma sample_run_3 :
  run sample_date start (firstn 3 sample_events)
  = Some (sample_world 3, snd (outcome (firstn 3 sample_events))).
Proof. vm_compute. reflexivity. Qed.

(** X8 in the middle of the sample upload. *)
Lemma cancel_aborts_the_latest_upload_witness :
  run sample_date start (firstn 3 sample_events)
  = Some (sample_world 3, snd (outcome (firstn 3 sample_events)))
  /\ mounted (sample_world 3) = true
  /\ cancel_button (render (cells (sample_world 3))) = true
  /\ exists id u,
       latest (instances (sample_world 3)) = Some id
       /\ instances (sample_world 3) !! id = Some u
       /\ step sample_date (sample_world 3) CancelClick
          = Some (mkWorld (mkState (file (cells (sample_world 3)))
                                   (progress (cells (sample_world 3)))
                                   "Upload cancelled"
                                   (mediaId (cells (sample_world 3))) (Some id))
                          (instances (sample_world 3)) (fetches (sample_world 3)) true,
                  [TusAbort id; SetUploadStatus "Upload cancelled"]).
Proof.
  assert (C : cancel_button (render (cells (sample_world 3))) = true)
    by (vm_compute; reflexivity).
  split; [exact sample_run_3|]. split; [exact sample_world_3_mounted|].
  split; [exact C|].
  exact (cancel_aborts_the_latest_upload sample_date _ _ _
           sample_run_3 sample_world_3_mounted C).
Defined.

Lemma sample_user_run :
  user_run sample_date start sample_events = Some (sample_world 5, sample_log).
Proof. vm_compute. reflexivity. Qed.

(** X9 over the sample session. *)
Lemma controls_never_ask_for_a_file_witness :
  user_run sample_date start sample_events = Some (sample_world 5, sample_log)
  /\ ~ In (SetUploadStatus "Please select a file first") sample_log.
Proof.
  split; [exact sample_user_run|].
  exact (controls_never_ask_for_a_file sample_date start sample_events _ _ sample_user_run).
Defined.

(** X10 after the sample file has been chosen. *)
Lemma second_click_replaces_the_upload_witness :
  mounted (sample_world 1) = true
  /\ file (cells (sample_world 1)) = Some sample_file
  /\ offered (sample_world 1) UploadClick = true
  /\ exists w' acts,
       user_run sample_date (sample_world 1) [UploadClick; UploadClick] = Some (w', acts)
       /\ instances w'
          = (instances (sample_world 1)
             ++ [mkUpload sample_file (options sample_date sample_file);
                 mkUpload sample_file (options sample_date sample_file)])%list
       /\ upload (cells w') = Some (S (length (instances (sample_world 1))))
       /\ In (TusAbort (length (instances (sample_world 1)))) acts
       /\ progress (cells w') = progress (cells (sample_world 1)).
Proof.
  assert (M : mounted (sample_world 1) = true) by (vm_compute; reflexivity).
  assert (F : file (cells (sample_world 1)) = Some sample_file)
    by (vm_compute; reflexivity).
  assert (O : offered (sample_world 1) UploadClick = true) by (vm_compute; reflexivity).
  split; [exact M|]. split; [exact F|]. split; [exact O|].
  exact (second_click_replaces_the_upload sample_date (sample_world 1) sample_file M F O).
Defined.

(** X18 at a failure in the middle of the sample upload. *)
Lemma progress_moves_only_with_reports_witness :
  step sample_date (sample_world 3) (OnError 0 "timeout")
  = Some (fst (outcome_from (sample_world 3) [OnError 0 "timeout"]),
          snd (outcome_from (sample_world 3) [OnError 0 "timeout"]))
  /\ mounted (fst (outcome_from (sample_world 3) [OnError 0 "timeout"])) = true
  /\ offered (sample_world 3) CancelClick = true
  /\ offered (fst (outcome_from (sample_world 3) [OnError 0 "timeout"])) CancelClick
     = offered (sample_world 3) CancelClick
  /\ offered (fst (outcome_from (sample_world 3) [OnError 0 "timeout"])) UploadClick
     = offered (sample_world 3) UploadClick.
Proof.
  assert (O : offered (sample_world 3) CancelClick = true) by (vm_compute; reflexivity).
  assert (M : mounted (fst (outcome_from (sample_world 3) [OnError 0 "timeout"])) = true)
    by (vm_compute; reflexivity).
  split; [exact failing_step|]. split; [exact M|]. split; [exact O|].
  destruct (progress_moves_only_with_reports sample_date _ _ _ _ failing_step
              ltac:(discriminate) ltac:(discriminate)) as (_ & _ & K & _).
  destruct (K M) as (_ & _ & _ & U & C & _).
  split; [exact C|exact U].
Defined.

Lemma next_upload_run :
  run sample_date (sample_world 5) next_upload_events
  = Some (fst (outcome_from (sample_world 5) next_upload_events),
          snd (outcome_from (sample_world 5) next_upload_events)).
Proof. vm_compute. reflexivity. Qed.

Lemma next_upload_unsettled k data :
  ~ In (Settled k (Body (Some data))) next_upload_events.
Proof. intros H. in_cases H. Qed.

(** X19 after the sample session: the next upload fails and the media
    id of the first is still shown. *)
Lemma media_id_outlives_its_upload_witness :
  run sample_date (sample_world 5) next_upload_events
  = Some (fst (outcome_from (sample_world 5) next_upload_events),
          snd (outcome_from (sample_world 5) next_upload_events))
  /\ mediaId (cells (sample_world 5)) = VString "abc123"
  /\ mediaId (cells (fst (outcome_from (sample_world 5) next_upload_events)))
     = mediaId (cells (sample_world 5))
  /\ media_info (render (cells (fst (outcome_from (sample_world 5) next_upload_events))))
     = media_info (render (cells (sample_world 5))).
Proof.
  split; [exact next_upload_run|]. split; [vm_compute; reflexivity|].
  exact (proj1 (media_id_outlives_its_upload sample_date) _ _ _ _
           next_upload_run next_upload_unsettled).
Defined.
